(** * An Android end-to-end agent runner: model and properties

    A shallow embedding of the device layer's text sanitizer
    ([android_framework.py]), the screen geometry ([types.py]), the two
    command dispatchers ([actions.py]), the Claude action normalizer
    ([llm/claude_provider.py]) and the agent control loop
    ([agent_runner.py]); then of the Claude provider's conversation
    ([llm/claude_provider.py]), the pre-steps of an agent run
    ([agent_runner.py]), the installation and launch of the app
    ([app_lifecycle.py], [android_framework.py]) and the deterministic
    test runner ([test_runner.py]); followed by the properties the
    specification states about them, and by further properties of the
    code. *)

From Stdlib Require Import ZArith List String Ascii Bool Lia QArith.
From Stdlib Require Import DecimalString.
Import ListNotations.

Local Open Scope Z_scope.
Set Warnings "-register-all".

(** ** Screen geometry ([types.py], [agent_runner.py]) *)

Module Screen.

Record ScreenInfo : Type := mkScreenInfo {
  physical_width  : Z;
  physical_height : Z;
  rotation_deg    : Z
}.

(** [rotation in (90, 270)] *)
Definition rotated (rotation : Z) : bool :=
  (rotation =? 90) || (rotation =? 270).

Definition canvas_width (s : ScreenInfo) : Z :=
  if rotated (rotation_deg s) then physical_height s else physical_width s.

Definition canvas_height (s : ScreenInfo) : Z :=
  if rotated (rotation_deg s) then physical_width s else physical_height s.

(** The same computation as [run_agent] writes it inline, once before the
    turn loop and once per turn: [dev_w, dev_h]. *)
Definition canvas_dims (phy_w phy_h rotation : Z) : Z * Z :=
  if rotated rotation then (phy_h, phy_w) else (phy_w, phy_h).

End Screen.

(** ** Text sanitizer ([android_framework.py])

    A Python [str] is a sequence of Unicode code points; the regular
    expression below works code point by code point, so the sanitizer is
    modelled on lists of code points. *)

Module Sanitize.

Definition codepoint := N.
Definition pystr := list codepoint.

Definition cp (a : ascii) : codepoint := N_of_ascii a.

Fixpoint of_string (s : string) : pystr :=
  match s with
  | EmptyString => []
  | String a r => cp a :: of_string r
  end.

Definition between (lo hi c : codepoint) : bool :=
  ((lo <=? c) && (c <=? hi))%N.

(** The character class [A-Za-z0-9_%@.,:\-]. *)
Definition in_safe_class (c : codepoint) : bool :=
  between (cp "A") (cp "Z") c || between (cp "a") (cp "z") c
  || between (cp "0") (cp "9") c
  || (c =? cp "_")%N || (c =? cp "%")%N || (c =? cp "@")%N
  || (c =? cp ".")%N || (c =? cp ",")%N || (c =? cp ":")%N
  || (c =? cp "-")%N.

(** [text.replace(" ", "%s")] *)
Fixpoint replace_spaces (text : pystr) : pystr :=
  match text with
  | [] => []
  | c :: rest =>
      if (c =? cp " ")%N then cp "%" :: cp "s" :: replace_spaces rest
      else c :: replace_spaces rest
  end.

(** [re.compile(r"[^A-Za-z0-9_%@.,:\-]").sub("_", text)] *)
Definition sub_unsafe (text : pystr) : pystr :=
  map (fun c => if in_safe_class c then c else cp "_") text.

Definition _sanitize_text_for_adb_input (text : pystr) : pystr :=
  let text := replace_spaces text in
  let text := sub_unsafe text in
  text.

(** [AndroidDevice.input_text]: the argument vector handed to [adb]. *)
Definition input_text_argv (text : pystr) : list pystr :=
  let sanitized := _sanitize_text_for_adb_input text in
  [of_string "shell"; of_string "input"; of_string "text"; sanitized].

(** What the two passes do to one character of the original text. *)
Definition encode_char (c : codepoint) : pystr :=
  if (c =? cp " ")%N then [cp "%"; cp "s"]
  else if in_safe_class c then [c]
  else [cp "_"].

End Sanitize.


(** ** Python values, exceptions and built-ins

    The dictionaries the program passes around come from JSON documents and
    from model responses: they are modelled as JSON values.  A dictionary is
    an association list in insertion order (unpacking a dictionary yields its
    keys in that order). *)

Module Py.

(** Floats are the rationals they denote, plus the two infinities and NaN.
    Rounding of huge integers to 53 bits is not modelled. *)
Inductive pyfloat : Type :=
| FFin (q : Q)
| FInf (negative : bool)
| FNan.

Inductive value : Type :=
| VNone
| VBool (b : bool)
| VInt (z : Z)
| VFloat (f : pyfloat)
| VStr (s : string)
| VList (items : list value)
| VDict (entries : list (string * value)).

Definition dict : Type := list (string * value).

(** [UnknownCommand shown] is [ValueError(f"Unknown command: {cmd}")]; the
    other [ValueError]s are raised by built-ins. *)
Inductive exn : Type :=
| TypeError
| ValueError
| OverflowError
| KeyError (key : string)
| RuntimeError
| UnknownCommand (shown : string).

Inductive result (A : Type) : Type :=
| Ok (a : A)
| Raise (e : exn).

Arguments Ok {A} a.
Arguments Raise {A} e.

(** The text formats of Python's built-ins are not modelled: parsing a
    string as a number, printing a value, and [json.dumps(_, sort_keys=True)]
    are taken from the run-time system. *)
Class Builtins : Type := {
  int_of_str : string -> option Z;
  float_of_str : string -> option pyfloat;
  repr : value -> string;
  json_dumps_sorted : value -> string
}.

Fixpoint lookup (d : dict) (k : string) : option value :=
  match d with
  | [] => None
  | (k', v) :: rest => if String.eqb k' k then Some v else lookup rest k
  end.

(** [k in d] *)
Definition contains (d : dict) (k : string) : bool :=
  match lookup d k with Some _ => true | None => false end.

(** [d.get(k, default)] *)
Definition get_default (d : dict) (k : string) (default : value) : value :=
  match lookup d k with Some v => v | None => default end.

(** [d.get(k)] *)
Definition get (d : dict) (k : string) : value := get_default d k VNone.

(** [d[k]] *)
Definition subscript (d : dict) (k : string) : result value :=
  match lookup d k with Some v => Ok v | None => Raise (KeyError k) end.

Definition float_is_zero (f : pyfloat) : bool :=
  match f with FFin q => Qeq_bool q 0 | _ => false end.

(** Truth value testing. *)
Definition truthy (v : value) : bool :=
  match v with
  | VNone => false
  | VBool b => b
  | VInt z => negb (z =? 0)
  | VFloat f => negb (float_is_zero f)
  | VStr s => negb (String.eqb s "")
  | VList items => match items with [] => false | _ :: _ => true end
  | VDict entries => match entries with [] => false | _ :: _ => true end
  end.

(** [a or b] *)
Definition or_else (a b : value) : value := if truthy a then a else b.

(** [v is None], and [None in (v, ...)] one component at a time. *)
Definition is_none (v : value) : bool :=
  match v with VNone => true | _ => false end.

(** [v == "literal"] *)
Definition eq_str (v : value) (s : string) : bool :=
  match v with VStr t => String.eqb t s | _ => false end.

(** [v in ("a", "b", ...)] *)
Definition in_strs (v : value) (l : list string) : bool :=
  existsb (eq_str v) l.

(** [int(v)] *)
Definition py_int `{Builtins} (v : value) : result Z :=
  match v with
  | VInt z => Ok z
  | VBool b => Ok (if b then 1 else 0)
  | VFloat (FFin q) => Ok (Z.quot (Qnum q) (Zpos (Qden q)))
  | VFloat (FInf _) => Raise OverflowError
  | VFloat FNan => Raise ValueError
  | VStr s => match int_of_str s with Some z => Ok z | None => Raise ValueError end
  | VNone | VList _ | VDict _ => Raise TypeError
  end.

(** [float(v)] *)
Definition py_float `{Builtins} (v : value) : result pyfloat :=
  match v with
  | VInt z => Ok (FFin (inject_Z z))
  | VBool b => Ok (FFin (if b then 1 else 0)%Q)
  | VFloat f => Ok f
  | VStr s => match float_of_str s with Some f => Ok f | None => Raise ValueError end
  | VNone | VList _ | VDict _ => Raise TypeError
  end.

(** [str(v)] *)
Definition py_str `{Builtins} (v : value) : string :=
  match v with VStr s => s | _ => repr v end.

(** [a, b = v]: unpacking a value into exactly two targets. *)
Definition unpack2 (v : value) : result (value * value) :=
  match v with
  | VList [a; b] => Ok (a, b)
  | VStr (String a (String b EmptyString)) =>
      Ok (VStr (String a EmptyString), VStr (String b EmptyString))
  | VDict [(k1, _); (k2, _)] => Ok (VStr k1, VStr k2)
  | VList _ | VStr _ | VDict _ => Raise ValueError
  | VNone | VBool _ | VInt _ | VFloat _ => Raise TypeError
  end.

End Py.


(** ** The device ([android_framework.py])

    A run is observed through the calls it makes on the [AndroidDevice], in
    order.  The calls that run an external command and check its exit code
    raise [RuntimeError] when the command fails; whether a command fails is
    up to the device, and may depend on everything done to it before.  So
    may the answers to the three display queries of [agent_runner.py], which
    swallow their own failures and fall back to a default. *)

Module Device.
Import Py.

Inductive Path : Type :=
| UserPath (p : string)
| TempFile
| PreclickMarked (global_turn_index : nat)
| EndTestShot (global_turn_index : nat).

Inductive Call : Type :=
| tap (x y : Z)
| swipe (x1 y1 x2 y2 duration_ms : Z)
| input_text (text : string)   (* as passed; the device sanitizes it *)
| keyevent (name_or_code : string)
| wait (seconds : pyfloat)
| screenshot (out_path : Path)
| screenshot_with_marker (out_path : Path) (x y : Z)
| launch_app (package : string) (activity : value)
| stop_app (package : string)
| time_sleep (seconds : pyfloat).

Class Emulator : Type := {
  (** the command behind a call exits non-zero, given the calls so far *)
  command_fails : list Call -> Call -> bool;
  get_device_resolution : list Call -> Z * Z;
  get_device_rotation_deg : list Call -> Z;
  get_device_display_size : list Call -> option (Z * Z)
}.

End Device.

(** ** The state of a run and its effects

    What [run_agent] builds up while it runs and keeps when an exception
    unwinds the loop: the device's call history, the progressive log, the
    web-report events and the per-sub-goal results. *)

Module Trace.
Import Py Device.

(** One entry of [steps_spec], after placeholder substitution. *)
Record SubGoal : Type := mkSubGoal {
  goal : string;
  suggestions : string;
  negative_prompt : string;
  success_criteria : string
}.

(** One entry of [substep_results]. *)
Record SubstepResult : Type := mkSubstepResult {
  index : nat;
  texts : SubGoal;
  ok : bool;
  turns : nat
}.

(** One line of the progressive log ([log(...)] in [run_agent]). *)
Inductive LogLine : Type :=
| LogRecordingStarted
| LogTurn (sub_idx turns_this_sub global_turn_index : nat)
| LogScreen (phy_w phy_h rotation dev_w dev_h : Z)
| LogReasoning (txt : string)
| LogAction (action : value)
| LogRepeatedAction
| LogIgnoredEndTest
| LogEndTestCalled
| LogSubstepFinished (sub_idx : nat) (success : bool)
| LogExecutedActions (sub_idx turns_this_sub actions_this_turn : nat)
| LogAborting (sub_idx : nat)
| LogException (e : exn).

(** The screen data an event carries: [physical], [rotation], [canvas]. *)
Record ScreenStamp : Type := mkScreenStamp {
  physical : Z * Z;
  rotation : Z;
  canvas : Z * Z
}.

(** One entry of [web_events]; an [end_test] event has its image and
    screen data only when the final screenshot was captured. *)
Inductive WebEvent : Type :=
| ClickEvent (index substep : nat) (cmd : string) (x y : Z) (image : Path)
    (screen : ScreenStamp) (reason : string)
| EndTestEvent (index substep : nat) (success : bool) (reason : string)
    (image : option (Path * ScreenStamp)).

Record World : Type := mkWorld {
  calls : list Call;
  step_logs : list LogLine;
  web_events : list WebEvent;
  substep_results : list SubstepResult
}.

Definition empty_world : World := mkWorld [] [] [] [].

(** Computations that change the world and return or raise. *)
Definition M (A : Type) : Type := World -> result A * World.

Definition ret {A} (a : A) : M A := fun w => (Ok a, w).

Definition raise {A} (e : exn) : M A := fun w => (Raise e, w).

Definition bind {A B} (m : M A) (k : A -> M B) : M B :=
  fun w =>
    match m w with
    | (Ok a, w') => k a w'
    | (Raise e, w') => (Raise e, w')
    end.

(** A pure computation that may raise. *)
Definition lift {A} (r : result A) : M A := fun w => (r, w).

(** [try: m  except Exception as e: handler e] *)
Definition try_except {A} (m : M A) (handler : exn -> M A) : M A :=
  fun w =>
    match m w with
    | (Ok a, w') => (Ok a, w')
    | (Raise e, w') => handler e w'
    end.

Definition record (c : Call) (w : World) : World :=
  mkWorld (calls w ++ [c]) (step_logs w) (web_events w) (substep_results w).

(** A device call whose command is checked. *)
Definition checked `{Emulator} (c : Call) : M unit :=
  fun w =>
    if command_fails (calls w) c then (Raise RuntimeError, record c w)
    else (Ok tt, record c w).

(** A call that cannot fail. *)
Definition quiet (c : Call) : M unit := fun w => (Ok tt, record c w).

(** A query of the device, answered from its history. *)
Definition query {A} (q : list Call -> A) : M A :=
  fun w => (Ok (q (calls w)), w).

(** [time.sleep] rejects a negative or NaN length and an infinite one. *)
Definition sleep_check (seconds : pyfloat) : result unit :=
  match seconds with
  | FFin q => if Qle_bool 0 q then Ok tt else Raise ValueError
  | FInf false => Raise OverflowError
  | FInf true => Raise ValueError
  | FNan => Raise ValueError
  end.

(** [device.wait(seconds)] is [time.sleep(seconds)]. *)
Definition device_wait (seconds : pyfloat) : M unit :=
  bind (lift (sleep_check seconds)) (fun _ => quiet (wait seconds)).

Definition log (l : LogLine) : M unit :=
  fun w => (Ok tt, mkWorld (calls w) (step_logs w ++ [l]) (web_events w)
                     (substep_results w)).

Definition web_append (e : WebEvent) : M unit :=
  fun w => (Ok tt, mkWorld (calls w) (step_logs w) (web_events w ++ [e])
                     (substep_results w)).

Definition results_append (r : SubstepResult) : M unit :=
  fun w => (Ok tt, mkWorld (calls w) (step_logs w) (web_events w)
                     (substep_results w ++ [r])).

End Trace.

Declare Scope py_scope.
Delimit Scope py_scope with py.
Notation "'let*' x ':=' m 'in' k" :=
  (Trace.bind m (fun x => k))
  (at level 10, x pattern, m at level 100, k at level 200) : py_scope.
Notation "m ';;' k" :=
  (Trace.bind m (fun _ => k))
  (at level 100, k at level 200, right associativity) : py_scope.


(** ** Command dispatch ([actions.py]) *)

Module Actions.
Import Py Device Trace.
Local Open Scope string_scope.
Local Open Scope py_scope.

Section Dispatch.
Context `{Builtins} `{Emulator}.

(** [Path(v)] *)
Definition to_path (v : value) : result Path :=
  match v with VStr p => Ok (UserPath p) | _ => Raise TypeError end.

(** [int(step[k])] *)
Definition int_at (step : dict) (k : string) : M Z :=
  let* v := lift (subscript step k) in lift (py_int v).

Definition execute_command (step : dict) (package : string) : M unit :=
  let cmd := get step "cmd" in
  if negb (truthy cmd) then ret tt
  else if eq_str cmd "wait" then
    let* seconds := lift (py_float (get_default step "seconds" (VInt 1))) in
    device_wait seconds
  else if eq_str cmd "tap" then
    let* x := int_at step "x" in
    let* y := int_at step "y" in
    checked (tap x y)
  else if eq_str cmd "swipe" then
    let* x1 := int_at step "x1" in
    let* y1 := int_at step "y1" in
    let* x2 := int_at step "x2" in
    let* y2 := int_at step "y2" in
    let* duration_ms := lift (py_int (get_default step "duration_ms" (VInt 300))) in
    checked (swipe x1 y1 x2 y2 duration_ms)
  else if eq_str cmd "input_text" then
    let* text := lift (subscript step "text") in
    checked (input_text (py_str text))
  else if eq_str cmd "keyevent" then
    checked (keyevent (py_str (or_else (get step "code") (get step "name"))))
  else if eq_str cmd "back" then
    checked (keyevent "4")
  else if eq_str cmd "home" then
    checked (keyevent "3")
  else if eq_str cmd "screenshot" then
    let* p := lift (subscript step "path") in
    let* out_path := lift (to_path p) in
    checked (screenshot out_path)
  else if eq_str cmd "launch" then
    checked (launch_app (py_str (get_default step "package" (VStr package)))
                    (get step "activity"))
  else if eq_str cmd "stop" then
    checked (stop_app (py_str (get_default step "package" (VStr package))))
  else
    raise (UnknownCommand (py_str cmd)).

(** The [path] fallback of a drag: the coordinates after the [try] block,
    which keeps what was assigned before an exception. *)
Definition drag_from_path (action : dict) (x y x2 y2 : value)
  : value * value * value * value :=
  match get action "path" with
  | VList ((start :: _ :: _) as path) =>
      match start with
      | VDict start =>
          let x := get_default start "x" x in
          let y := get_default start "y" y in
          match last path VNone with
          | VDict end_ => (x, y, get end_ "x", get end_ "y")
          | _ => (x, y, x2, y2)
          end
      | _ => (x, y, x2, y2)
      end
  | _ => (x, y, x2, y2)
  end.

Definition map_computer_action (action : dict) : M (option string) :=
  let atype := get action "type" in
  let x := get action "x" in
  let y := get action "y" in
  if eq_str atype "click" then
    if is_none x || is_none y then ret (Some "error: missing coordinates")
    else
      let* xi := lift (py_int x) in
      let* yi := lift (py_int y) in
      checked (tap xi yi);;
      ret (Some "success")
  else if eq_str atype "double_click" then
    if is_none x || is_none y then ret (Some "error: missing coordinates")
    else
      let* xi := lift (py_int x) in
      let* yi := lift (py_int y) in
      checked (tap xi yi);;
      quiet (time_sleep (FFin (1 # 10)));;
      let* xi := lift (py_int x) in
      let* yi := lift (py_int y) in
      checked (tap xi yi);;
      ret (Some "success")
  else if eq_str atype "drag" then
    let x2 := get action "x2" in
    let y2 := get action "y2" in
    let* duration_ms := lift (py_int (get_default action "duration_ms" (VInt 300))) in
    let '(x, y, x2, y2) :=
      if is_none x2 || is_none y2 then drag_from_path action x y x2 y2
      else (x, y, x2, y2) in
    if is_none x || is_none y || is_none x2 || is_none y2 then
      ret (Some "error: missing drag coordinates")
    else
      let* xi := lift (py_int x) in
      let* yi := lift (py_int y) in
      let* x2i := lift (py_int x2) in
      let* y2i := lift (py_int y2) in
      checked (swipe xi yi x2i y2i duration_ms);;
      ret (Some "success")
  else if eq_str atype "scroll" then
    let dx := get action "dx" in
    let dy := get action "dy" in
    let dx := if is_none dx then get action "scroll_x" else dx in
    let dy := if is_none dy then get action "scroll_y" else dy in
    let* duration_ms := lift (py_int (get_default action "duration_ms" (VInt 300))) in
    if is_none x || is_none y || is_none dx || is_none dy then
      ret (Some "error: missing scroll parameters")
    else
      let* xi := lift (py_int x) in
      let* yi := lift (py_int y) in
      let* xj := lift (py_int x) in
      let* dxi := lift (py_int dx) in
      let* yj := lift (py_int y) in
      let* dyi := lift (py_int dy) in
      checked (swipe xi yi (xj + dxi) (yj + dyi) duration_ms);;
      ret (Some "success")
  else if eq_str atype "type" then
    let text := get_default action "text" (VStr "") in
    checked (input_text (py_str text));;
    ret (Some "success")
  else if eq_str atype "key" then
    let key := py_str (or_else (or_else (get action "key") (get action "code"))
                               (VStr "")) in
    if String.eqb key "" then ret (Some "error: missing key")
    else
      checked (keyevent key);;
      ret (Some "success")
  else if eq_str atype "wait" then
    let* seconds := lift (py_float (get_default action "seconds" (VInt 1))) in
    device_wait seconds;;
    ret (Some "success")
  else if eq_str atype "screenshot" then
    ret (Some "success")
  else
    ret None.

End Dispatch.

(** The action kinds [map_computer_action] dispatches on. *)
Definition recognized_kinds : list string :=
  ["click"; "double_click"; "drag"; "scroll"; "type"; "key"; "wait";
   "screenshot"].

(** Computations that raise no unknown-command error. *)
Definition known {A} (m : M A) : Prop :=
  forall w shown, fst (m w) <> Raise (UnknownCommand shown).

(** A status string that reports an error. *)
Definition is_error (status : string) : bool := String.prefix "error: " status.

(** A drag's [path] supplies an end point: it is a list of at least two
    points, the first a dictionary, the last a dictionary with [x] and [y]. *)
Definition path_gives_end (path : value) : bool :=
  match path with
  | VList ((VDict _ :: _ :: _) as points) =>
      match last points VNone with
      | VDict end_ =>
          negb (is_none (get end_ "x")) && negb (is_none (get end_ "y"))
      | _ => false
      end
  | _ => false
  end.

(** The action lacks a field its kind requires: a click or double click its
    [x] or [y]; a drag its end point, from [x2]/[y2] or from a path; a scroll
    its point or one of its deltas ([dx] or [scroll_x], [dy] or [scroll_y]);
    a key press its key code ([key] or [code]). *)
Definition lacks_required (action : dict) : bool :=
  let atype := get action "type" in
  if in_strs atype ["click"; "double_click"] then
    is_none (get action "x") || is_none (get action "y")
  else if eq_str atype "drag" then
    (is_none (get action "x2") || is_none (get action "y2"))
    && negb (path_gives_end (get action "path"))
  else if eq_str atype "scroll" then
    is_none (get action "x") || is_none (get action "y")
    || (is_none (get action "dx") && is_none (get action "scroll_x"))
    || (is_none (get action "dy") && is_none (get action "scroll_y"))
  else if eq_str atype "key" then
    negb (truthy (get action "key")) && negb (truthy (get action "code"))
  else false.

(** What a drag or a scroll makes of its duration before it looks at its
    fields, [int(action.get("duration_ms", 300))]; the other kinds convert
    no duration. *)
Definition converted_duration `{Builtins} (action : dict) : result Z :=
  if in_strs (get action "type") ["drag"; "scroll"]
  then py_int (get_default action "duration_ms" (VInt 300))
  else Ok 300.

(** The commands [execute_command] dispatches on. *)
Definition recognized_commands : list string :=
  ["wait"; "tap"; "swipe"; "input_text"; "keyevent"; "back"; "home";
   "screenshot"; "launch"; "stop"].

End Actions.


(** ** The Claude action normalizer ([llm/claude_provider.py]) *)

Module Claude.
Import Py.
Local Open Scope string_scope.

Definition _SCROLL_STEP : Z := 100.

(** The tuple [(0, 0)]. *)
Definition origin : value := VList [VInt 0; VInt 0].

Definition and_then {A B} (r : result A) (k : A -> result B) : result B :=
  match r with Ok a => k a | Raise e => Raise e end.

Section Normalize.
Context `{Builtins}.

Definition _normalize_action (inp : dict) : result dict :=
  let action := get_default inp "action" (VStr "") in
  let coord := get inp "coordinate" in
  if in_strs action ["left_click"; "right_click"; "middle_click"] then
    and_then (unpack2 (or_else coord origin)) (fun '(x, y) =>
    Ok [("type", VStr "click"); ("x", x); ("y", y)])
  else if eq_str action "double_click" then
    and_then (unpack2 (or_else coord origin)) (fun '(x, y) =>
    Ok [("type", VStr "double_click"); ("x", x); ("y", y)])
  else if eq_str action "type" then
    Ok [("type", VStr "type"); ("text", get_default inp "text" (VStr ""))]
  else if eq_str action "key" then
    Ok [("type", VStr "key"); ("key", get_default inp "text" (VStr ""))]
  else if eq_str action "scroll" then
    and_then (unpack2 (or_else coord origin)) (fun '(x, y) =>
    let direction := get_default inp "scroll_direction" (VStr "down") in
    and_then (py_int (get_default inp "scroll_amount" (VInt 3))) (fun amount =>
    let '(scroll_x, scroll_y) :=
      if eq_str direction "down" then (0, amount * _SCROLL_STEP)
      else if eq_str direction "up" then (0, - (amount * _SCROLL_STEP))
      else if eq_str direction "right" then (amount * _SCROLL_STEP, 0)
      else if eq_str direction "left" then (- (amount * _SCROLL_STEP), 0)
      else (0, 0) in
    Ok [("type", VStr "scroll"); ("x", x); ("y", y);
        ("scroll_x", VInt scroll_x); ("scroll_y", VInt scroll_y)]))
  else if eq_str action "left_click_drag" then
    let start_coordinate := get inp "start_coordinate" in
    and_then (unpack2 (or_else (or_else start_coordinate coord) origin))
      (fun '(sx, sy) =>
    and_then (unpack2 (or_else coord origin)) (fun '(ex, ey) =>
    and_then (if truthy start_coordinate
              then unpack2 (or_else coord (VList [ex; ey]))
              else Ok (ex, ey)) (fun '(ex, ey) =>
    Ok [("type", VStr "drag"); ("x", sx); ("y", sy); ("x2", ex); ("y2", ey)])))
  else if eq_str action "screenshot" then
    Ok [("type", VStr "screenshot")]
  else if eq_str action "wait" then
    Ok [("type", VStr "wait")]
  else
    Ok [("type", VStr "screenshot")].

End Normalize.




End Claude.


(** ** The agent control loop ([agent_runner.py], [llm/base.py]) *)

Module Agent.
Import Py Device Trace Actions.
Local Open Scope string_scope.
Local Open Scope py_scope.

Inductive LLMOutputType : Type := REASONING | COMPUTER_ACTION | END_TEST.

Record LLMOutputItem : Type := mkItem {
  type : LLMOutputType;
  text : option string;
  action : option value;
  success : option bool
}.

(** The second text part of the user message of a turn. *)
Inductive Note : Type :=
| NoNote
| StateUpdated       (* "State updated after actions. Continue toward the goal." *)
| NoActionsProduced. (* "No actions produced. Observe and continue toward the goal." *)

(** [input_messages]: the system prompt is constant; the user message
    carries the sub-goal's context, a note and a fresh screenshot. *)
Record Messages : Type := mkMessages {
  base_user_context : SubGoal * list string;
  note : Note
}.

(** The provider is remote and keeps its own history: its answer to the
    n-th turn of the run may depend on n as well as on what it is sent.  It
    returns the items of the turn or raises. *)
Class Backend : Type := {
  create_turn : nat -> Messages -> Z -> Z -> result (list LLMOutputItem)
}.

Record Config : Type := mkConfig {
  MAX_AGENT_STEPS : Z;
  WAIT_BETWEEN_ACTIONS : pyfloat
}.

Definition DEFAULT_MAX_STEPS : Z := 250.

Definition default_config : Config :=
  mkConfig DEFAULT_MAX_STEPS (FFin (3 # 2)).

(** The per-sub-goal trackers. *)
Record SubVars : Type := mkSubVars {
  finished : bool;
  explicit_success : option bool;
  last_sig : option string;
  repeat_count : nat;
  turns_this_sub : nat
}.

(** The per-turn variables. *)
Record TurnVars : Type := mkTurnVars {
  produced_texts : list string;
  last_reasoning_text : string;
  executed_any : bool;
  actions_this_turn : nat;
  last_click_xy : option (Z * Z)
}.

(** What the item loop reads but does not change. *)
Record TurnCtx : Type := mkTurnCtx {
  sub_idx : nat;
  global_turn_index : nat;
  screen : ScreenStamp
}.

Inductive Flow : Type := Next | Break.

Definition set_repeat (v : SubVars) (n : nat) : SubVars :=
  mkSubVars (finished v) (explicit_success v) (last_sig v) n (turns_this_sub v).

Definition set_sig (v : SubVars) (sig : string) : SubVars :=
  mkSubVars (finished v) (explicit_success v) (Some sig) 0 (turns_this_sub v).

Definition set_finished (v : SubVars) : SubVars :=
  mkSubVars true (Some true) (last_sig v) (repeat_count v) (turns_this_sub v).

Definition next_turn (v : SubVars) : SubVars :=
  mkSubVars (finished v) (explicit_success v) (last_sig v) (repeat_count v)
            (S (turns_this_sub v)).

Definition set_click (t : TurnVars) (xy : option (Z * Z)) : TurnVars :=
  mkTurnVars (produced_texts t) (last_reasoning_text t) (executed_any t)
             (actions_this_turn t) xy.

Definition count_action (t : TurnVars) : TurnVars :=
  mkTurnVars (produced_texts t) (last_reasoning_text t) true
             (S (actions_this_turn t)) (last_click_xy t).

Definition add_text (t : TurnVars) (txt : string) : TurnVars :=
  mkTurnVars (produced_texts t ++ [txt])
             (if String.eqb txt "" then last_reasoning_text t else txt)
             (executed_any t) (actions_this_turn t) (last_click_xy t).

(** [last_reasoning_text or (produced_texts[-1] if produced_texts else fallback)] *)
Definition reason_text (t : TurnVars) (fallback : string) : string :=
  if negb (String.eqb (last_reasoning_text t) "") then last_reasoning_text t
  else match produced_texts t with
       | [] => fallback
       | _ :: _ => last (produced_texts t) ""
       end.

(** [sig == last_sig] *)
Definition same_sig (sig : string) (last : option string) : bool :=
  match last with Some s => String.eqb sig s | None => false end.

Section Loop.
Context `{Builtins} `{Emulator} `{Backend}.
Variable cfg : Config.

(** The marked screenshot taken before a click or a double click. *)
Definition preclick (ctx : TurnCtx) (action : value) (t : TurnVars) : M TurnVars :=
  match action with
  | VDict d =>
      if in_strs (get d "type") ["click"; "double_click"]
         && contains d "x" && contains d "y"
      then
        match py_int (get d "x"), py_int (get d "y") with
        | Ok cx, Ok cy =>
            let pre_marked := PreclickMarked (global_turn_index ctx) in
            quiet (screenshot_with_marker pre_marked cx cy);;
            web_append (ClickEvent (global_turn_index ctx) (sub_idx ctx)
                          (py_str (get d "type")) cx cy pre_marked (screen ctx)
                          (reason_text t "No reasoning from model"));;
            ret (set_click t (Some (cx, cy)))
        | _, _ => ret (set_click t None)
        end
      else ret t
  | _ => ret t
  end.

(** One pass through the body of [for output_item in turn_result.items]. *)
Definition process_item (ctx : TurnCtx) (output_item : LLMOutputItem)
    (v : SubVars) (t : TurnVars) : M (SubVars * TurnVars * Flow) :=
  match type output_item with
  | REASONING =>
      let txt := match text output_item with Some s => s | None => "" end in
      let t := add_text t txt in
      (if String.eqb txt "" then ret tt else log (LogReasoning txt));;
      ret (v, t, Next)
  | COMPUTER_ACTION =>
      let action :=
        or_else (match action output_item with Some a => a | None => VNone end)
                (VDict []) in
      log (LogAction action);;
      let sig := json_dumps_sorted action in
      let v := if same_sig sig (last_sig v)
               then set_repeat v (S (repeat_count v))
               else set_sig v sig in
      if (10 <=? repeat_count v)%nat then
        log LogRepeatedAction;;
        checked (keyevent "4");;
        device_wait (WAIT_BETWEEN_ACTIONS cfg);;
        ret (set_repeat v 0, t, Next)
      else
        let* t := preclick ctx action t in
        let* _ := map_computer_action
                    (match action with VDict d => d | _ => [] end) in
        let t := count_action t in
        device_wait (WAIT_BETWEEN_ACTIONS cfg);;
        ret (v, t, Next)
  | END_TEST =>
      if negb (match success output_item with Some b => b | None => false end)
      then
        log LogIgnoredEndTest;;
        ret (v, t, Next)
      else
        let v := set_finished v in
        let reason := reason_text t "Model invoked end_test" in
        let end_path := EndTestShot (global_turn_index ctx) in
        let* image_rel :=
          try_except (checked (screenshot end_path);; ret (Some end_path))
                     (fun _ => ret None) in
        web_append (EndTestEvent (global_turn_index ctx) (sub_idx ctx) true reason
                      (match image_rel with
                       | Some p => Some (p, screen ctx)
                       | None => None
                       end));;
        log LogEndTestCalled;;
        ret (v, t, Break)
  end.

(** [for output_item in turn_result.items: ...], with its [break]. *)
Fixpoint process_items (ctx : TurnCtx) (items : list LLMOutputItem)
    (v : SubVars) (t : TurnVars) : M (SubVars * TurnVars) :=
  match items with
  | [] => ret (v, t)
  | output_item :: rest =>
      let* (v, t, flow) := process_item ctx output_item v t in
      match flow with
      | Break => ret (v, t)
      | Next => process_items ctx rest v t
      end
  end.

Definition fresh_turn_vars : TurnVars := mkTurnVars [] "" false 0 None.

(** The state the turn loop carries from one turn to the next. *)
Record LoopState : Type := mkLoopState {
  vars : SubVars;
  global_index : nat;
  input_messages : Messages
}.

(** The body of [while turns_this_sub < MAX_AGENT_STEPS and not finished].
    Writing the raw response to its file is best-effort and leaves no trace
    here. *)
Definition agent_turn (sub_idx : nat) (st : LoopState) : M LoopState :=
  let v := next_turn (vars st) in
  let g := S (global_index st) in
  log (LogTurn sub_idx (turns_this_sub v) g);;
  let* (phy_w, phy_h) := query get_device_resolution in
  let* rotation := query get_device_rotation_deg in
  let '(dev_w, dev_h) := Screen.canvas_dims phy_w phy_h rotation in
  log (LogScreen phy_w phy_h rotation dev_w dev_h);;
  let* display_size := query get_device_display_size in
  let* items :=
    lift (create_turn g (input_messages st)
            (match display_size with Some (w, _) => w | None => dev_w end)
            (match display_size with Some (_, h) => h | None => dev_h end)) in
  let ctx := mkTurnCtx sub_idx g
               (mkScreenStamp (phy_w, phy_h) rotation (dev_w, dev_h)) in
  let* (v, t) := process_items ctx items v fresh_turn_vars in
  if finished v then
    match explicit_success v with
    | Some pass_flag =>
        log (LogSubstepFinished sub_idx pass_flag);;
        ret (mkLoopState v g (input_messages st))
    | None => ret (mkLoopState v g (input_messages st))
    end
  else
    checked (screenshot TempFile);;
    let msgs := mkMessages (base_user_context (input_messages st))
                  (if executed_any t then StateUpdated else NoActionsProduced) in
    log (LogExecutedActions sub_idx (turns_this_sub v) (actions_this_turn t));;
    ret (mkLoopState v g msgs).

(** The loop guard. *)
Definition may_continue (v : SubVars) : bool :=
  (Z.of_nat (turns_this_sub v) <? MAX_AGENT_STEPS cfg)%Z && negb (finished v).

(** The turn loop, unrolled at most [fuel] times. *)
Fixpoint while_turns (fuel : nat) (sub_idx : nat) (st : LoopState) : M LoopState :=
  match fuel with
  | O => ret st
  | S fuel =>
      if may_continue (vars st) then
        let* st := agent_turn sub_idx st in
        if finished (vars st) then ret st
        else while_turns fuel sub_idx st
      else ret st
  end.

(** The turn loop: the guard fails after [MAX_AGENT_STEPS] turns at the
    latest, so that many unrollings are all of them. *)
Definition turn_loop (sub_idx : nat) (st : LoopState) : M LoopState :=
  while_turns (Z.to_nat (MAX_AGENT_STEPS cfg - Z.of_nat (turns_this_sub (vars st))))
              sub_idx st.

Definition fresh_sub_vars : SubVars := mkSubVars false None None 0 0.

(** One pass through the body of [for sub_idx, sub in enumerate(steps_spec)],
    up to the [break]: returns [sub_ok] and the global turn index. *)
Definition run_substep (hints : list string) (sub_idx : nat) (sub : SubGoal)
    (g : nat) : M (bool * nat) :=
  checked (screenshot TempFile);;
  let* (phy_w, phy_h) := query get_device_resolution in
  let* rotation := query get_device_rotation_deg in
  let msgs := mkMessages (sub, hints) NoNote in
  let* st := turn_loop sub_idx (mkLoopState fresh_sub_vars g msgs) in
  let sub_ok := match explicit_success (vars st) with
                | Some b => b
                | None => false
                end in
  results_append (mkSubstepResult sub_idx sub sub_ok (turns_this_sub (vars st)));;
  ret (sub_ok, global_index st).

Fixpoint run_substeps (hints : list string) (sub_idx : nat)
    (steps_spec : list SubGoal) (g : nat) : M nat :=
  match steps_spec with
  | [] => ret g
  | sub :: rest =>
      let* (sub_ok, g) := run_substep hints sub_idx sub g in
      if negb sub_ok then
        log (LogAborting sub_idx);;
        ret g
      else run_substeps hints (S sub_idx) rest g
  end.

(** [steps_spec] as [run_agent] derives it from the specification: the
    [steps] array when it is a non-empty list whose first entry is a
    dictionary with a goal ([Some] of its entries), else the one sub-goal
    made of the top-level fields. *)
Definition steps_spec_of (steps_array : option (list SubGoal)) (top : SubGoal)
  : list SubGoal :=
  match steps_array with
  | Some (first :: rest) => first :: rest
  | Some [] | None => [top]
  end.

(** The [summary] dictionary, as far as the loop fills it. *)
Record Summary : Type := mkSummary {
  summary_ok : bool;
  errors : list exn;
  executed : nat;
  substeps : option (list SubstepResult)
}.

(** [all(s.get("ok") for s in substep_results) if substep_results else False] *)
Definition all_ok (results : list SubstepResult) : bool :=
  match results with
  | [] => false
  | _ :: _ => forallb ok results
  end.

(** The [try ... except Exception] block of [run_agent]. *)
Definition run_agent_loop (hints : list string) (steps_spec : list SubGoal)
    : M Summary :=
  try_except
    (log LogRecordingStarted;;
     let* g := run_substeps hints 1 steps_spec 0 in
     fun w => (Ok (mkSummary (all_ok (substep_results w)) [] g
                     (Some (substep_results w))), w))
    (fun exc =>
       log (LogException exc);;
       ret (mkSummary false [exc] 0 None)).

(** [return 0 if summary["ok"] else 1] *)
Definition exit_status (summary : Summary) : Z :=
  if summary_ok summary then 0 else 1.

End Loop.

(** The sub-goal indices of the turns a log records, in order: every turn
    starts by logging its sub-goal and turn numbers. *)
Definition turn_lines (logs : list LogLine) : list nat :=
  flat_map (fun l => match l with LogTurn i _ _ => [i] | _ => [] end) logs.

(** A computation that logs no turn and records no sub-goal result:
    everything below the turn loop is one. *)
Definition inner {A} (m : M A) : Prop :=
  forall w,
    turn_lines (step_logs (snd (m w))) = turn_lines (step_logs w)
    /\ substep_results (snd (m w)) = substep_results w.

(** What a computation returns, when it returns. *)
Definition returns {A} (P : A -> Prop) (m : M A) : Prop :=
  forall w a w', m w = (Ok a, w') -> P a.

(** [sub_ok] as [run_agent] computes it from [explicit_success]. *)
Definition sub_ok_of (v : SubVars) : bool :=
  match explicit_success v with Some b => b | None => false end.

(** The trackers agree: the sub-goal is finished exactly when success
    was signalled. *)
Definition consistent (v : SubVars) : Prop := sub_ok_of v = finished v.

(** An item changes neither the turn count nor the agreement of the
    trackers. *)
Definition kept (v v' : SubVars) : Prop :=
  turns_this_sub v' = turns_this_sub v /\ (consistent v -> consistent v').

(** A sub-goal result that reports success. *)
Definition passed (r : SubstepResult) : Prop := ok r = true.

(** The update of the repetition tracker on an action with signature
    [sig], as [process_item] makes it. *)
Definition track (sig : string) (v : SubVars) : SubVars :=
  if same_sig sig (last_sig v) then set_repeat v (S (repeat_count v))
  else set_sig v sig.



(** The world with one more log line. *)
Definition logged (l : LogLine) (w : World) : World :=
  mkWorld (calls w) (step_logs w ++ [l]) (web_events w) (substep_results w).

(** The world after a successful [end_test]: the final screenshot was
    attempted, the event carries it if it was captured. *)
Definition end_test_world `{Emulator} (ctx : TurnCtx) (reason : string)
    (w : World) : World :=
  let end_path := EndTestShot (global_turn_index ctx) in
  let shot := if command_fails (calls w) (screenshot end_path)
              then None else Some (end_path, screen ctx) in
  mkWorld (calls w ++ [screenshot end_path])
          (step_logs w ++ [LogEndTestCalled])
          (web_events w ++ [EndTestEvent (global_turn_index ctx) (sub_idx ctx)
                              true reason shot])
          (substep_results w).

(** The world [run_agent] enters its [try] block with: the device has a
    history (set-up, pre-steps); the accumulators are empty. *)
Definition initial_world (history : list Call) : World :=
  mkWorld history [] [] [].

(** The world with device calls, log lines and report events added. *)
Definition extend (w : World) (cs : list Call) (lines : list LogLine)
    (evs : list WebEvent) : World :=
  mkWorld (calls w ++ cs) (step_logs w ++ lines) (web_events w ++ evs)
          (substep_results w).

(** The sub-goal an event of the web report belongs to. *)
Definition substep_of (e : WebEvent) : nat :=
  match e with
  | ClickEvent _ substep _ _ _ _ _ _ => substep
  | EndTestEvent _ substep _ _ _ => substep
  end.

(** The event records the success of sub-goal [idx]. *)
Definition is_end_test_of (idx : nat) (e : WebEvent) : bool :=
  match e with
  | EndTestEvent _ substep success _ _ => Nat.eqb substep idx && success
  | ClickEvent _ _ _ _ _ _ _ _ => false
  end.

Definition signalled (idx : nat) (events : list WebEvent) : bool :=
  existsb (is_end_test_of idx) events.

(** The explicit success signal: an [end_test] item whose success is
    true. *)
Definition is_success_signal (item : LLMOutputItem) : bool :=
  match type item with
  | END_TEST => match success item with Some b => b | None => false end
  | REASONING | COMPUTER_ACTION => false
  end.

Definition has_signal (items : list LLMOutputItem) : bool :=
  existsb is_success_signal items.

(** The provider answers turn [n] of the run, for some request, with items
    that hold a success signal. *)
Definition answers_with_signal `{Backend} (n : nat) : Prop :=
  exists msgs width height items,
    create_turn n msgs width height = Ok items /\ has_signal items = true.

(** The provider gives no success signal in the turns after [first] up to
    [last], whatever it is sent. *)
Definition silent `{Backend} (first last : nat) : Prop :=
  forall n msgs width height items,
    (first < n <= last)%nat ->
    create_turn n msgs width height = Ok items -> has_signal items = false.

(** The actions a log announces, and the escapes among them. *)
Definition action_lines (lines : list LogLine) : nat :=
  List.length
    (filter (fun l => match l with LogAction _ => true | _ => false end) lines).

Definition escape_lines (lines : list LogLine) : nat :=
  List.length
    (filter (fun l => match l with LogRepeatedAction => true | _ => false end)
            lines).

(** The per-turn counters agree with the log of the turn so far: every
    action announced was executed or replaced by the escape. *)
Definition counted (t t' : TurnVars) (lines : list LogLine) : Prop :=
  (actions_this_turn t' + escape_lines lines
   = actions_this_turn t + action_lines lines)%nat
  /\ (executed_any t = (0 <? actions_this_turn t)%nat ->
      executed_any t' = (0 <? actions_this_turn t')%nat).

(** A computation that touches the device, logs lines other than those of
    actions and escapes, and reports clicks of sub-goal [idx]; nothing
    else. *)
Definition tame (idx : nat) {A} (m : M A) : Prop :=
  forall w, exists cs lines evs,
    snd (m w) = extend w cs lines evs
    /\ Forall (fun e => substep_of e = idx) evs
    /\ signalled idx evs = false
    /\ action_lines lines = 0%nat /\ escape_lines lines = 0%nat.

(** The note of the user message after a turn that executed [n] actions. *)
Definition note_after (n : nat) : Note :=
  if (n =? 0)%nat then NoActionsProduced else StateUpdated.




End Agent.

(** ** A concrete run-time system, device and provider

    Instances on which the model can be evaluated.  The printers cover the
    JSON subset the examples use (floats print as fractions, strings escape
    only the quote and the backslash); no theorem depends on them. *)

Module Demo.
Import Py Device Trace Agent.
Local Open Scope string_scope.

Definition show_Z (z : Z) : string := NilZero.string_of_int (Z.to_int z).

Definition read_Z (s : string) : option Z :=
  match s with
  | EmptyString => None
  | _ => option_map Z.of_int (NilZero.int_of_string s)
  end.

Definition show_float (f : pyfloat) : string :=
  match f with
  | FFin q => show_Z (Qnum q) ++ "/" ++ show_Z (Zpos (Qden q))
  | FInf false => "Infinity"
  | FInf true => "-Infinity"
  | FNan => "NaN"
  end.

Definition dquote : string := String (ascii_of_nat 34) EmptyString.

Fixpoint escape (q : ascii) (s : string) : string :=
  match s with
  | EmptyString => EmptyString
  | String c rest =>
      if Ascii.eqb c q || Ascii.eqb c "\"
      then String "\" (String c (escape q rest))
      else String c (escape q rest)
  end.

Definition quoted (json : bool) (s : string) : string :=
  if json then dquote ++ escape (ascii_of_nat 34) s ++ dquote
  else "'" ++ escape "'" s ++ "'".

Fixpoint join (sep : string) (l : list string) : string :=
  match l with
  | [] => ""
  | [x] => x
  | x :: rest => x ++ sep ++ join sep rest
  end.

Fixpoint insert_sorted (e : string * string) (l : list (string * string))
  : list (string * string) :=
  match l with
  | [] => [e]
  | e' :: rest =>
      if String.leb (fst e) (fst e') then e :: l
      else e' :: insert_sorted e rest
  end.

Definition sort_keys (l : list (string * string)) : list (string * string) :=
  fold_right insert_sorted [] l.

Fixpoint render (json : bool) (v : value) : string :=
  match v with
  | VNone => if json then "null" else "None"
  | VBool true => if json then "true" else "True"
  | VBool false => if json then "false" else "False"
  | VInt z => show_Z z
  | VFloat f => show_float f
  | VStr s => quoted json s
  | VList items => "[" ++ join ", " (map (render json) items) ++ "]"
  | VDict entries =>
      let rendered := map (fun '(k, x) => (k, render json x)) entries in
      let rendered := if json then sort_keys rendered else rendered in
      "{" ++ join ", " (map (fun '(k, x) => quoted json k ++ ": " ++ x) rendered)
          ++ "}"
  end.

#[export] Instance builtins : Builtins := {
  int_of_str := read_Z;
  float_of_str := fun s => option_map (fun z => FFin (inject_Z z)) (read_Z s);
  repr := render false;
  json_dumps_sorted := render true
}.

(** A device on which every command succeeds, in portrait at 1080x2400. *)
#[export] Instance steady_device : Emulator := {
  command_fails := fun _ _ => false;
  get_device_resolution := fun _ => (1080, 2400);
  get_device_rotation_deg := fun _ => 0;
  get_device_display_size := fun _ => None
}.

(** A device on which taps are rejected. *)
Definition tap_failing_device : Emulator := {|
  command_fails := fun _ c => match c with tap _ _ => true | _ => false end;
  get_device_resolution := fun _ => (1080, 2400);
  get_device_rotation_deg := fun _ => 0;
  get_device_display_size := fun _ => None
|}.

Definition reasoning (txt : string) : LLMOutputItem :=
  mkItem REASONING (Some txt) None None.

Definition computer_action (a : dict) : LLMOutputItem :=
  mkItem COMPUTER_ACTION None (Some (VDict a)) None.

Definition end_test (success : bool) : LLMOutputItem :=
  mkItem END_TEST None None (Some success).

Definition click_at (x y : Z) : dict :=
  [("type", VStr "click"); ("x", VInt x); ("y", VInt y)].

Definition click_100_100 : dict := click_at 100 100.

(** Claude payloads: a drag that names one point only, and a click that
    names none. *)
Definition drag_50_50 : dict :=
  [("action", VStr "left_click_drag"); ("coordinate", VList [VInt 50; VInt 50])].


(** A provider that asks for the same click on every turn. *)
Definition stuck_provider : Backend := {|
  create_turn := fun _ _ _ _ => Ok [computer_action click_100_100]
|}.

(** A provider that only ever thinks aloud. *)
Definition idle_provider : Backend := {|
  create_turn := fun _ _ _ _ => Ok [reasoning "still looking"]
|}.

(** A provider that declares success on the turns listed. *)
Definition scripted_provider (success_turns : list nat) : Backend := {|
  create_turn := fun n _ _ _ =>
    if existsb (Nat.eqb n) success_turns then Ok [end_test true]
    else Ok [reasoning "still looking"; end_test false]
|}.

(** An action of a kind the executor does not know, and a provider that
    asks for it. *)
Definition hover : dict := [("type", VStr "hover"); ("x", VInt 5); ("y", VInt 5)].

Definition hover_provider : Backend := {|
  create_turn := fun _ _ _ _ => Ok [computer_action hover]
|}.

Definition ctx0 : TurnCtx :=
  mkTurnCtx 1 1 (mkScreenStamp (1080, 2400) 0 (1080, 2400)).

Definition sub_goal (g : string) : SubGoal := mkSubGoal g "" "" "".

(** The state and the world a first sub-goal's turn loop starts from. *)
Definition first_state (sub : SubGoal) : LoopState :=
  mkLoopState fresh_sub_vars 0 (mkMessages (sub, []) NoNote).

Definition first_world : World :=
  Trace.record (screenshot TempFile) empty_world.

(** The turn loop of a sub-goal under the idle provider and the default
    budget. *)
Definition idle_loop : result LoopState * World :=
  @turn_loop builtins steady_device idle_provider default_config 1
    (first_state (sub_goal "open settings")) first_world.

Definition idle_final : LoopState :=
  match fst idle_loop with
  | Ok st => st
  | Raise _ => first_state (sub_goal "open settings")
  end.

(** One turn under the provider that asks for the unknown action. *)
Definition hover_turn : result LoopState * World :=
  @agent_turn builtins steady_device hover_provider default_config 1
    (first_state (sub_goal "open settings")) first_world.

Definition hover_final : LoopState :=
  match fst hover_turn with
  | Ok st => st
  | Raise _ => first_state (sub_goal "open settings")
  end.

End Demo.

(** ** Shapes of computations, for stating what a dispatcher does *)

Module Shape.
Import Py Device Trace.

(** The computation makes at most one device call and touches nothing
    else; when it raises anything but the device's own [RuntimeError], it
    has not touched the device at all. *)
Definition single_call {A} (m : M A) : Prop :=
  forall w,
    (exists cs,
       calls (snd (m w)) = calls w ++ cs /\ (List.length cs <= 1)%nat)
    /\ step_logs (snd (m w)) = step_logs w
    /\ web_events (snd (m w)) = web_events w
    /\ substep_results (snd (m w)) = substep_results w
    /\ (forall e, fst (m w) = Raise e -> e <> RuntimeError -> snd (m w) = w).

(** The computation returns the status "success" when it returns. *)
Definition succeeds (m : M (option string)) : Prop :=
  forall w o w', m w = (Ok o, w') -> o = Some "success"%string.

(** The computation returns "success"; or it returns an error status or no
    status, and then without having changed the world. *)
Definition reports (m : M (option string)) : Prop :=
  forall w o w',
    m w = (Ok o, w') ->
    o = Some "success"%string
    \/ (w' = w
        /\ (o = None
            \/ exists status, o = Some status /\ Actions.is_error status = true)).

(** The computation returns a status when it returns. *)
Definition has_status (m : M (option string)) : Prop :=
  forall w o w', m w = (Ok o, w') -> o <> None.

(** What a computation returns and leaves behind, when it returns. *)
Definition ends {A} (P : A -> World -> Prop) (m : M A) : Prop :=
  forall w a w', m w = (Ok a, w') -> P a w'.

End Shape.

(** ** Tables read off the dispatchers ([actions.py]) *)

Module Tables.
Local Open Scope string_scope.

(** The keys [execute_command] subscripts, per command. *)
Definition required_keys (cmd : string) : list string :=
  if String.eqb cmd "tap" then ["x"; "y"]
  else if String.eqb cmd "swipe" then ["x1"; "y1"; "x2"; "y2"]
  else if String.eqb cmd "input_text" then ["text"]
  else if String.eqb cmd "screenshot" then ["path"]
  else [].

(** The deltas of a Claude scroll, per direction, for [amount] units. *)
Definition scroll_vector (direction : string) (amount : Z) : Z * Z :=
  if String.eqb direction "down" then (0, amount * 100)%Z
  else if String.eqb direction "up" then (0, - (amount * 100))%Z
  else if String.eqb direction "right" then (amount * 100, 0)%Z
  else if String.eqb direction "left" then (- (amount * 100), 0)%Z
  else (0, 0)%Z.

(** A coordinate the Claude normalizer can unpack: nothing, or a pair. *)
Definition pair_or_nothing (v : Py.value) : bool :=
  match v with
  | Py.VList [_; _] => true
  | _ => negb (Py.truthy v)
  end.

End Tables.

(** ** The Claude provider ([llm/claude_provider.py])

    The provider keeps the conversation the Messages API needs: after a
    turn in which the model used tools, the next request answers each tool
    use with a tool result.  The messages are the JSON values the program
    builds; the content blocks of a response are the SDK's typed objects.
    The remote call is an argument of [create_turn]: given the request, it
    returns the content of the response, or nothing when the call raises. *)

Module ClaudeProvider.
Import Py Claude Agent.
Local Open Scope string_scope.
Local Open Scope list_scope.

(** The exceptions of this module: those of the normalizer, and the three
    the provider's own code can meet. *)
Inductive failure : Type :=
| Python (e : exn)
| AttributeError
| IndexError
| APIError.

Inductive outcome (A : Type) : Type :=
| Returned (a : A)
| Failed (f : failure).

Arguments Returned {A} a.
Arguments Failed {A} f.

(** A content block of a response: [block.type] is "text", "thinking" or
    "tool_use", or something else the provider passes over. *)
Inductive Block : Type :=
| text_block (text : string)
| thinking_block (thinking signature : string)
| tool_use_block (id name : string) (input : dict)
| other_block (type : string).

(** One entry of [_pending_tool_uses]: [{"id": ..., "name": ...}]. *)
Record ToolUse : Type := mkToolUse {
  tool_id : string;
  tool_name : string
}.

(** What the program takes from outside: Python's [!=] on the values it
    compares, and the SDK's [model_dump()] of a tool-use block. *)
Class Runtime : Type := {
  differs : value -> value -> bool;
  model_dump : Block -> dict
}.

(** The keyword arguments of [messages.create] that vary. *)
Record Request : Type := mkRequest {
  request_model : string;
  request_system : value;
  request_messages : list value;
  request_tools : list value;
  request_betas : list string
}.

Record Provider : Type := mkProvider {
  _model : string;
  _tool_version : string;
  _beta_flag : string;
  _system : value;
  _history : list value;
  _pending_tool_uses : list ToolUse;
  _last_user_text : value
}.

(** [needle in text] *)
Definition occurs (needle text : string) : bool :=
  match String.index 0 needle text with Some _ => true | None => false end.

Definition _resolve_versions (model : string) : string * string :=
  if occurs "opus-4-5" model || occurs "opus-4-6" model
  then ("computer_20251124", "computer-use-2025-11-24")
  else ("computer_20250124", "computer-use-2025-01-24").

(** [ClaudeProvider(model)], for a model name that is not empty. *)
Definition new_provider (model : string) : Provider :=
  let '(tool_version, beta_flag) := _resolve_versions model in
  mkProvider model tool_version beta_flag VNone [] [] VNone.

Definition format_system_message (text : string) : dict :=
  [("role", VStr "system"); ("content", VStr text)].

(** [url.split(",", 1)[1]]: what follows the first comma; nothing when
    there is no comma (an [IndexError]). *)
Fixpoint after_comma (url : string) : option string :=
  match url with
  | EmptyString => None
  | String c rest => if Ascii.eqb c "," then Some rest else after_comma rest
  end.

Definition image_block (data : value) : value :=
  VDict [("type", VStr "image");
         ("source", VDict [("type", VStr "base64");
                           ("media_type", VStr "image/png");
                           ("data", data)])].

Definition text_part (t : string) : value :=
  VDict [("type", VStr "text"); ("text", VStr t)].

Definition format_user_message (text_parts : list string)
    (screenshot_data_url : option string) : outcome dict :=
  let content := map text_part text_parts in
  match screenshot_data_url with
  | Some url =>
      if String.eqb url "" then
        Returned [("role", VStr "user"); ("content", VList content)]
      else
        match after_comma url with
        | Some b64_data =>
            Returned [("role", VStr "user");
                      ("content", VList (content ++ [image_block (VStr b64_data)]))]
        | None => Failed IndexError
        end
  | None => Returned [("role", VStr "user"); ("content", VList content)]
  end.

(** The loop of [_extract_screenshot_b64]: the data of the first image
    block whose source is of type base64. *)
Fixpoint first_image (content : list value) : outcome value :=
  match content with
  | [] => Returned VNone
  | VDict block :: rest =>
      if eq_str (get block "type") "image" then
        match get_default block "source" (VDict []) with
        | VDict source =>
            if eq_str (get source "type") "base64"
            then Returned (get source "data")
            else first_image rest
        | _ => Failed AttributeError
        end
      else first_image rest
  | _ :: rest => first_image rest
  end.

Definition _extract_screenshot_b64 (msg : dict) : outcome value :=
  match get msg "content" with
  | VList content => first_image content
  | _ => Returned VNone
  end.

(** The loop of [create_turn] that finds [user_text]: the text of the
    first text block. *)
Fixpoint first_text (content : list value) : value :=
  match content with
  | [] => VNone
  | VDict block :: rest =>
      if eq_str (get block "type") "text" then get block "text"
      else first_text rest
  | _ :: rest => first_text rest
  end.

Definition user_text_of (user_msg : dict) : value :=
  match get user_msg "content" with
  | VList content => first_text content
  | _ => VNone
  end.

Definition _build_tools (p : Provider) (display_width display_height : Z)
  : list value :=
  [VDict [("type", VStr (_tool_version p));
          ("name", VStr "computer");
          ("display_width_px", VInt display_width);
          ("display_height_px", VInt display_height)];
   VDict [("name", VStr "end_test");
          ("description",
           VStr ("Signal that the test has succeeded by calling end_test "
                 ++ "with success=true only after the goal and success criteria are satisfied.")%string);
          ("input_schema",
           VDict [("type", VStr "object");
                  ("properties",
                   VDict [("success",
                           VDict [("type", VStr "boolean");
                                  ("description", VStr "Whether the test succeeded.")])]);
                  ("required", VList [VStr "success"])])]].

Definition _make_tool_result (tool_id tool_name : string) (screenshot_b64 : value)
  : value :=
  VDict [("type", VStr "tool_result");
         ("tool_use_id", VStr tool_id);
         ("is_error", VBool false);
         ("content",
          if String.eqb tool_name "computer" && truthy screenshot_b64
          then VList [image_block screenshot_b64]
          else VList [text_part "OK"])].

Section Turn.
Context `{Builtins} `{Runtime}.

Definition _response_to_params (content : list Block) : list value :=
  flat_map (fun block =>
              match block with
              | text_block text =>
                  if String.eqb text "" then [] else [text_part text]
              | thinking_block thinking signature =>
                  [VDict [("type", VStr "thinking");
                          ("thinking", VStr thinking);
                          ("signature", VStr signature)]]
              | tool_use_block _ _ _ => [VDict (model_dump block)]
              | other_block _ => []
              end) content.

Definition _extract_tool_use_blocks (content : list Block) : list ToolUse :=
  flat_map (fun block =>
              match block with
              | tool_use_block id name _ => [mkToolUse id name]
              | _ => []
              end) content.

(** The items one block of the response gives. *)
Definition items_of_block (block : Block) : outcome (list LLMOutputItem) :=
  match block with
  | thinking_block text _ | text_block text =>
      Returned (if String.eqb text "" then []
                else [mkItem REASONING (Some text) None None])
  | tool_use_block _ name inp =>
      if String.eqb name "computer" then
        match _normalize_action inp with
        | Ok action =>
            Returned [mkItem COMPUTER_ACTION None (Some (VDict action)) None]
        | Raise e => Failed (Python e)
        end
      else if String.eqb name "end_test" then
        Returned [mkItem END_TEST None None
                    (Some (truthy (get_default inp "success" (VBool false))))]
      else Returned []
  | other_block _ => Returned []
  end.

Fixpoint _parse_response (content : list Block)
  : outcome (list LLMOutputItem) :=
  match content with
  | [] => Returned []
  | block :: rest =>
      match items_of_block block with
      | Returned first =>
          match _parse_response rest with
          | Returned others => Returned (first ++ others)
          | Failed f => Failed f
          end
      | Failed f => Failed f
      end
  end.

(** The context is reset: on the first turn, when the system text has
    changed, and when the first text of the user message has. *)
Definition resets (p : Provider) (system_text user_text : value) : bool :=
  is_none (_system p)
  || differs system_text (_system p)
  || (negb (is_none (_last_user_text p)) && negb (is_none user_text)
      && differs user_text (_last_user_text p)).

Definition tool_results (pending : list ToolUse) (screenshot_b64 : value)
  : value :=
  VDict [("role", VStr "user");
         ("content",
          VList (map (fun tu => _make_tool_result (tool_id tu) (tool_name tu)
                                  screenshot_b64) pending))].

Definition assistant_message (content : list Block) : value :=
  VDict [("role", VStr "assistant");
         ("content", VList (_response_to_params content))].

(** [create_turn], for the two messages [run_agent] passes; the raw
    response it returns beside the items is left out.  The provider's state
    is kept as it is when an exception unwinds the call. *)
Definition create_turn (client : Request -> option (list Block))
    (p : Provider) (system_msg user_msg : dict)
    (display_width display_height : Z)
  : outcome (list LLMOutputItem) * Provider :=
  match subscript system_msg "content" with
  | Raise e => (Failed (Python e), p)
  | Ok system_text =>
  match _extract_screenshot_b64 user_msg with
  | Failed f => (Failed f, p)
  | Returned screenshot_b64 =>
      let user_text := user_text_of user_msg in
      let p :=
        if resets p system_text user_text
        then mkProvider (_model p) (_tool_version p) (_beta_flag p)
               system_text [] [] (_last_user_text p)
        else p in
      let last_user_text :=
        if truthy user_text then user_text else _last_user_text p in
      let sent :=
        match _pending_tool_uses p with
        | [] => VDict user_msg
        | _ :: _ => tool_results (_pending_tool_uses p) screenshot_b64
        end in
      let history := _history p ++ [sent] in
      let tools := _build_tools p display_width display_height in
      match client (mkRequest (_model p) (_system p) history tools
                      [_beta_flag p]) with
      | None =>
          (Failed APIError,
           mkProvider (_model p) (_tool_version p) (_beta_flag p)
             (_system p) history [] last_user_text)
      | Some content =>
          let p' :=
            mkProvider (_model p) (_tool_version p) (_beta_flag p)
              (_system p) (history ++ [assistant_message content])
              (_extract_tool_use_blocks content) last_user_text in
          (_parse_response content, p')
      end
  end
  end.

End Turn.

(** *** Reading a conversation back *)

(** The tool-use ids a message of tool results answers, in order. *)
Definition answered_ids (message : value) : list value :=
  match message with
  | VDict m =>
      match get m "content" with
      | VList results =>
          map (fun r => match r with
                        | VDict r => get r "tool_use_id"
                        | _ => VNone
                        end) results
      | _ => []
      end
  | _ => []
  end.

(** A history in which every turn of the model is answered: it is empty,
    or it is such a history, followed by what was sent next and by the
    model's reply.  What is sent after a reply that used tools answers those
    tool uses, one result each, in order; [pending] is the tool uses of the
    last reply. *)
Inductive answered `{Runtime} : list value -> list ToolUse -> Prop :=
| answered_start : answered [] []
| answered_turn history pending sent content :
    answered history pending ->
    (pending <> [] ->
     answered_ids sent = map (fun tu => VStr (tool_id tu)) pending) ->
    answered (history ++ [sent; assistant_message content])
             (_extract_tool_use_blocks content).

(** The name of the tool behind an item, for the items that are tool uses. *)
Definition tool_of (item : LLMOutputItem) : option string :=
  match Agent.type item with
  | COMPUTER_ACTION => Some "computer"
  | END_TEST => Some "end_test"
  | REASONING => None
  end.

Definition tools_of (items : list LLMOutputItem) : list string :=
  flat_map (fun item => match tool_of item with Some n => [n] | None => [] end)
           items.

Definition is_known_tool (name : string) : bool :=
  String.eqb name "computer" || String.eqb name "end_test".

End ClaudeProvider.


(** ** A conversation with the Claude provider, for the examples *)

Module Conversation.
Import Py Agent ClaudeProvider.
Local Open Scope string_scope.
Local Open Scope list_scope.

(** Two values differ unless both are [None] or the same string, which is
    Python's comparison on the texts the provider compares. *)
#[export] Instance runtime : Runtime := {
  differs := fun a b =>
    match a, b with
    | VNone, VNone => false
    | VStr s, VStr t => negb (String.eqb s t)
    | _, _ => true
    end;
  model_dump := fun block =>
    match block with
    | tool_use_block id name input =>
        [("id", VStr id); ("input", VDict input); ("name", VStr name);
         ("type", VStr "tool_use")]
    | _ => []
    end
}.

Definition system_msg : dict := format_system_message "You control a screen.".

Definition user_msg (shot : string) : dict :=
  [("role", VStr "user");
   ("content", VList [text_part "Goal: open settings"; image_block (VStr shot)])].

(** The model clicks, and says why. *)
Definition click_reply : list Block :=
  [text_block "The settings icon is at the top.";
   tool_use_block "toolu_01" "computer"
     [("action", VStr "left_click"); ("coordinate", VList [VInt 7; VInt 9])]].

Definition clicking_client (request : Request) : option (list Block) :=
  Some click_reply.

Definition first_turn : outcome (list LLMOutputItem) * Provider :=
  @create_turn Demo.builtins runtime clicking_client
    (new_provider "claude-opus-4-6") system_msg (user_msg "aGVsbG8=") 1080 2400.

Definition second_turn : outcome (list LLMOutputItem) * Provider :=
  @create_turn Demo.builtins runtime clicking_client (snd first_turn)
    system_msg (user_msg "d29ybGQ=") 1080 2400.

End Conversation.


(** ** File names of the reports

    [f"{i:03d}"] and the screenshot files the two runners name after a
    step.  A path is the string it is built from. *)

Module Files.
Import Py Device.
Local Open Scope string_scope.

(** [f"{i:03d}"]: at least three digits. *)
Definition three_digits (i : nat) : string :=
  let digits := NilEmpty.string_of_uint (Nat.to_uint i) in
  String.concat "" (List.repeat "0" (3 - String.length digits)%nat) ++ digits.

(** [pre_dir / f"pre_{i:03d}_{name}.png"] *)
Definition pre_file (pre_dir : string) (i : nat) (name : string) : Path :=
  UserPath (pre_dir ++ "/pre_" ++ three_digits i ++ "_" ++ name ++ ".png").

(** [f"step_{i:03d}_{cmd_name}.png"] *)
Definition step_name `{Builtins} (i : nat) (cmd_name : value) : string :=
  "step_" ++ three_digits i ++ "_" ++ py_str cmd_name ++ ".png".

(** [screenshots_dir / f"step_{i:03d}_{cmd_name}.png"] *)
Definition step_file `{Builtins} (screenshots_dir : string) (i : nat)
    (cmd_name : value) : Path :=
  UserPath (screenshots_dir ++ "/" ++ step_name i cmd_name).

End Files.

(** ** The pre-steps of an agent run ([agent_runner.py])

    Before the agent loop, [run_agent] executes the commands of
    [pre_steps] and takes a screenshot after each; a pre-step that fails is
    reported on the console and the run goes on. *)

Module PreSteps.
Import Py Device Trace Actions Files.
Local Open Scope string_scope.
Local Open Scope py_scope.

Section Run.
Context `{Builtins} `{Emulator}.
Variable pre_dir : string.
Variable package : string.

(** The body of the loop for the [i]-th pre-step.  A pre-step that is not
    a dictionary has no [get]: the exception is caught like the others. *)
Definition pre_step (i : nat) (st : value) : M unit :=
  match st with
  | VDict st =>
      try_except
        (let cmd := get_default st "cmd" (VStr "") in
         execute_command st package;;
         if eq_str cmd "tap" && contains st "x" && contains st "y" then
           let* x := int_at st "x" in
           let* y := int_at st "y" in
           quiet (screenshot_with_marker (pre_file pre_dir i "tap") x y)
         else
           checked (screenshot (pre_file pre_dir i (py_str cmd))))
        (fun _ => ret tt)
  | _ => ret tt
  end.

(** [for i, st in enumerate(pre_steps, start=i)] *)
Fixpoint pre_steps_from (i : nat) (pre_steps : list value) : M unit :=
  match pre_steps with
  | [] => ret tt
  | st :: rest => pre_step i st;; pre_steps_from (S i) rest
  end.

Definition run_pre_steps (pre_steps : list value) : M unit :=
  pre_steps_from 1 pre_steps.

End Run.

(** The device calls a computation adds to those of [w]. *)
Definition added {A} (m : M A) (w : World) : list Call :=
  skipn (List.length (calls w)) (calls (snd (m w))).

End PreSteps.


(** ** Installing, launching and removing the app
    ([app_lifecycle.py], [android_framework.py])

    Here the device is observed through everything done to it, the package
    manager's commands included.  [adb install] succeeds, fails for lack of
    space, or fails otherwise; which, and what the other commands do, is up
    to the phone and may depend on all that was done before. *)

Module Lifecycle.
Import Py Device.
Local Open Scope string_scope.
Local Open Scope list_scope.

Record InstallConfig : Type := mkInstallConfig {
  skip_install : bool;
  uninstall_after : bool
}.

Definition parse_install_config (spec : dict) : InstallConfig :=
  let skip_install :=
    truthy (or_else (get_default spec "skip_install" (VBool false))
                    (get_default spec "skip_stall" (VBool false))) in
  let uninstall_after :=
    truthy (get_default spec "uninstall_after" (VBool (negb skip_install))) in
  let uninstall_after :=
    if truthy (get_default spec "skip_stall" (VBool false)) then false
    else uninstall_after in
  mkInstallConfig skip_install uninstall_after.

Inductive Op : Type :=
| pm_list_packages (package : string)      (* [is_package_installed] *)
| adb_uninstall (package : string)
| adb_install (apk_path : option string)   (* [install -r -t str(apk_path)] *)
| restart_emulator (wipe_data : bool) (partition_size_mb : option Z)
| ensure_emulator_ready
| device (c : Call).

(** A [RuntimeError], or the [TimeoutError] of a boot that takes too long. *)
Inductive Fault : Type :=
| CommandFailed
| TimedOut.

(** Exit code 0; a failure whose output names one of the three low-space
    indicators; any other failure. *)
Inductive InstallAnswer : Type :=
| Installed
| LowSpace
| Refused.

Class Phone : Type := {
  (** the SDK tools are found and the devices can be listed *)
  connects : bool;
  (** [pm list packages] shows a line for the package *)
  lists_package : list Op -> string -> bool;
  install_answer : list Op -> option string -> InstallAnswer;
  (** starting or restarting the emulator raises *)
  start_fault : list Op -> Op -> option Fault;
  (** the command behind an input call exits non-zero *)
  call_fails : list Op -> Call -> bool;
  (** the environment's [EMULATOR_PARTITION_SIZE_MB] *)
  partition_env : option string
}.

Inductive outcome (A : Type) : Type :=
| Done (a : A)
| Fails (f : Fault).

Arguments Done {A} a.
Arguments Fails {A} f.

(** Computations on the history of the phone. *)
Definition Ops (A : Type) : Type := list Op -> outcome A * list Op.

Section Phone.
Context `{Builtins} `{Phone}.

(** The partition size [install_apk] asks for when it restarts the
    emulator: the environment's, 2047 without one, clamped to 10..2047. *)
Definition partition_size_mb (part_env : option string) : Z :=
  let size :=
    match part_env with
    | Some text =>
        if String.eqb text "" then 2047
        else match py_int (VStr text) with
             | Ok size => size
             | Raise _ => 2047
             end
    | None => 2047
    end in
  let size := if (size <? 10)%Z then 10 else size in
  if (size >? 2047)%Z then 2047 else size.

Definition install_apk (apk_path : option string) : Ops unit :=
  fun ops =>
    match install_answer ops apk_path with
    | Installed => (Done tt, ops ++ [adb_install apk_path])
    | Refused => (Fails CommandFailed, ops ++ [adb_install apk_path])
    | LowSpace =>
        let ops := ops ++ [adb_install apk_path] in
        let restart :=
          restart_emulator true (Some (partition_size_mb partition_env)) in
        match start_fault ops restart with
        | Some f => (Fails f, ops ++ [restart])
        | None =>
            let ops := ops ++ [restart] in
            match install_answer ops apk_path with
            | Installed => (Done tt, ops ++ [adb_install apk_path])
            | _ => (Fails CommandFailed, ops ++ [adb_install apk_path])
            end
        end
    end.

(** [is_package_installed] and [uninstall] do not check the exit code of
    their command: they do not raise. *)
Definition is_package_installed (package : string) (ops : list Op)
  : bool * list Op :=
  (lists_package ops package, ops ++ [pm_list_packages package]).

Definition uninstall (package : string) (ops : list Op) : list Op :=
  ops ++ [adb_uninstall package].

(** An input call, which raises when its command fails. *)
Definition call (c : Call) : Ops unit :=
  fun ops =>
    (if call_fails ops c then Fails CommandFailed else Done tt,
     ops ++ [device c]).

Definition prepare_app (package : string) (apk : option string)
    (activity : value) (config : InstallConfig) : Ops unit :=
  fun ops =>
    let '(installed, ops) := is_package_installed package ops in
    let '(ready, ops) :=
      if skip_install config then
        if installed then (Done tt, ops) else (Fails CommandFailed, ops)
      else
        install_apk apk (if installed then uninstall package ops else ops) in
    match ready with
    | Fails f => (Fails f, ops)
    | Done _ =>
        let '(_, ops) := call (stop_app package) ops in
        if truthy activity || negb (String.eqb package "")
        then call (launch_app package activity) ops
        else (Done tt, ops)
    end.

Definition teardown_app (package : string) (uninstall_after : bool)
    (ops : list Op) : list Op :=
  if uninstall_after then uninstall package ops else ops.

(** The emulator as the input commands see it, after [before]. *)
Definition emulator_after (before : list Op) : Emulator := {|
  command_fails := fun cs c => call_fails (before ++ map device cs) c;
  get_device_resolution := fun _ => (1080, 2400);
  get_device_rotation_deg := fun _ => 0;
  get_device_display_size := fun _ => None
|}.

End Phone.

(** The package manager's commands in a history. *)
Definition is_install (op : Op) : bool :=
  match op with adb_install _ => true | _ => false end.

Definition is_uninstall (op : Op) : bool :=
  match op with adb_uninstall _ => true | _ => false end.

Definition is_restart (op : Op) : bool :=
  match op with restart_emulator _ _ => true | _ => false end.

End Lifecycle.


(** ** The deterministic test runner ([test_runner.py])

    [main] prepares the app, executes the steps of the test in order with
    a screenshot after each, and stops at the first step that raises; then
    it waits, tears the app down and reports. *)

Module Runner.
Import Py Device Trace Actions Files Lifecycle.
Local Open Scope string_scope.
Local Open Scope list_scope.
Local Open Scope py_scope.

(** What the [except] clause of [main] can catch. *)
Inductive Cause : Type :=
| Setup (f : Fault)
| Command (e : exn)
| NotADict.            (* a step without [get]: an [AttributeError] *)

(** The fields of [summary] that the run sets; [steps] is the list of
    events.  The dictionary is updated in place: what was set before an
    exception is kept. *)
Record Summary : Type := mkSummary {
  ok : bool;
  errors : list Cause;
  executed : nat;
  steps : list value
}.

Definition new_summary : Summary := mkSummary false [] 0 [].

(** The keys an event copies from its step. *)
Definition copied_keys : list string :=
  ["x"; "y"; "x1"; "y1"; "x2"; "y2"; "duration_ms"; "seconds"; "text"].

Section Steps.
Context `{Builtins} `{Emulator}.
Variable screenshots_dir : string.
Variable package : string.

(** The automatic screenshot after step [i] and the event it leaves; no
    event when the [try] block raises.  ([auto_path.name] is the name just
    formatted.) *)
Definition auto_screenshot (i : nat) (step : dict) (w : World)
  : list value * World :=
  let cmd_name := get_default step "cmd" (VStr "step") in
  let auto_path := step_file screenshots_dir i cmd_name in
  let image := VStr ("screenshots/" ++ step_name i cmd_name) in
  let attempt : M value :=
    if eq_str cmd_name "tap" then
      let* x := int_at step "x" in
      let* y := int_at step "y" in
      quiet (screenshot_with_marker auto_path x y);;
      ret (VDict [("index", VInt (Z.of_nat i)); ("cmd", cmd_name);
                  ("x", VInt x); ("y", VInt y); ("image", image)])
    else
      checked (screenshot auto_path);;
      ret (VDict ([("index", VInt (Z.of_nat i)); ("cmd", cmd_name);
                   ("image", image)]
                  ++ flat_map (fun k => match lookup step k with
                                        | Some v => [(k, v)]
                                        | None => []
                                        end) copied_keys)) in
  match attempt w with
  | (Ok evt, w) => ([evt], w)
  | (Raise _, w) => ([], w)
  end.

(** [for i, step in enumerate(steps, start=i)]: the exception that ended
    the loop, if any, and the summary as the loop leaves it. *)
Fixpoint run_steps (i : nat) (test_steps : list value) (summary : Summary)
    (w : World) : option Cause * Summary * World :=
  match test_steps with
  | [] => (None, summary, w)
  | VDict step :: rest =>
      match execute_command step package w with
      | (Raise e, w) => (Some (Command e), summary, w)
      | (Ok _, w) =>
          let '(evt, w) := auto_screenshot i step w in
          run_steps (S i) rest
            (mkSummary (ok summary) (errors summary) i (steps summary ++ evt)) w
      end
  | _ :: _ => (Some NotADict, summary, w)
  end.

End Steps.

(** How [main] ends: an exception leaves it, or it returns an exit code,
    with the summary it printed unless it returned early. *)
Inductive Run : Type :=
| Crashed
| Exited (code : Z) (summary : option Summary) (ops : list Op).

(** [list(v)], for the values a JSON document holds; a string gives its
    characters, one per byte here. *)
Definition py_list (v : value) : result (list value) :=
  match v with
  | VList items => Ok items
  | VDict entries => Ok (map (fun '(k, _) => VStr k) entries)
  | VStr s => Ok (map (fun c => VStr (String c EmptyString)) (list_ascii_of_string s))
  | VNone | VBool _ | VInt _ | VFloat _ => Raise TypeError
  end.

Section Main.
Context `{Builtins} `{Phone}.
Variable screenshots_dir : string.

(** The [try] block of [main] past the connection, and its [except]
    clause: the summary and the history of the phone. *)
Definition try_block (package : string) (apk : option string) (activity : value)
    (config : InstallConfig) (test_steps : list value) : Summary * list Op :=
  let ops := [ensure_emulator_ready] in
  match start_fault [] ensure_emulator_ready with
  | Some f => (mkSummary false [Setup f] 0 [], ops)
  | None =>
      match prepare_app package apk activity config ops with
      | (Fails f, ops) => (mkSummary false [Setup f] 0 [], ops)
      | (Done _, ops) =>
          let '(cause, summary, w) :=
            @run_steps _ (emulator_after ops) screenshots_dir package 1
              test_steps new_summary empty_world in
          let ops := ops ++ map device (calls w) in
          match cause with
          | None =>
              (mkSummary true (errors summary) (executed summary)
                 (steps summary), ops)
          | Some cause =>
              (mkSummary false (errors summary ++ [cause]) (executed summary)
                 (steps summary), ops)
          end
      end
  end.

(** [main], from the loaded test on. *)
Definition main (spec : dict) : Run :=
  match subscript spec "package" with
  | Raise _ => Crashed
  | Ok package =>
      let package := py_str package in
      let activity := get spec "activity" in
      match py_list (get_default spec "steps" (VList [])) with
      | Raise _ => Crashed
      | Ok test_steps =>
          let install_config := parse_install_config spec in
          let apk_spec := get spec "apk" in
          if negb (skip_install install_config) && negb (truthy apk_spec)
          then Exited 2 None []
          else
            match (if truthy apk_spec
                   then match apk_spec with
                        | VStr p => Ok (Some p)
                        | _ => Raise TypeError
                        end
                   else Ok None) with
            | Raise _ => Crashed
            | Ok apk_path =>
                (* when [connect] raises, [device] is unbound at the teardown *)
                if negb connects then Crashed
                else
                  let '(summary, ops) :=
                    try_block package apk_path activity install_config test_steps in
                  let ops := ops ++ [device (time_sleep (FFin (inject_Z 5)))] in
                  let ops :=
                    teardown_app package (uninstall_after install_config) ops in
                  Exited (if ok summary then 0 else 1) (Some summary) ops
            end
      end
  end.

End Main.

(** What a run that returned left behind. *)
Definition exit_code (run : Run) : Z :=
  match run with Exited code _ _ => code | Crashed => 1 end.

Definition summary_of (run : Run) : option Summary :=
  match run with Exited _ summary _ => summary | Crashed => None end.

Definition history_of (run : Run) : list Op :=
  match run with Exited _ _ ops => ops | Crashed => [] end.

(** The number of the [k]-th step, as an event carries it. *)
Definition step_index (k : nat) : value := VInt (Z.of_nat k).

(** The index an event carries. *)
Definition event_index (evt : value) : value :=
  match evt with VDict e => get e "index" | _ => VNone end.

(** The input calls in a history, in order. *)
Definition input_calls (ops : list Op) : list Call :=
  flat_map (fun op => match op with device c => [c] | _ => [] end) ops.

End Runner.


(** ** Computations that only talk to the device *)

Module Effects.
Import Py Device Trace.

Definition with_calls (cs : list Call) (w : World) : World :=
  mkWorld (calls w ++ cs) (step_logs w) (web_events w) (substep_results w).

(** The computation adds device calls, each of them satisfying [P], and
    changes nothing else. *)
Definition adds_calls (P : Call -> Prop) {A} (m : M A) : Prop :=
  forall w, exists cs, snd (m w) = with_calls cs w /\ Forall P cs.

Definition is_marked (c : Call) : bool :=
  match c with screenshot_with_marker _ _ _ => true | _ => false end.

End Effects.


(** ** Phones and tests, for the examples *)

Module Samples.
Import Py Device Trace Lifecycle Runner.
Local Open Scope string_scope.
Local Open Scope list_scope.

(** A phone on which everything works and the app is not yet installed. *)
#[export] Instance fresh_phone : Phone := {
  connects := true;
  lists_package := fun ops package => existsb is_install ops;
  install_answer := fun _ _ => Installed;
  start_fault := fun _ _ => None;
  call_fails := fun _ _ => false;
  partition_env := None
}.

(** A phone that is short of space until its data is wiped, with a
    partition size in the environment that is out of range. *)
Definition full_phone : Phone := {|
  connects := true;
  lists_package := fun _ _ => false;
  install_answer := fun ops _ =>
    if existsb is_restart ops then Installed else LowSpace;
  start_fault := fun _ _ => None;
  call_fails := fun _ _ => false;
  partition_env := Some "4096"
|}.

(** A phone whose screen does not react to taps. *)
Definition numb_phone : Phone := {|
  connects := true;
  lists_package := fun _ _ => true;
  install_answer := fun _ _ => Installed;
  start_fault := fun _ _ => None;
  call_fails := fun _ c => match c with tap _ _ => true | _ => false end;
  partition_env := None
|}.

Definition tap_step : value :=
  VDict [("cmd", VStr "tap"); ("x", VInt 540); ("y", VInt 960)].

Definition wait_step : value :=
  VDict [("cmd", VStr "wait"); ("seconds", VInt 2)].

Definition type_step : value :=
  VDict [("cmd", VStr "input_text"); ("text", VStr "hello world")].

Definition test_spec : dict :=
  [("apk", VStr "apk/app-debug.apk");
   ("package", VStr "com.example.app");
   ("activity", VStr ".MainActivity");
   ("steps", VList [wait_step; tap_step; type_step])].

(** The same test on an app that is already on the device. *)
Definition installed_spec : dict :=
  ("skip_stall", VBool true) :: ("uninstall_after", VBool true) :: test_spec.

Definition screenshots_dir : string :=
  "reports/20240101_120000_com.example.app/screenshots".

(** The three steps on a device that takes them, and on one that rejects
    the tap. *)
Definition smooth_steps : option Cause * Summary * World :=
  @run_steps Demo.builtins Demo.steady_device screenshots_dir
    "com.example.app" 1 [wait_step; tap_step; type_step] new_summary
    empty_world.

Definition numb_steps : option Cause * Summary * World :=
  @run_steps Demo.builtins Demo.tap_failing_device screenshots_dir
    "com.example.app" 1 [wait_step; tap_step; type_step] new_summary
    empty_world.

(** The whole test on a fresh phone. *)
Definition fresh_run : Run :=
  @main Demo.builtins fresh_phone screenshots_dir test_spec.

Definition fresh_summary : Summary :=
  match summary_of fresh_run with Some summary => summary | None => new_summary end.

(** The test on the installed app, where taps are rejected. *)
Definition numb_run : Run :=
  @main Demo.builtins numb_phone screenshots_dir installed_spec.

End Samples.


(** * Properties *)

(** ** Screen geometry *)

Module ScreenFacts.
Import Screen.

(** C9. The canvas dimensions are a function of the physical width, the
    physical height and the rotation: the [ScreenInfo] properties and the
    computation [run_agent] repeats on every turn give the same pair; at 90
    and 270 degrees the pair is (physical_height, physical_width), at 0 and
    180 degrees it is (physical_width, physical_height). *)
Theorem canvas_by_rotation (w h r : Z) :
  (canvas_width (mkScreenInfo w h r), canvas_height (mkScreenInfo w h r))
    = canvas_dims w h r
  /\ canvas_dims w h 0 = (w, h)
  /\ canvas_dims w h 180 = (w, h)
  /\ canvas_dims w h 90 = (h, w)
  /\ canvas_dims w h 270 = (h, w).
Proof.
  unfold canvas_width, canvas_height, canvas_dims; simpl.
  destruct (rotated r); repeat split.
Qed.

End ScreenFacts.

(** ** Text sanitizer *)

Module SanitizeFacts.
Import Sanitize.

Lemma space_unsafe : in_safe_class (cp " ") = false.
Proof. reflexivity. Qed.

Lemma percent_safe : in_safe_class (cp "%") = true.
Proof. reflexivity. Qed.

Lemma s_safe : in_safe_class (cp "s") = true.
Proof. reflexivity. Qed.

Lemma underscore_safe : in_safe_class (cp "_") = true.
Proof. reflexivity. Qed.

Lemma encode_char_safe c : forallb in_safe_class (encode_char c) = true.
Proof.
  unfold encode_char.
  destruct (c =? cp " ")%N; [reflexivity|].
  destruct (in_safe_class c) eqn:E; simpl; [rewrite E|]; reflexivity.
Qed.

(** The two passes amount to one pass that encodes each character. *)
Lemma sanitize_per_char text :
  _sanitize_text_for_adb_input text = flat_map encode_char text.
Proof.
  unfold _sanitize_text_for_adb_input, sub_unsafe.
  induction text as [|c rest IH]; [reflexivity|].
  cbn [replace_spaces flat_map]. unfold encode_char.
  destruct (c =? cp " ")%N; cbn [map app].
  - rewrite percent_safe, s_safe, IH. reflexivity.
  - rewrite IH. destruct (in_safe_class c); reflexivity.
Qed.

Lemma sanitize_all_safe text :
  forallb in_safe_class (_sanitize_text_for_adb_input text) = true.
Proof.
  rewrite sanitize_per_char.
  induction text as [|c rest IH]; [reflexivity|].
  cbn [flat_map]. rewrite forallb_app, encode_char_safe, IH. reflexivity.
Qed.

Lemma sanitize_safe_text text :
  forallb in_safe_class text = true ->
  _sanitize_text_for_adb_input text = text.
Proof.
  rewrite sanitize_per_char.
  induction text as [|c rest IH]; [reflexivity|].
  cbn [flat_map forallb]. intros Hs. apply andb_prop in Hs as [Hc Hrest].
  rewrite (IH Hrest). unfold encode_char.
  destruct (N.eqb_spec c (cp " ")) as [->|_].
  - rewrite space_unsafe in Hc. discriminate.
  - rewrite Hc. reflexivity.
Qed.

(** C8. The sanitizer turns every space of the text into the two
    characters of the escape token, keeps every character of the allow-list
    and puts an underscore for every other character.  Its output, which is
    what [input_text] hands to the device, holds allow-list characters only;
    the text comes out unchanged exactly when it held no character outside
    the allow-list. *)
Theorem sanitized_text_is_safe (text : pystr) :
  _sanitize_text_for_adb_input text = flat_map encode_char text
  /\ forallb in_safe_class (_sanitize_text_for_adb_input text) = true
  /\ (if forallb in_safe_class text
      then _sanitize_text_for_adb_input text = text
      else _sanitize_text_for_adb_input text <> text)
  /\ input_text_argv text
       = [of_string "shell"; of_string "input"; of_string "text";
          flat_map encode_char text].
Proof.
  split; [apply sanitize_per_char|].
  split; [apply sanitize_all_safe|].
  split.
  - destruct (forallb in_safe_class text) eqn:E.
    + apply sanitize_safe_text, E.
    + intros Heq. pose proof (sanitize_all_safe text) as Hs.
      rewrite Heq in Hs. congruence.
  - unfold input_text_argv. rewrite sanitize_per_char. reflexivity.
Qed.

(** "hello world" is sent as "hello%sworld". *)
Example sanitize_hello_world :
  _sanitize_text_for_adb_input (of_string "hello world")
    = of_string "hello%sworld".
Proof. reflexivity. Qed.

(** Shell metacharacters and a non-ASCII letter (U+00E9) become
    underscores. *)
Example sanitize_unsafe_text :
  _sanitize_text_for_adb_input (of_string "a;b$(c)" ++ [233%N])
    = of_string "a_b__c__".
Proof. reflexivity. Qed.

End SanitizeFacts.

(** ** Command dispatch *)

Module ActionsFacts.
Import Py Device Trace Actions Demo.
Local Open Scope string_scope.

Lemma known_ret {A} (a : A) : known (ret a).
Proof. intros w shown. discriminate. Qed.

Lemma known_bind {A B} (m : M A) (k : A -> M B) :
  known m -> (forall a, known (k a)) -> known (bind m k).
Proof.
  intros Hm Hk w shown. unfold bind.
  specialize (Hm w shown).
  destruct (m w) as [[a|e] w'] eqn:E; simpl in *.
  - apply Hk.
  - intros Heq. apply Hm. inversion Heq. reflexivity.
Qed.

Lemma known_quiet c : known (quiet c).
Proof. intros w shown. discriminate. Qed.

Lemma known_checked `{Emulator} c : known (checked c).
Proof.
  intros w shown. unfold checked.
  destruct (command_fails (calls w) c); discriminate.
Qed.

Lemma known_py_int `{Builtins} v : known (lift (py_int v)).
Proof.
  intros w shown. unfold lift, py_int. simpl.
  destruct v as [ |b|z|[q|n| ]|s|l|d]; try discriminate.
  destruct (int_of_str s); discriminate.
Qed.

Lemma known_py_float `{Builtins} v : known (lift (py_float v)).
Proof.
  intros w shown. unfold lift, py_float. simpl.
  destruct v as [ |b|z|f|s|l|d]; try discriminate.
  destruct (float_of_str s); discriminate.
Qed.

Lemma known_subscript d k : known (lift (subscript d k)).
Proof.
  intros w shown. unfold lift, subscript. simpl.
  destruct (lookup d k); discriminate.
Qed.

Lemma known_to_path v : known (lift (to_path v)).
Proof. intros w shown. destruct v; discriminate. Qed.

Lemma known_device_wait f : known (device_wait f).
Proof.
  apply known_bind; [|intros; apply known_quiet].
  intros w shown. unfold lift, sleep_check. simpl.
  destruct f as [q|[|]|]; try discriminate.
  destruct (Qle_bool 0 q); discriminate.
Qed.

Lemma known_int_at `{Builtins} d k : known (int_at d k).
Proof.
  apply known_bind; [apply known_subscript|intros; apply known_py_int].
Qed.

Create HintDb known.

#[local] Hint Resolve known_ret known_quiet known_checked known_py_int
  known_py_float known_subscript known_to_path known_device_wait
  known_int_at : known.

Ltac known_steps :=
  repeat first
    [ apply known_bind; [solve [auto with known]|intro]
    | solve [auto with known] ].

Section Dispatch.
Context `{Builtins} `{Emulator}.

Lemma eq_str_in_strs v l s :
  in_strs v l = false -> In s l -> eq_str v s = false.
Proof.
  unfold in_strs. intros Hn Hin.
  destruct (eq_str v s) eqn:E; [|reflexivity].
  rewrite <- Hn. symmetry. apply existsb_exists. eauto.
Qed.

(** A command that is not recognized: nothing is done, the error is
    raised. *)
Lemma execute_command_unknown step package w :
  truthy (get step "cmd") = true ->
  in_strs (get step "cmd") recognized_commands = false ->
  execute_command step package w
    = (Raise (UnknownCommand (py_str (get step "cmd"))), w).
Proof.
  intros Ht Hn. unfold execute_command. rewrite Ht. simpl negb. cbv iota.
  repeat (rewrite (eq_str_in_strs _ _ _ Hn);
          [|unfold recognized_commands; simpl; tauto]).
  reflexivity.
Qed.

(** The unknown-command error comes from nowhere else. *)
Lemma execute_command_raises_unknown step package w shown :
  fst (execute_command step package w) = Raise (UnknownCommand shown) ->
  truthy (get step "cmd") = true
  /\ in_strs (get step "cmd") recognized_commands = false
  /\ shown = py_str (get step "cmd")
  /\ snd (execute_command step package w) = w.
Proof.
  unfold execute_command.
  destruct (truthy (get step "cmd")) eqn:Ht; simpl negb; cbv iota;
    [|discriminate].
  unfold in_strs, recognized_commands; cbn [existsb].
  repeat match goal with
         | |- context [if ?b then _ else _] => destruct b eqn:?
         end;
    try match goal with
        | |- fst (?m w) = _ -> _ =>
            let Hr := fresh "Hr" in
            let K := fresh "K" in
            intros Hr; exfalso;
            assert (K : known m) by known_steps;
            exact (K _ _ Hr)
        end.
  simpl. intros Hr. inversion Hr. auto.
Qed.

Lemma lookup_get_falsy step :
  lookup step "cmd" = None \/ lookup step "cmd" = Some VNone
  \/ lookup step "cmd" = Some (VStr "") ->
  truthy (get step "cmd") = false.
Proof.
  unfold get, get_default. intros [-> | [-> | ->]]; reflexivity.
Qed.

(** C10. A command dictionary whose [cmd] is absent, [None] or the empty
    string makes [execute_command] return at once: no device operation, no
    exception.  The unknown-command error is raised only for a [cmd] that is
    present, neither [None] nor empty, and not one of the recognized
    commands; and every non-empty string that is not a recognized command
    raises it, before anything is done to the device. *)
Theorem execute_command_cmd_guard (step : dict) (package : string) (w : World) :
  (lookup step "cmd" = None \/ lookup step "cmd" = Some VNone
   \/ lookup step "cmd" = Some (VStr "") ->
   execute_command step package w = (Ok tt, w))
  /\ (forall shown,
        fst (execute_command step package w) = Raise (UnknownCommand shown) ->
        exists cmd,
          lookup step "cmd" = Some cmd /\ cmd <> VNone /\ cmd <> VStr ""
          /\ in_strs cmd recognized_commands = false)
  /\ (forall c,
        lookup step "cmd" = Some (VStr c) -> c <> "" ->
        in_strs (VStr c) recognized_commands = false ->
        execute_command step package w = (Raise (UnknownCommand c), w)).
Proof.
  split; [|split].
  - intros Hcmd. apply lookup_get_falsy in Hcmd.
    unfold execute_command. rewrite Hcmd. reflexivity.
  - intros shown Hr.
    apply execute_command_raises_unknown in Hr as (Ht & Hn & _ & _).
    unfold get, get_default in Ht, Hn.
    destruct (lookup step "cmd") as [cmd|]; [|discriminate].
    exists cmd. repeat split; auto; intros ->; discriminate.
  - intros c Hl Hc Hn.
    assert (Hg : get step "cmd" = VStr c)
      by (unfold get, get_default; rewrite Hl; reflexivity).
    rewrite execute_command_unknown; rewrite Hg; auto.
    simpl. destruct (String.eqb_spec c ""); [contradiction|reflexivity].
Qed.

(** An action of no recognized kind falls through every branch. *)
Lemma map_computer_action_unrecognized action w :
  in_strs (get action "type") recognized_kinds = false ->
  map_computer_action action w = (Ok None, w).
Proof.
  intros Hn. unfold map_computer_action.
  repeat (rewrite (eq_str_in_strs _ _ _ Hn);
          [|unfold recognized_kinds; simpl; tauto]).
  reflexivity.
Qed.

Lemma none_fallback a b :
  is_none (if is_none a then b else a) = is_none a && is_none b.
Proof. destruct a; reflexivity. Qed.

(** With no end point from [x2]/[y2] or the path, one of the four drag
    coordinates is still [None] after the path fallback. *)
Lemma drag_from_path_unresolved action x y x2 y2 :
  is_none x2 || is_none y2 = true ->
  path_gives_end (get action "path") = false ->
  let '(x', y', x2', y2') := drag_from_path action x y x2 y2 in
  is_none x' || is_none y' || is_none x2' || is_none y2' = true.
Proof.
  intros Hm Hp. unfold drag_from_path, path_gives_end in *.
  assert (Hkeep : is_none x || is_none y || is_none x2 || is_none y2 = true).
  { rewrite <- !orb_assoc. rewrite Hm. rewrite !orb_true_r. reflexivity. }
  destruct (get action "path") as [ | | | | |[|start [|second rest]]|];
    try exact Hkeep.
  destruct start as [ | | | | | |start]; try exact Hkeep.
  destruct (last (VDict start :: second :: rest) VNone)
    as [ | | | | | |end_]; try (rewrite <- !orb_assoc, Hm, !orb_true_r; reflexivity).
  rewrite <- !orb_assoc.
  destruct (is_none (get end_ "x")), (is_none (get end_ "y"));
    simpl in Hp; try discriminate; rewrite ?orb_true_r; reflexivity.
Qed.

(** C7, as the code has it.  A click, double click, drag, scroll or key
    action that lacks a field its kind requires never reaches the device.
    A click, a double click and a key press return a status string that
    reports the error.  A drag and a scroll first convert their duration,
    [int(action.get("duration_ms", 300))]: when that conversion succeeds,
    which it does when the action names no duration, they return the error
    status too; when it raises, the action raises that exception, the
    missing fields not having been looked at yet. *)
Theorem map_computer_action_missing_fields (action : dict) (w : World) :
  lacks_required action = true ->
  match converted_duration action with
  | Ok _ =>
      exists status,
        map_computer_action action w = (Ok (Some status), w)
        /\ is_error status = true
  | Raise e => map_computer_action action w = (Raise e, w)
  end.
Proof.
  intros Hl. unfold lacks_required, in_strs in Hl. cbn [existsb] in Hl.
  unfold converted_duration, in_strs. cbn [existsb].
  unfold map_computer_action.
  destruct (eq_str (get action "type") "click") eqn:Eclick.
  { assert (Hk : eq_str (get action "type") "drag" = false
                 /\ eq_str (get action "type") "scroll" = false).
    { destruct (get action "type"); try discriminate.
      apply String.eqb_eq in Eclick. subst. split; reflexivity. }
    destruct Hk as [-> ->]. simpl in Hl |- *. rewrite Hl.
    eexists; split; reflexivity. }
  destruct (eq_str (get action "type") "double_click") eqn:Edouble.
  { assert (Hk : eq_str (get action "type") "drag" = false
                 /\ eq_str (get action "type") "scroll" = false).
    { destruct (get action "type"); try discriminate.
      apply String.eqb_eq in Edouble. subst. split; reflexivity. }
    destruct Hk as [-> ->]. simpl in Hl |- *. rewrite Hl.
    eexists; split; reflexivity. }
  simpl in Hl.
  destruct (eq_str (get action "type") "drag") eqn:Edrag.
  { apply andb_prop in Hl as [Hm Hp]. apply negb_true_iff in Hp.
    cbn [orb]. unfold bind at 1 2, lift at 1 2.
    destruct (py_int (get_default action "duration_ms" (VInt 300)))
      as [d|e]; [|reflexivity].
    rewrite Hm.
    pose proof (drag_from_path_unresolved action (get action "x")
                  (get action "y") (get action "x2") (get action "y2") Hm Hp)
      as Hnone.
    destruct (drag_from_path action (get action "x") (get action "y")
                (get action "x2") (get action "y2")) as [[[x' y'] x2'] y2'].
    rewrite Hnone. eexists; split; reflexivity. }
  destruct (eq_str (get action "type") "scroll") eqn:Escroll.
  { cbn [orb]. unfold bind at 1 2, lift at 1 2.
    destruct (py_int (get_default action "duration_ms" (VInt 300)))
      as [d|e]; [|reflexivity].
    match goal with
    | |- context [if ?b then ret (Some "error: missing scroll parameters") else _] =>
        replace b with true
    end.
    - eexists; split; reflexivity.
    - symmetry. rewrite !none_fallback.
      destruct (is_none (get action "x")), (is_none (get action "y")),
        (is_none (get action "dx")), (is_none (get action "dy")),
        (is_none (get action "scroll_x")), (is_none (get action "scroll_y"));
        simpl in *; try reflexivity; try discriminate. }
  destruct (eq_str (get action "type") "type") eqn:Etype.
  { destruct (get action "type"); try discriminate.
    apply String.eqb_eq in Etype. subst. discriminate. }
  destruct (eq_str (get action "type") "key") eqn:Ekey; [|discriminate].
  apply andb_prop in Hl as [Hk Hc]. apply negb_true_iff in Hk, Hc.
  unfold or_else. rewrite Hk, Hc. simpl.
  eexists; split; reflexivity.
Qed.

End Dispatch.

(** At concrete inputs: no [cmd] at all, and a command nobody knows. *)
Lemma execute_command_cmd_guard_witness :
  execute_command [("seconds", VInt 2)] "com.example.app" empty_world
    = (Ok tt, empty_world)
  /\ (exists cmd,
        lookup [("cmd", VStr "fly")] "cmd" = Some cmd /\ cmd <> VNone
        /\ cmd <> VStr "" /\ in_strs cmd recognized_commands = false)
  /\ execute_command [("cmd", VStr "fly")] "com.example.app" empty_world
       = (Raise (UnknownCommand "fly"), empty_world).
Proof.
  split; [|split].
  - apply (execute_command_cmd_guard [("seconds", VInt 2)]).
    left. reflexivity.
  - apply (execute_command_cmd_guard [("cmd", VStr "fly")]
             "com.example.app" empty_world) with (shown := "fly").
    reflexivity.
  - apply (execute_command_cmd_guard [("cmd", VStr "fly")]).
    + reflexivity.
    + discriminate.
    + reflexivity.
Defined.

(** C7, as the specification states it, fails: a drag that names no
    coordinate at all and carries a null [duration_ms] lacks its required
    fields, and [map_computer_action] raises on it instead of returning an
    error string; the duration is converted before the coordinates are
    looked at. *)
Lemma missing_fields_can_raise :
  let action := [("type", VStr "drag"); ("duration_ms", VNone)] in
  in_strs (get action "type") ["click"; "double_click"; "drag"; "scroll"; "key"]
    = true
  /\ lacks_required action = true
  /\ map_computer_action action empty_world = (Raise TypeError, empty_world)
  /\ ~ (exists status,
          fst (map_computer_action action empty_world) = Ok (Some status)).
Proof.
  cbv zeta. split; [reflexivity|]. split; [reflexivity|].
  split; [reflexivity|]. intros [status Hs]. discriminate Hs.
Qed.

(** At concrete inputs: a drag that names only its start point, with no
    duration and with one given as text; and the same drag with a null
    duration. *)
Lemma map_computer_action_missing_fields_witness :
  (exists status,
     map_computer_action
       [("type", VStr "drag"); ("x", VInt 10); ("y", VInt 20)] empty_world
       = (Ok (Some status), empty_world)
     /\ is_error status = true)
  /\ (exists status,
        map_computer_action
          [("type", VStr "drag"); ("x", VInt 10); ("y", VInt 20);
           ("duration_ms", VStr "300")] empty_world
          = (Ok (Some status), empty_world)
        /\ is_error status = true)
  /\ map_computer_action
       [("type", VStr "drag"); ("x", VInt 10); ("y", VInt 20);
        ("duration_ms", VNone)] empty_world
     = (Raise TypeError, empty_world).
Proof.
  split; [|split].
  - exact (map_computer_action_missing_fields
             [("type", VStr "drag"); ("x", VInt 10); ("y", VInt 20)]
             empty_world eq_refl).
  - exact (map_computer_action_missing_fields
             [("type", VStr "drag"); ("x", VInt 10); ("y", VInt 20);
              ("duration_ms", VStr "300")] empty_world eq_refl).
  - exact (map_computer_action_missing_fields
             [("type", VStr "drag"); ("x", VInt 10); ("y", VInt 20);
              ("duration_ms", VNone)] empty_world eq_refl).
Defined.

End ActionsFacts.

(** ** The Claude action normalizer *)

Module ClaudeFacts.
Import Py Claude Demo.
Local Open Scope string_scope.



Section Normalize.
Context `{Builtins}.





End Normalize.



End ClaudeFacts.

(** ** Computations that only talk to the device *)

Module EffectsFacts.
Import Py Device Trace Actions Effects.
Local Open Scope string_scope.
Local Open Scope list_scope.

Lemma with_calls_nil (w : World) : with_calls [] w = w.
Proof. unfold with_calls. rewrite app_nil_r. destruct w; reflexivity. Qed.

Lemma with_calls_app (a b : list Call) (w : World) :
  with_calls b (with_calls a w) = with_calls (a ++ b) w.
Proof. unfold with_calls. cbn [calls step_logs web_events substep_results]. rewrite app_assoc. reflexivity. Qed.

Lemma record_with_calls (c : Call) (w : World) : record c w = with_calls [c] w.
Proof. reflexivity. Qed.

Lemma skipn_with_calls (cs : list Call) (w : World) :
  skipn (List.length (calls w)) (calls (with_calls cs w)) = cs.
Proof.
  unfold with_calls. cbn [calls]. rewrite skipn_app, skipn_all, Nat.sub_diag.
  reflexivity.
Qed.

Section Adds.
Variable P : Call -> Prop.

Lemma adds_ret {A} (a : A) : adds_calls P (ret a).
Proof. intros w. exists []. rewrite with_calls_nil. split; [reflexivity|constructor]. Qed.

Lemma adds_raise {A} e : adds_calls P (@raise A e).
Proof. intros w. exists []. rewrite with_calls_nil. split; [reflexivity|constructor]. Qed.

Lemma adds_lift {A} (r : result A) : adds_calls P (lift r).
Proof. intros w. exists []. rewrite with_calls_nil. split; [reflexivity|constructor]. Qed.

Lemma adds_bind {A B} (m : M A) (k : A -> M B) :
  adds_calls P m -> (forall a, adds_calls P (k a)) -> adds_calls P (bind m k).
Proof.
  intros Hm Hk w. unfold bind. destruct (Hm w) as [cs [Hw Hcs]].
  destruct (m w) as [[a|e] w1]; cbn [snd] in Hw; subst w1.
  - destruct (Hk a (with_calls cs w)) as [cs' [Hw' Hcs']].
    exists (cs ++ cs'). rewrite Hw', with_calls_app. split; [reflexivity|].
    apply Forall_app. split; assumption.
  - exists cs. split; [reflexivity|assumption].
Qed.

Lemma adds_try_except {A} (m : M A) (handler : exn -> M A) :
  adds_calls P m -> (forall e, adds_calls P (handler e)) ->
  adds_calls P (try_except m handler).
Proof.
  intros Hm Hh w. unfold try_except. destruct (Hm w) as [cs [Hw Hcs]].
  destruct (m w) as [[a|e] w1]; cbn [snd] in Hw; subst w1.
  - exists cs. split; [reflexivity|assumption].
  - destruct (Hh e (with_calls cs w)) as [cs' [Hw' Hcs']].
    exists (cs ++ cs'). rewrite Hw', with_calls_app. split; [reflexivity|].
    apply Forall_app. split; assumption.
Qed.

Lemma adds_checked `{Emulator} (c : Call) : P c -> adds_calls P (checked c).
Proof.
  intros Hc w. exists [c]. unfold checked.
  destruct (command_fails (calls w) c); (split; [reflexivity|repeat constructor; exact Hc]).
Qed.

Lemma adds_quiet (c : Call) : P c -> adds_calls P (quiet c).
Proof. intros Hc w. exists [c]. split; [reflexivity|repeat constructor; exact Hc]. Qed.

Lemma adds_device_wait (seconds : pyfloat) :
  P (wait seconds) -> adds_calls P (device_wait seconds).
Proof.
  intros Hc. unfold device_wait. apply adds_bind; [apply adds_lift|].
  intros _. apply adds_quiet. exact Hc.
Qed.

End Adds.

Section Dispatch.
Context `{Builtins} `{Emulator}.

Lemma adds_int_at (P : Call -> Prop) (step : dict) (k : string) :
  adds_calls P (int_at step k).
Proof.
  unfold int_at. apply adds_bind; [apply adds_lift|]. intros v. apply adds_lift.
Qed.

Lemma execute_command_unmarked (step : dict) (package : string) :
  adds_calls (fun c => is_marked c = false) (execute_command step package).
Proof.
  unfold execute_command.
  repeat match goal with
         | |- adds_calls _ (if ?b then _ else _) => destruct b
         end;
    repeat first
      [ apply adds_ret | apply adds_raise | apply adds_lift
      | apply adds_int_at
      | apply adds_checked; reflexivity
      | apply adds_device_wait; reflexivity
      | apply adds_bind; [|intro] ].
Qed.

(** A tap command: the two conversions, then the tap. *)
Lemma execute_command_tap (step : dict) (package : string) :
  eq_str (get step "cmd") "tap" = true ->
  execute_command step package
  = bind (int_at step "x") (fun x =>
    bind (int_at step "y") (fun y => checked (tap x y))).
Proof.
  intros Hcmd. unfold execute_command.
  destruct (get step "cmd") as [| | | |s| |]; try discriminate.
  cbn [eq_str] in *. apply String.eqb_eq in Hcmd. subst s. reflexivity.
Qed.

Lemma int_at_runs (step : dict) (k : string) (w : World) :
  int_at step k w
  = match lookup step k with
    | Some v => (py_int v, w)
    | None => (Raise (KeyError k), w)
    end.
Proof.
  unfold int_at, bind, lift, subscript. destruct (lookup step k); reflexivity.
Qed.

End Dispatch.

End EffectsFacts.

(** ** The agent control loop *)

Module AgentFacts.
Import Py Device Trace Actions Agent Demo Effects EffectsFacts.
Local Open Scope string_scope.
Local Open Scope list_scope.

(** *** What a computation leaves alone *)

Lemma inner_ret {A} (a : A) : inner (ret a).
Proof. intros w. split; reflexivity. Qed.

Lemma inner_lift {A} (r : result A) : inner (lift r).
Proof. intros w. split; reflexivity. Qed.

Lemma inner_bind {A B} (m : M A) (k : A -> M B) :
  inner m -> (forall a, inner (k a)) -> inner (bind m k).
Proof.
  intros Hm Hk w. unfold bind.
  destruct (Hm w) as [Hl Hr].
  destruct (m w) as [[a|e] w1]; simpl in *.
  - destruct (Hk a w1) as [Hl' Hr']. split; congruence.
  - split; assumption.
Qed.

Lemma inner_try_except {A} (m : M A) (handler : exn -> M A) :
  inner m -> (forall e, inner (handler e)) -> inner (try_except m handler).
Proof.
  intros Hm Hh w. unfold try_except.
  destruct (Hm w) as [Hl Hr].
  destruct (m w) as [[a|e] w1]; simpl in *.
  - split; assumption.
  - destruct (Hh e w1) as [Hl' Hr']. split; congruence.
Qed.

Lemma inner_quiet c : inner (quiet c).
Proof. intros w. split; reflexivity. Qed.

Lemma inner_checked `{Emulator} c : inner (checked c).
Proof.
  intros w. unfold checked.
  destruct (command_fails (calls w) c); split; reflexivity.
Qed.

Lemma inner_query {A} (q : list Call -> A) : inner (query q).
Proof. intros w. split; reflexivity. Qed.

Lemma inner_device_wait f : inner (device_wait f).
Proof.
  apply inner_bind; [apply inner_lift|intros; apply inner_quiet].
Qed.

Lemma inner_web_append e : inner (web_append e).
Proof. intros w. split; reflexivity. Qed.

Lemma turn_lines_app l1 l2 :
  turn_lines (l1 ++ l2) = turn_lines l1 ++ turn_lines l2.
Proof. apply flat_map_app. Qed.

Lemma inner_log l :
  (forall i n g, l <> LogTurn i n g) -> inner (log l).
Proof.
  intros Hl w. split; [|reflexivity]. simpl.
  rewrite turn_lines_app. destruct l; simpl; try apply app_nil_r.
  exfalso. eapply Hl. reflexivity.
Qed.

Create HintDb inner.

#[local] Hint Resolve inner_ret inner_lift inner_quiet inner_checked
  inner_query inner_device_wait inner_web_append : inner.

#[local] Hint Extern 1 (inner (log _)) =>
  (apply inner_log; intros; discriminate) : inner.

(** Walks through a computation written with [bind], [if] and [match]. *)
Ltac inner_steps :=
  repeat first
    [ solve [auto with inner]
    | apply inner_bind; [|intro]
    | apply inner_try_except; [|intro]
    | match goal with
      | |- inner (if ?b then _ else _) => destruct b
      | |- inner (match ?x with _ => _ end) => destruct x
      | |- inner (let '(_, _) := ?x in _) => destruct x
      end ].

Section Loop.
Context `{Builtins} `{Emulator} `{Backend}.
Variable cfg : Config.

Lemma inner_map_computer_action action : inner (map_computer_action action).
Proof. unfold map_computer_action. inner_steps. Qed.

Lemma inner_preclick ctx action t : inner (preclick ctx action t).
Proof. unfold preclick. inner_steps. Qed.

Lemma inner_process_item ctx item v t : inner (process_item cfg ctx item v t).
Proof.
  unfold process_item.
  pose proof inner_map_computer_action. pose proof inner_preclick.
  inner_steps.
Qed.

Lemma inner_process_items ctx items :
  forall v t, inner (process_items cfg ctx items v t).
Proof.
  induction items as [|item rest IH]; intros v t; simpl.
  - apply inner_ret.
  - apply inner_bind; [apply inner_process_item|].
    intros [[v' t'] [|]]; [apply IH|apply inner_ret].
Qed.

(** *** What the loops return *)

Lemma returns_ret {A} (P : A -> Prop) a : P a -> returns P (ret a).
Proof. intros Hp w a' w' [= <- _]. exact Hp. Qed.

Lemma bind_ok {A B} (m : M A) (k : A -> M B) w b w' :
  bind m k w = (Ok b, w') ->
  exists a w1, m w = (Ok a, w1) /\ k a w1 = (Ok b, w').
Proof.
  unfold bind. destruct (m w) as [[a|e] w1]; [|discriminate].
  intros Hk. exists a, w1. split; [reflexivity|exact Hk].
Qed.

Lemma returns_bind {A B} (Q : A -> Prop) (P : B -> Prop) m k :
  returns Q m -> (forall a, Q a -> returns P (k a)) -> returns P (bind m k).
Proof.
  intros Hm Hk w b w' Hb. apply bind_ok in Hb as (a & w1 & Ha & Hb).
  eapply Hk; [eapply Hm, Ha|exact Hb].
Qed.

Lemma returns_any {A} (m : M A) : returns (fun _ => True) m.
Proof. intros w a w' _. exact I. Qed.

(** Walks through a computation whose result is fixed by its last step. *)
Ltac returns_steps :=
  repeat first
    [ apply returns_ret
    | eapply returns_bind; [apply returns_any|intros ? _]
    | match goal with
      | |- returns _ (if ?b then _ else _) => destruct b
      | |- returns _ (match ?x with _ => _ end) => destruct x
      end ].

Lemma kept_refl v : kept v v.
Proof. split; auto. Qed.

Lemma kept_trans v1 v2 v3 : kept v1 v2 -> kept v2 v3 -> kept v1 v3.
Proof. intros [Ht Hc] [Ht' Hc']. split; [congruence|auto]. Qed.

Lemma kept_repeat v n : kept v (set_repeat v n).
Proof. split; auto. Qed.

Lemma kept_sig v sig : kept v (set_sig v sig).
Proof. split; auto. Qed.

Lemma kept_finished v : kept v (set_finished v).
Proof. split; [reflexivity|]. intros _. reflexivity. Qed.

Lemma process_item_kept ctx item v t :
  returns (fun '(v', _, _) => kept v v') (process_item cfg ctx item v t).
Proof.
  unfold process_item.
  destruct (type item).
  - returns_steps. apply kept_refl.
  - eapply returns_bind; [apply returns_any|intros ? _].
    destruct (same_sig _ _);
      (destruct (10 <=? _)%nat; returns_steps;
       eauto using kept_refl, kept_repeat, kept_sig, kept_trans).
  - returns_steps; eauto using kept_refl, kept_finished.
Qed.

Lemma process_items_kept ctx items :
  forall v t,
    returns (fun '(v', _) => kept v v') (process_items cfg ctx items v t).
Proof.
  induction items as [|item rest IH]; intros v t; simpl.
  - apply returns_ret, kept_refl.
  - eapply returns_bind; [apply process_item_kept|].
    intros [[v1 t1] flow] Hk. destruct flow.
    + intros w [v2 t2] w' Hr. apply IH in Hr.
      eapply kept_trans; eassumption.
    + apply returns_ret, Hk.
Qed.

Lemma consistent_next_turn v : consistent v -> consistent (next_turn v).
Proof. auto. Qed.

(** A turn that completes has advanced both turn counters by one. *)
Lemma agent_turn_returns idx st :
  returns (fun st' =>
             turns_this_sub (vars st') = S (turns_this_sub (vars st))
             /\ global_index st' = S (global_index st)
             /\ (consistent (vars st) -> consistent (vars st')))
          (agent_turn cfg idx st).
Proof.
  unfold agent_turn.
  repeat first
    [ eapply returns_bind; [apply process_items_kept|]
    | eapply returns_bind; [apply returns_any|intros ? _]
    | match goal with
      | |- returns _ (let '(_, _) := ?x in _) => destruct x
      end ].
  intros [v' t'] [Ht Hc].
  returns_steps; simpl; (split; [exact Ht|split; [reflexivity|exact Hc]]).
Qed.

(** Every turn logs itself once, and nothing below it logs a turn. *)
Lemma agent_turn_logs idx st w :
  turn_lines (step_logs (snd (agent_turn cfg idx st w)))
    = turn_lines (step_logs w) ++ [idx]
  /\ substep_results (snd (agent_turn cfg idx st w)) = substep_results w.
Proof.
  unfold agent_turn.
  match goal with
  | |- context [bind (log ?l) ?k w] =>
      assert (Hk : inner (k tt));
      [|change (bind (log l) k w) with (k tt (snd (log l w)));
        destruct (Hk (snd (log l w))) as [Hl Hr]; rewrite Hl, Hr; simpl;
        rewrite turn_lines_app; split; reflexivity]
  end.
  pose proof inner_process_items.
  inner_steps.
Qed.

Lemma may_continue_true v :
  may_continue cfg v = true ->
  (Z.of_nat (turns_this_sub v) < MAX_AGENT_STEPS cfg)%Z /\ finished v = false.
Proof.
  unfold may_continue. intros Hm. apply andb_prop in Hm as [Hlt Hf].
  apply Z.ltb_lt in Hlt. apply negb_true_iff in Hf. auto.
Qed.

Lemma may_continue_false v :
  may_continue cfg v = false -> finished v = false ->
  (MAX_AGENT_STEPS cfg <= Z.of_nat (turns_this_sub v))%Z.
Proof.
  unfold may_continue. intros Hm Hf. rewrite Hf in Hm. simpl in Hm.
  rewrite andb_true_r in Hm. apply Z.ltb_ge in Hm. exact Hm.
Qed.

(** What the turn loop returns: it never goes past the budget, and when it
    ends unfinished, given fuel for the whole budget, the budget is spent. *)
Lemma while_turns_returns idx fuel :
  forall st,
    returns (fun st' =>
               (turns_this_sub (vars st) <= turns_this_sub (vars st'))%nat
               /\ (global_index st' + turns_this_sub (vars st)
                   = global_index st + turns_this_sub (vars st'))%nat
               /\ (consistent (vars st) -> consistent (vars st'))
               /\ (Z.of_nat (turns_this_sub (vars st'))
                   <= Z.max (Z.of_nat (turns_this_sub (vars st)))
                            (MAX_AGENT_STEPS cfg))%Z
               /\ (finished (vars st') = false ->
                   (Z.to_nat (MAX_AGENT_STEPS cfg
                              - Z.of_nat (turns_this_sub (vars st))) <= fuel)%nat ->
                   (MAX_AGENT_STEPS cfg <= Z.of_nat (turns_this_sub (vars st')))%Z))
            (while_turns cfg fuel idx st).
Proof.
  induction fuel as [|fuel IH]; intros st; simpl.
  - apply returns_ret. repeat split; auto; lia.
  - destruct (may_continue cfg (vars st)) eqn:Hm.
    + apply may_continue_true in Hm as [Hlt Hf].
      eapply returns_bind; [apply agent_turn_returns|].
      intros st1 (Ht & Hg & Hc).
      destruct (finished (vars st1)) eqn:Hf1.
      * apply returns_ret. rewrite Ht, Hg.
        repeat split; auto; try lia. congruence.
      * intros w st' w' Hr. apply IH in Hr as (Ht' & Hg' & Hc' & Hb & He).
        rewrite Ht in *. rewrite Hg in *.
        repeat split; auto; try lia.
        intros Hf' Hfuel. apply He; [exact Hf'|lia].
    + apply returns_ret. repeat split; auto; try lia.
      intros Hf _. apply may_continue_false; assumption.
Qed.

(** What the turn loop logs: as many turns of its sub-goal as it ran, at
    most one per unit of fuel; it records no result. *)
Lemma while_turns_logs idx fuel :
  forall st w, exists k,
    (k <= fuel)%nat
    /\ turn_lines (step_logs (snd (while_turns cfg fuel idx st w)))
       = turn_lines (step_logs w) ++ repeat idx k
    /\ substep_results (snd (while_turns cfg fuel idx st w)) = substep_results w
    /\ match fst (while_turns cfg fuel idx st w) with
       | Ok st' =>
           turns_this_sub (vars st') = (turns_this_sub (vars st) + k)%nat
       | Raise _ => True
       end.
Proof.
  induction fuel as [|fuel IH]; intros st w; simpl.
  - exists 0%nat. simpl. rewrite app_nil_r. auto.
  - destruct (may_continue cfg (vars st)).
    + unfold bind. destruct (agent_turn_logs idx st w) as [Hl Hr].
      destruct (agent_turn cfg idx st w) as [[st1|e] w1] eqn:Et;
        simpl in Hl, Hr.
      * apply agent_turn_returns in Et as (Ht & _ & _).
        destruct (finished (vars st1)).
        -- exists 1%nat. simpl.
           split; [lia|split; [exact Hl|split; [exact Hr|lia]]].
        -- destruct (IH st1 w1) as (k & Hk & Hl' & Hr' & Ht').
           exists (S k). rewrite Hl', Hr', Hl, Hr, <- app_assoc.
           split; [lia|split; [reflexivity|split; [reflexivity|]]].
           destruct (fst (while_turns cfg fuel idx st1 w1)); [lia|exact I].
      * exists 1%nat. simpl.
        split; [lia|split; [exact Hl|split; [exact Hr|exact I]]].
    + exists 0%nat. simpl. rewrite app_nil_r.
      split; [lia|split; [reflexivity|split; [reflexivity|lia]]].
Qed.

Lemma consistent_fresh : consistent fresh_sub_vars.
Proof. reflexivity. Qed.

End Loop.

(** *** Sub-goals *)

Section SubGoals.
Context `{Builtins} `{Emulator} `{Backend}.
Variable cfg : Config.

Lemma run_substep_spec hints idx sub g w :
  exists k,
    (Z.of_nat k <= Z.max 0 (MAX_AGENT_STEPS cfg))%Z
    /\ turn_lines (step_logs (snd (run_substep cfg hints idx sub g w)))
       = turn_lines (step_logs w) ++ repeat idx k
    /\ match fst (run_substep cfg hints idx sub g w) with
       | Ok (sub_ok, g') =>
           substep_results (snd (run_substep cfg hints idx sub g w))
             = substep_results w ++ [mkSubstepResult idx sub sub_ok k]
           /\ g' = (g + k)%nat
           /\ (sub_ok = false ->
               Z.of_nat k = Z.max 0 (MAX_AGENT_STEPS cfg))
       | Raise _ =>
           substep_results (snd (run_substep cfg hints idx sub g w))
             = substep_results w
       end.
Proof.
  remember (run_substep cfg hints idx sub g w) as rw eqn:Erw.
  unfold run_substep in Erw. unfold bind at 1 in Erw. unfold checked at 1 in Erw.
  destruct (command_fails (calls w) (screenshot TempFile)).
  { exists 0%nat. subst rw. simpl. rewrite app_nil_r. split; [lia|auto]. }
  unfold bind at 1 in Erw. unfold query at 1 in Erw.
  destruct (get_device_resolution (calls (record (screenshot TempFile) w)))
    as [phy_w phy_h].
  unfold bind at 1 in Erw. unfold query at 1 in Erw.
  set (w0 := record (screenshot TempFile) w) in *.
  set (st0 := mkLoopState fresh_sub_vars g (mkMessages (sub, hints) NoNote)) in *.
  unfold bind at 1 in Erw. unfold turn_loop in Erw.
  set (fuel := Z.to_nat (MAX_AGENT_STEPS cfg
                         - Z.of_nat (turns_this_sub (vars st0)))) in *.
  destruct (while_turns_logs cfg idx fuel st0 w0) as (k & Hk & Hl & Hr & Ht).
  exists k.
  assert (Hbound : (Z.of_nat k <= Z.max 0 (MAX_AGENT_STEPS cfg))%Z)
    by (subst fuel st0; simpl in Hk; lia).
  split; [exact Hbound|].
  destruct (while_turns cfg fuel idx st0 w0) as [[st'|e] w'] eqn:Ew;
    subst rw; simpl in Hl, Hr, Ht |- *.
  - apply while_turns_returns in Ew as (_ & Hg & Hc & _ & He).
    specialize (Hc consistent_fresh). simpl in Hg.
    split; [exact Hl|]. rewrite Hr, Ht.
    split; [reflexivity|]. split; [lia|].
    intros Hok. unfold consistent, sub_ok_of in Hc.
    rewrite Hok in Hc. symmetry in Hc.
    specialize (He Hc (Nat.le_refl _)). lia.
  - split; [exact Hl|exact Hr].
Qed.

(** The sub-goal loop: results are recorded for a prefix of the sub-goals,
    in order; all but possibly the last passed; every turn logged belongs to
    a sub-goal that was started. *)
Lemma run_substeps_spec hints :
  forall steps idx g w,
  exists new tl,
    substep_results (snd (run_substeps cfg hints idx steps g w))
      = substep_results w ++ new
    /\ turn_lines (step_logs (snd (run_substeps cfg hints idx steps g w)))
       = turn_lines (step_logs w) ++ tl
    /\ map index new = seq idx (List.length new)
    /\ map texts new = firstn (List.length new) steps
    /\ match fst (run_substeps cfg hints idx steps g w) with
       | Ok _ =>
           Forall (fun i => i < idx + List.length new)%nat tl
           /\ ((Forall passed new /\ List.length new = List.length steps)
               \/ exists pre r, new = pre ++ [r] /\ Forall passed pre
                                /\ ok r = false)
       | Raise _ => Forall passed new /\ (List.length new < List.length steps)%nat
       end.
Proof.
  induction steps as [|sub rest IH]; intros idx g w.
  - exists [], []. simpl. rewrite !app_nil_r.
    repeat split; auto.
  - remember (run_substeps cfg hints idx (sub :: rest) g w) as rw eqn:Erw.
    simpl in Erw. unfold bind at 1 in Erw.
    destruct (run_substep_spec hints idx sub g w) as (k & _ & Hl & Hr).
    destruct (run_substep cfg hints idx sub g w) as [[[sub_ok g']|e] w1];
      simpl in Hl, Hr.
    + destruct Hr as (Hr & _ & _).
      destruct sub_ok; simpl in Erw.
      * destruct (IH (S idx) g' w1) as (new & tl & Hr' & Hl' & Hi & Ht & Hres).
        rewrite <- Erw in *.
        exists (mkSubstepResult idx sub true k :: new), (repeat idx k ++ tl).
        rewrite Hr', Hl', Hr, Hl, <- !app_assoc. simpl.
        split; [reflexivity|]. split; [reflexivity|].
        split; [rewrite Hi; reflexivity|].
        split; [rewrite Ht; reflexivity|].
        destruct (fst rw).
        -- destruct Hres as [Htl Hres]. split.
           ++ apply Forall_app. split.
              ** apply Forall_forall. intros i Hin.
                 apply repeat_spec in Hin. lia.
              ** eapply Forall_impl; [|exact Htl]. simpl. intros; lia.
           ++ destruct Hres as [[Hp Hlen] | (pre & r & -> & Hp & Hf)].
              ** left. split; [constructor; [reflexivity|exact Hp]|lia].
              ** right. exists (mkSubstepResult idx sub true k :: pre), r.
                 split; [reflexivity|].
                 split; [constructor; [reflexivity|exact Hp]|exact Hf].
        -- destruct Hres as [Hp Hlen].
           split; [constructor; [reflexivity|exact Hp]|lia].
      * subst rw. unfold bind, log, ret. simpl.
        exists [mkSubstepResult idx sub false k], (repeat idx k).
        rewrite Hr, turn_lines_app, Hl. simpl. rewrite app_nil_r.
        repeat split.
        -- apply Forall_forall. intros i Hin. apply repeat_spec in Hin. lia.
        -- right. exists [], (mkSubstepResult idx sub false k).
           repeat split. constructor.
    + subst rw. simpl. exists [], (repeat idx k).
      rewrite Hr, Hl, app_nil_r. repeat split; auto. simpl. lia.
Qed.

Lemma last_index (pre : list SubstepResult) r n :
  map index (pre ++ [r]) = seq n (List.length (pre ++ [r])) ->
  index r = (n + List.length pre)%nat.
Proof.
  rewrite map_app, length_app, seq_app. simpl.
  intros Heq. apply app_inj_tail_iff in Heq as [_ Hr]. exact Hr.
Qed.

Lemma all_ok_passed results :
  all_ok results = true <-> results <> [] /\ Forall passed results.
Proof.
  unfold all_ok. destruct results as [|r rest].
  - split; [discriminate|intros [Hn _]; contradiction].
  - rewrite forallb_forall, Forall_forall. unfold passed.
    split; [intros Ha; split; [discriminate|exact Ha]|intros [_ Ha]; exact Ha].
Qed.

(** A run over a non-empty sequence of sub-goals: its summary, its
    results and its turns. *)
Lemma sequencing_of_nonempty (hints : list string) (steps_spec : list SubGoal)
    (history : list Call) :
  steps_spec <> [] ->
  exists summary w results,
    run_agent_loop cfg hints steps_spec (initial_world history) = (Ok summary, w)
    /\ substep_results w = results
    /\ map index results = seq 1 (List.length results)
    /\ map texts results = firstn (List.length results) steps_spec
    /\ (summary_ok summary = true <->
        List.length results = List.length steps_spec
        /\ Forall (fun r => ok r = true) results)
    /\ (forall r i,
          In r results -> ok r = false ->
          In i (turn_lines (step_logs w)) -> (i <= index r)%nat).
Proof.
  intros Hne.
  assert (Hlen : (0 < List.length steps_spec)%nat)
    by (destruct steps_spec; [contradiction|simpl; lia]).
  unfold run_agent_loop, try_except. unfold bind at 1.
  set (w0 := snd (log LogRecordingStarted (initial_world history))).
  change (log LogRecordingStarted (initial_world history)) with (Ok tt, w0).
  cbv iota. unfold bind at 1.
  destruct (run_substeps_spec hints steps_spec 1 0 w0)
    as (new & tl & Hr & Hl & Hi & Ht & Hres).
  destruct (run_substeps cfg hints 1 steps_spec 0 w0) as [[g|e] w1];
    simpl in Hr, Hl, Hres.
  - destruct Hres as [Htl Hres]. simpl.
    exists (mkSummary (all_ok (substep_results w1)) [] g
              (Some (substep_results w1))), w1, new.
    split; [reflexivity|]. split; [exact Hr|].
    split; [exact Hi|]. split; [exact Ht|]. rewrite Hr. simpl.
    split.
    + rewrite all_ok_passed. split.
      * intros [Hnn Hp]. split; [|exact Hp].
        destruct Hres as [[_ Hl'] | (pre & r & -> & _ & Hf)]; [exact Hl'|].
        apply Forall_app in Hp as [_ Hp]. inversion Hp as [|? ? Hr' _].
        unfold passed in Hr'. congruence.
      * intros [Hl' Hp]. split; [|exact Hp].
        intros ->. simpl in Hl'. lia.
    + intros r i Hin Hf Hi'. rewrite Hl in Hi'. simpl in Hi'.
      destruct Hres as [[Hp _] | (pre & r' & -> & Hp & Hf')].
      * rewrite Forall_forall in Hp. apply Hp in Hin.
        unfold passed in Hin. congruence.
      * apply in_app_or in Hin as [Hin | [<- | []]].
        -- rewrite Forall_forall in Hp. apply Hp in Hin.
           unfold passed in Hin. congruence.
        -- rewrite (last_index _ _ _ Hi).
           rewrite Forall_forall in Htl. apply Htl in Hi'.
           rewrite length_app in Hi'. simpl in Hi'. lia.
  - destruct Hres as [Hp Hlt]. unfold bind, log, ret. simpl.
    eexists _, _, new.
    split; [reflexivity|]. simpl. split; [exact Hr|].
    split; [exact Hi|]. split; [exact Ht|].
    split.
    + split; [discriminate|]. intros [Hl' _]. lia.
    + intros r i Hin Hf _. rewrite Forall_forall in Hp. apply Hp in Hin.
      unfold passed in Hin. congruence.
Qed.

End SubGoals.

(** *** Turn counter and turn budget *)

Section Budget.
Context `{Builtins} `{Emulator} `{Backend}.
Variable cfg : Config.

(** Fuel beyond the remaining budget changes nothing: the loop has ended
    by its guard before the fuel runs out. *)
Lemma while_turns_fuel idx fuel :
  forall st w,
    (Z.to_nat (MAX_AGENT_STEPS cfg - Z.of_nat (turns_this_sub (vars st)))
     <= fuel)%nat ->
    while_turns cfg (S fuel) idx st w = while_turns cfg fuel idx st w.
Proof.
  induction fuel as [|fuel IH]; intros st w Hfuel.
  - simpl. destruct (may_continue cfg (vars st)) eqn:Hm; [|reflexivity].
    apply may_continue_true in Hm as [Hlt _]. lia.
  - cbn [while_turns].
    destruct (may_continue cfg (vars st)); [|reflexivity].
    unfold bind.
    destruct (agent_turn cfg idx st w) as [[st1|e] w1] eqn:Et; [|reflexivity].
    destruct (finished (vars st1)); [reflexivity|].
    apply agent_turn_returns in Et as (Ht & _ & _).
    apply IH. lia.
Qed.

(** The turn loop is the loop run with any fuel that covers the budget. *)
Lemma turn_loop_any_fuel idx extra st w :
  while_turns cfg
    (Z.to_nat (MAX_AGENT_STEPS cfg - Z.of_nat (turns_this_sub (vars st)))
     + extra) idx st w
  = turn_loop cfg idx st w.
Proof.
  unfold turn_loop. induction extra as [|extra IH].
  - rewrite Nat.add_0_r. reflexivity.
  - rewrite Nat.add_succ_r, while_turns_fuel; [exact IH|lia].
Qed.

Lemma or_else_dict d : or_else (VDict d) (VDict []) = VDict d.
Proof. destruct d; reflexivity. Qed.

(** C5, as the code has it.  An action whose type is none of the
    recognized kinds makes [map_computer_action] return [None]: no status
    string, no device call, no exception.  The loop goes on: when the
    repetition guard does not fire, the item is counted as an action of the
    turn and only the settle delay follows; and every turn that completes
    has advanced the sub-goal's turn counter by one. *)
Theorem unrecognized_action_is_skipped (action : dict) (w : World)
    (ctx : TurnCtx) (v : SubVars) (t : TurnVars) (idx : nat) (st : LoopState) :
  in_strs (get action "type") recognized_kinds = false ->
  map_computer_action action w = (Ok None, w)
  /\ (let v1 := track (json_dumps_sorted (VDict action)) v in
      (repeat_count v1 < 10)%nat ->
      sleep_check (WAIT_BETWEEN_ACTIONS cfg) = Ok tt ->
      process_item cfg ctx (computer_action action) v t w
        = (Ok (v1, count_action t, Next),
           mkWorld (calls w ++ [wait (WAIT_BETWEEN_ACTIONS cfg)])
                   (step_logs w ++ [LogAction (VDict action)])
                   (web_events w) (substep_results w)))
  /\ (forall w0 st' w',
        agent_turn cfg idx st w0 = (Ok st', w') ->
        turns_this_sub (vars st') = S (turns_this_sub (vars st))).
Proof.
  intros Hn. split; [|split].
  - apply ActionsFacts.map_computer_action_unrecognized, Hn.
  - intros v1 Hlt Hwait. unfold process_item, computer_action.
    cbn [Agent.type Agent.action]. rewrite or_else_dict.
    fold (track (json_dumps_sorted (VDict action)) v). fold v1.
    apply Nat.leb_gt in Hlt.
    unfold bind at 1. simpl log. cbv iota. rewrite Hlt.
    unfold preclick.
    assert (Hc : in_strs (get action "type") ["click"; "double_click"] = false).
    { unfold in_strs. simpl.
      rewrite !(ActionsFacts.eq_str_in_strs _ _ _ Hn);
        [reflexivity|unfold recognized_kinds; simpl; tauto..]. }
    rewrite Hc. simpl andb. cbv iota.
    unfold bind at 1. unfold ret at 1.
    unfold bind at 1.
    change (log (LogAction (VDict action)) w)
      with (Ok tt, logged (LogAction (VDict action)) w).
    cbv iota beta.
    rewrite (ActionsFacts.map_computer_action_unrecognized action _ Hn).
    unfold device_wait, bind, lift, quiet, ret. rewrite Hwait. reflexivity.
  - intros w0 st' w' Hrun.
    apply (agent_turn_returns cfg idx st) in Hrun. tauto.
Qed.

End Budget.

(** *** What a turn adds to the world *)

Lemma extend_nil w : extend w [] [] [] = w.
Proof. unfold extend. rewrite !app_nil_r. destruct w; reflexivity. Qed.

Lemma extend_extend w cs lines evs cs' lines' evs' :
  extend (extend w cs lines evs) cs' lines' evs'
  = extend w (cs ++ cs') (lines ++ lines') (evs ++ evs').
Proof.
  unfold extend. cbn [calls step_logs web_events substep_results].
  rewrite !app_assoc. reflexivity.
Qed.

Lemma with_calls_extend cs w : with_calls cs w = extend w cs [] [].
Proof. unfold with_calls, extend. rewrite !app_nil_r. reflexivity. Qed.

Lemma logged_extend l w : logged l w = extend w [] [l] [].
Proof. unfold logged, extend. rewrite !app_nil_r. reflexivity. Qed.

Lemma signalled_app idx a b :
  signalled idx (a ++ b) = signalled idx a || signalled idx b.
Proof. apply existsb_app. Qed.

Lemma action_lines_app a b :
  action_lines (a ++ b) = (action_lines a + action_lines b)%nat.
Proof. unfold action_lines. rewrite filter_app, length_app. reflexivity. Qed.

Lemma escape_lines_app a b :
  escape_lines (a ++ b) = (escape_lines a + escape_lines b)%nat.
Proof. unfold escape_lines. rewrite filter_app, length_app. reflexivity. Qed.

Lemma signalled_elsewhere idx evs :
  Forall (fun e => substep_of e <> idx) evs -> signalled idx evs = false.
Proof.
  induction 1 as [|e evs He _ IH]; [reflexivity|].
  simpl. rewrite IH, orb_false_r.
  destruct e; simpl in *; [reflexivity|].
  apply andb_false_iff. left. apply Nat.eqb_neq. exact He.
Qed.

Lemma tame_ret idx {A} (a : A) : tame idx (ret a).
Proof.
  intros w. exists [], [], []. rewrite extend_nil. repeat split. constructor.
Qed.

Lemma tame_lift idx {A} (r : result A) : tame idx (lift r).
Proof.
  intros w. exists [], [], []. rewrite extend_nil. repeat split. constructor.
Qed.

Lemma tame_bind idx {A B} (m : M A) (k : A -> M B) :
  tame idx m -> (forall a, tame idx (k a)) -> tame idx (bind m k).
Proof.
  intros Hm Hk w. unfold bind.
  destruct (Hm w) as (cs & lines & evs & Hw & Hs & Hn & Ha & He).
  destruct (m w) as [[a|e] w1]; cbn [snd] in Hw; subst w1.
  - destruct (Hk a (extend w cs lines evs))
      as (cs' & lines' & evs' & Hw' & Hs' & Hn' & Ha' & He').
    exists (cs ++ cs'), (lines ++ lines'), (evs ++ evs').
    rewrite Hw', extend_extend, signalled_app, action_lines_app,
      escape_lines_app, Hn, Hn', Ha, Ha', He, He'.
    split; [reflexivity|]. split; [apply Forall_app; auto|]. auto.
  - exists cs, lines, evs. auto.
Qed.

Lemma tame_try_except idx {A} (m : M A) (handler : exn -> M A) :
  tame idx m -> (forall e, tame idx (handler e)) ->
  tame idx (try_except m handler).
Proof.
  intros Hm Hh w. unfold try_except.
  destruct (Hm w) as (cs & lines & evs & Hw & Hs & Hn & Ha & He).
  destruct (m w) as [[a|e] w1]; cbn [snd] in Hw; subst w1.
  - exists cs, lines, evs. auto.
  - destruct (Hh e (extend w cs lines evs))
      as (cs' & lines' & evs' & Hw' & Hs' & Hn' & Ha' & He').
    exists (cs ++ cs'), (lines ++ lines'), (evs ++ evs').
    rewrite Hw', extend_extend, signalled_app, action_lines_app,
      escape_lines_app, Hn, Hn', Ha, Ha', He, He'.
    split; [reflexivity|]. split; [apply Forall_app; auto|]. auto.
Qed.

Lemma tame_calls idx {A} (m : M A) :
  adds_calls (fun _ => True) m -> tame idx m.
Proof.
  intros Hm w. destruct (Hm w) as (cs & Hw & _).
  exists cs, [], []. rewrite Hw, with_calls_extend. repeat split. constructor.
Qed.

Lemma tame_log idx l :
  match l with LogAction _ | LogRepeatedAction => False | _ => True end ->
  tame idx (log l).
Proof.
  intros Hl w. exists [], [l], [].
  change (snd (log l w)) with (logged l w). rewrite logged_extend.
  split; [reflexivity|]. split; [constructor|]. split; [reflexivity|].
  destruct l; try contradiction; split; reflexivity.
Qed.

Lemma tame_click_event idx g cmd x y image screen reason :
  tame idx (web_append (ClickEvent g idx cmd x y image screen reason)).
Proof.
  intros w. eexists [], [], [_]. unfold web_append, extend. simpl.
  rewrite !app_nil_r. split; [reflexivity|].
  split; [repeat constructor|]. auto.
Qed.

(** *** Success signals *)

Section Signals.
Context `{Builtins} `{Emulator} `{Backend}.
Variable cfg : Config.

Lemma map_computer_action_calls action :
  adds_calls (fun _ => True) (map_computer_action action).
Proof.
  unfold map_computer_action.
  repeat first
    [ apply adds_ret | apply adds_lift
    | apply adds_checked; exact I
    | apply adds_quiet; exact I
    | apply adds_device_wait; exact I
    | apply adds_bind; [|intro]
    | match goal with
      | |- adds_calls _ (if ?b then _ else _) => destruct b
      | |- adds_calls _ (let '(_, _) := ?x in _) => destruct x
      | |- adds_calls _ (match ?x with _ => _ end) => destruct x
      end ].
Qed.

Lemma tame_device_wait idx seconds : tame idx (device_wait seconds).
Proof. apply tame_calls, adds_device_wait. exact I. Qed.

Lemma tame_checked idx c : tame idx (checked c).
Proof. apply tame_calls, adds_checked. exact I. Qed.

Lemma tame_quiet idx c : tame idx (quiet c).
Proof. apply tame_calls, adds_quiet. exact I. Qed.

Lemma tame_preclick ctx action t : tame (sub_idx ctx) (preclick ctx action t).
Proof.
  unfold preclick.
  repeat first
    [ apply tame_ret | apply tame_quiet | apply tame_click_event
    | apply tame_bind; [|intro]
    | match goal with
      | |- tame _ (if ?b then _ else _) => destruct b
      | |- tame _ (match ?x with _ => _ end) => destruct x
      end ].
Qed.


(** The three kinds of item. *)
Lemma reasoning_item_tame ctx item v t :
  type item = REASONING ->
  tame (sub_idx ctx) (process_item cfg ctx item v t).
Proof.
  intros Hty. unfold process_item. rewrite Hty.
  apply tame_bind; [|intro; apply tame_ret].
  destruct (_ =? _)%string; [apply tame_ret|apply tame_log; exact I].
Qed.

Lemma reasoning_item_returns ctx item v t :
  type item = REASONING ->
  returns (fun '(v', t', flow) =>
             v' = v /\ flow = Next
             /\ actions_this_turn t' = actions_this_turn t
             /\ executed_any t' = executed_any t)
          (process_item cfg ctx item v t).
Proof.
  intros Hty. unfold process_item. rewrite Hty.
  eapply returns_bind; [apply returns_any|intros ? _].
  apply returns_ret. auto.
Qed.

(** What follows the announcement of an action. *)
Lemma action_item_runs ctx item v t w :
  type item = COMPUTER_ACTION ->
  exists a v1,
    finished v1 = finished v /\ explicit_success v1 = explicit_success v
    /\ process_item cfg ctx item v t w
       = (if (10 <=? repeat_count v1)%nat then
            bind (log LogRepeatedAction) (fun _ =>
            bind (checked (keyevent "4")) (fun _ =>
            bind (device_wait (WAIT_BETWEEN_ACTIONS cfg)) (fun _ =>
            ret (set_repeat v1 0, t, Next))))
          else
            bind (preclick ctx a t) (fun t =>
            bind (map_computer_action (match a with VDict d => d | _ => [] end))
                 (fun _ =>
            bind (device_wait (WAIT_BETWEEN_ACTIONS cfg)) (fun _ =>
            ret (v1, count_action t, Next)))))
         (logged (LogAction a) w).
Proof.
  intros Hty. unfold process_item. rewrite Hty.
  eexists _, _. split; [|split; [|reflexivity]];
    destruct (same_sig _ _); reflexivity.
Qed.

Lemma preclick_returns ctx a t :
  returns (fun t' => actions_this_turn t' = actions_this_turn t
                     /\ executed_any t' = executed_any t)
          (preclick ctx a t).
Proof.
  unfold preclick.
  repeat first
    [ apply returns_ret
    | eapply returns_bind; [apply returns_any|intros ? _]
    | match goal with
      | |- returns _ (if ?b then _ else _) => destruct b
      | |- returns _ (match ?x with _ => _ end) => destruct x
      end ]; auto.
Qed.

Lemma counted_refl t : counted t t [].
Proof. split; [reflexivity|auto]. Qed.

Lemma counted_trans t1 t2 t3 l1 l2 :
  counted t1 t2 l1 -> counted t2 t3 l2 -> counted t1 t3 (l1 ++ l2).
Proof.
  intros [Ha Hx] [Ha' Hx']. split.
  - rewrite escape_lines_app, action_lines_app. lia.
  - auto.
Qed.

(** One item: what it adds to the world, and what it makes of the
    trackers.  Only a success signal sets [finished] and
    [explicit_success], and only it reports an [end_test] event. *)
Lemma process_item_spec ctx item v t w :
  exists cs lines evs,
    snd (process_item cfg ctx item v t w) = extend w cs lines evs
    /\ Forall (fun e => substep_of e = sub_idx ctx) evs
    /\ match fst (process_item cfg ctx item v t w) with
       | Ok (v', t', flow) =>
           signalled (sub_idx ctx) evs = is_success_signal item
           /\ counted t t' lines
           /\ if is_success_signal item
              then finished v' = true /\ explicit_success v' = Some true
                   /\ flow = Break
              else finished v' = finished v
                   /\ explicit_success v' = explicit_success v
                   /\ flow = Next
       | Raise _ => signalled (sub_idx ctx) evs = false
       end.
Proof.
  destruct (type item) eqn:Hty.
  - (* reasoning *)
    destruct (reasoning_item_tame ctx item v t Hty w)
      as (cs & lines & evs & Hw & Hs & Hn & Ha & He).
    exists cs, lines, evs. split; [exact Hw|]. split; [exact Hs|].
    destruct (process_item cfg ctx item v t w) as [[[[v' t'] flow]|e] w'] eqn:Hrun;
      [|exact Hn].
    apply (reasoning_item_returns ctx item v t Hty) in Hrun
      as (-> & -> & Hat & Hxt).
    unfold is_success_signal. rewrite Hty.
    split; [exact Hn|]. split; [|auto].
    split; [lia|]. intros Hx. rewrite Hxt, Hat. exact Hx.
  - (* an action *)
    destruct (action_item_runs ctx item v t w Hty) as (a & v1 & Hf & Hx & ->).
    unfold is_success_signal. rewrite Hty.
    destruct (10 <=? repeat_count v1)%nat.
    + (* the escape *)
      rewrite logged_extend.
      match goal with
      | |- context [bind (log LogRepeatedAction) ?k] =>
          change (bind (log LogRepeatedAction) k (extend w [] [LogAction a] []))
            with (k tt (logged LogRepeatedAction (extend w [] [LogAction a] [])));
          assert (Hk : tame (sub_idx ctx) (k tt))
            by (repeat first [ apply tame_ret | apply tame_checked
                             | apply tame_device_wait
                             | apply tame_bind; [|intro] ]);
          assert (Hr : returns (fun '(v', t', flow) =>
                                  v' = set_repeat v1 0 /\ t' = t /\ flow = Next)
                               (k tt))
            by (repeat first
                  [ apply returns_ret
                  | eapply returns_bind; [apply returns_any|intros ? _] ]; auto)
      end.
      rewrite logged_extend, extend_extend.
      match goal with
      | |- context [snd (?m ?w0)] =>
          destruct (Hk w0) as (cs & lines & evs & Hw & Hs & Hn & Ha & He);
          destruct (m w0) as [[[[v' t'] flow]|e] w'] eqn:Hrun
      end; cbn [snd fst] in *; subst w'; rewrite extend_extend;
        eexists _, _, _; (split; [reflexivity|]); (split; [exact Hs|]);
        [|exact Hn].
      apply Hr in Hrun as (-> & -> & ->).
      split; [exact Hn|]. split; [|simpl; auto].
      split; [|auto].
      rewrite !escape_lines_app, !action_lines_app, Ha, He. simpl. lia.
    + (* the action is executed *)
      rewrite logged_extend.
      match goal with
      | |- context [snd (?m ?w0)] =>
          assert (Hk : tame (sub_idx ctx) m)
            by (repeat first [ apply tame_ret | apply tame_preclick
                             | apply tame_device_wait
                             | apply tame_calls, map_computer_action_calls
                             | apply tame_bind; [|intro] ]);
          assert (Hr : returns (fun '(v', t', flow) =>
                                  v' = v1 /\ flow = Next
                                  /\ actions_this_turn t' = S (actions_this_turn t)
                                  /\ executed_any t' = true)
                               m)
            by (eapply returns_bind; [apply preclick_returns|];
                intros t1 [Hat Hxt];
                repeat first
                  [ apply returns_ret
                  | eapply returns_bind; [apply returns_any|intros ? _] ];
                simpl; rewrite Hat; auto);
          destruct (Hk w0) as (cs & lines & evs & Hw & Hs & Hn & Ha & He);
          destruct (m w0) as [[[[v' t'] flow]|e] w'] eqn:Hrun
      end; cbn [snd fst] in *; subst w'; rewrite extend_extend;
        eexists _, _, _; (split; [reflexivity|]); (split; [exact Hs|]);
        [|exact Hn].
      apply Hr in Hrun as (-> & -> & Hat & Hxt).
      split; [exact Hn|]. split; [|auto].
      split.
      * rewrite !escape_lines_app, !action_lines_app, Ha, He, Hat. simpl. lia.
      * intros _. rewrite Hxt, Hat. reflexivity.
  - (* end_test *)
    unfold is_success_signal. rewrite Hty.
    unfold process_item. rewrite Hty.
    destruct (success item) as [[|]|]; cbn [negb].
    + (* the signal *)
      unfold bind, try_except, checked, web_append, log, ret. simpl.
      destruct (command_fails _ _); simpl.
      all: eexists [_], [_], [_].
      all: split; [reflexivity|].
      all: split; [repeat constructor|].
      all: simpl; rewrite Nat.eqb_refl.
      all: split; [reflexivity|]; split; [|auto].
      all: split; [reflexivity|auto].
    + exists [], [LogIgnoredEndTest], []. rewrite <- logged_extend.
      split; [reflexivity|]. split; [constructor|]. simpl.
      split; [reflexivity|]. split; [|auto]. split; [reflexivity|auto].
    + exists [], [LogIgnoredEndTest], []. rewrite <- logged_extend.
      split; [reflexivity|]. split; [constructor|]. simpl.
      split; [reflexivity|]. split; [|auto]. split; [reflexivity|auto].
Qed.

Lemma process_items_spec ctx items :
  forall v t w,
  exists cs lines evs,
    snd (process_items cfg ctx items v t w) = extend w cs lines evs
    /\ Forall (fun e => substep_of e = sub_idx ctx) evs
    /\ match fst (process_items cfg ctx items v t w) with
       | Ok (v', t') =>
           signalled (sub_idx ctx) evs = has_signal items
           /\ counted t t' lines
           /\ if has_signal items
              then finished v' = true /\ explicit_success v' = Some true
              else finished v' = finished v
                   /\ explicit_success v' = explicit_success v
       | Raise _ => signalled (sub_idx ctx) evs = false
       end.
Proof.
  induction items as [|item rest IH]; intros v t w.
  - exists [], [], []. rewrite extend_nil. simpl.
    split; [reflexivity|]. split; [constructor|].
    split; [reflexivity|]. split; [apply counted_refl|auto].
  - cbn [process_items]. unfold bind.
    change (has_signal (item :: rest))
      with (is_success_signal item || has_signal rest).
    destruct (process_item_spec ctx item v t w)
      as (cs & lines & evs & Hw & Hs & Hr).
    destruct (process_item cfg ctx item v t w) as [[[[v1 t1] flow]|e] w1];
      cbn [fst snd] in *; subst w1.
    + destruct Hr as (Hsig & Hcnt & Hv).
      destruct (is_success_signal item).
      * destruct Hv as (Hf & Hx & ->). exists cs, lines, evs.
        split; [reflexivity|]. split; [exact Hs|]. simpl. auto.
      * destruct Hv as (Hf & Hx & ->).
        destruct (IH v1 t1 (extend w cs lines evs))
          as (cs' & lines' & evs' & Hw' & Hs' & Hr').
        exists (cs ++ cs'), (lines ++ lines'), (evs ++ evs').
        rewrite Hw', extend_extend. split; [reflexivity|].
        split; [apply Forall_app; auto|].
        rewrite signalled_app, Hsig. cbn [orb].
        destruct (fst (process_items cfg ctx rest v1 t1 (extend w cs lines evs)))
          as [[v' t']|e'].
        -- destruct Hr' as (Hsig' & Hcnt' & Hv').
           split; [exact Hsig'|].
           split; [eapply counted_trans; eassumption|].
           destruct (has_signal rest); [exact Hv'|].
           destruct Hv'. split; congruence.
        -- exact Hr'.
    + exists cs, lines, evs. auto.
Qed.

Lemma log_then {A} l (k : unit -> M A) w :
  bind (log l) k w = k tt (extend w [] [l] []).
Proof. rewrite <- logged_extend. reflexivity. Qed.

Lemma query_then {A B} (q : list Call -> A) (k : A -> M B) w :
  bind (query q) k w = k (q (calls w)) w.
Proof. reflexivity. Qed.

Lemma note_of_count t :
  executed_any t = (0 <? actions_this_turn t)%nat ->
  (if executed_any t then StateUpdated else NoActionsProduced)
  = note_after (actions_this_turn t).
Proof. intros ->. destruct (actions_this_turn t); reflexivity. Qed.

(** One turn: what it adds to the world, the answer it was given, and what
    it leaves for the next turn. *)
Lemma agent_turn_spec idx st w :
  exists cs lines evs,
    snd (agent_turn cfg idx st w) = extend w cs lines evs
    /\ Forall (fun e => substep_of e = idx) evs
    /\ match fst (agent_turn cfg idx st w) with
       | Ok st' =>
           (exists width height items,
              create_turn (S (global_index st)) (input_messages st) width height
              = Ok items
              /\ signalled idx evs = has_signal items
              /\ if has_signal items
                 then finished (vars st') = true
                      /\ explicit_success (vars st') = Some true
                 else finished (vars st') = finished (vars st)
                      /\ explicit_success (vars st') = explicit_success (vars st))
           /\ if finished (vars st')
              then input_messages st' = input_messages st
              else exists before earlier n,
                     cs = before ++ [screenshot TempFile]
                     /\ lines
                        = earlier
                          ++ [LogExecutedActions idx (turns_this_sub (vars st')) n]
                     /\ (n + escape_lines lines = action_lines lines)%nat
                     /\ input_messages st'
                        = mkMessages (base_user_context (input_messages st))
                                     (note_after n)
       | Raise _ => signalled idx evs = false
       end.
Proof.
  remember (agent_turn cfg idx st w) as r eqn:Er.
  unfold agent_turn in Er.
  rewrite log_then, query_then in Er.
  destruct (get_device_resolution _) as [phy_w phy_h].
  rewrite query_then in Er.
  destruct (Screen.canvas_dims _ _ _) as [dev_w dev_h].
  rewrite log_then, query_then, extend_extend in Er. cbn [app] in Er.
  unfold bind at 1 in Er. unfold lift at 1 in Er.
  match type of Er with
  | context [create_turn ?n ?m ?a ?b] =>
      set (width := a) in Er; set (height := b) in Er;
      destruct (create_turn n m width height) as [items|e] eqn:Hturn
  end; cbv iota in Er.
  2: { subst r. eexists _, _, _. split; [reflexivity|].
       split; [constructor|reflexivity]. }
  unfold bind at 1 in Er.
  match type of Er with
  | context [process_items cfg ?ctx items ?v ?t ?w0] =>
      destruct (process_items_spec ctx items v t w0)
        as (cs & lines & evs & Hw & Hs & Hr);
      destruct (process_items cfg ctx items v t w0) as [[[v' t']|e] w1]
  end; cbn [fst snd sub_idx] in *; subst w1; rewrite ?extend_extend in Er;
    cbn [app] in *.
  2: { subst r. eexists _, _, _. split; [reflexivity|].
       split; [exact Hs|exact Hr]. }
  destruct Hr as (Hsig & [Hcount Hany] & Hv).
  specialize (Hany eq_refl). cbn [fresh_turn_vars actions_this_turn] in Hcount.
  assert (Hanswer :
            exists width height items,
              create_turn (S (global_index st)) (input_messages st) width height
              = Ok items
              /\ signalled idx evs = has_signal items
              /\ if has_signal items
                 then finished v' = true /\ explicit_success v' = Some true
                 else finished v' = finished (vars st)
                      /\ explicit_success v' = explicit_success (vars st))
    by (exists width, height, items; auto).
  destruct (finished v') eqn:Hf.
  - destruct (explicit_success v') as [pass_flag|] eqn:Hx;
      [rewrite log_then, extend_extend, !app_nil_r in Er|];
      (subst r; eexists _, _, _; split; [reflexivity|]; split; [exact Hs|];
       unfold ret; cbn [fst vars input_messages]; rewrite Hf, Hx;
       split; [exact Hanswer|]; reflexivity).
  - unfold bind at 1 in Er. unfold checked at 1 in Er.
    cbn [calls extend] in Er.
    destruct (command_fails _ _).
    + subst r. eexists _, _, _. cbn [snd fst]. unfold record, extend.
      cbn [calls step_logs web_events substep_results].
      rewrite <- (app_nil_r (web_events w ++ evs)), <- !app_assoc.
      split; [reflexivity|]. rewrite app_nil_r. split; [exact Hs|].
      rewrite Hsig. destruct (has_signal items); [|reflexivity].
      destruct Hv as [Hv _]. congruence.
    + rewrite log_then in Er. unfold ret in Er. subst r.
      cbn [snd fst vars input_messages].
      rewrite Hf.
      match goal with
      | |- context [LogScreen phy_w phy_h ?rot dev_w dev_h] =>
          exists (cs ++ [screenshot TempFile]),
            ([LogTurn idx (S (turns_this_sub (vars st))) (S (global_index st));
              LogScreen phy_w phy_h rot dev_w dev_h]
             ++ lines
             ++ [LogExecutedActions idx (turns_this_sub v')
                   (actions_this_turn t')]),
            evs
      end.
      split.
      { unfold record, extend.
        cbn [calls step_logs web_events substep_results app].
        rewrite !app_nil_r, <- !app_assoc. reflexivity. }
      split; [exact Hs|]. split; [exact Hanswer|].
      eexists cs, _, (actions_this_turn t').
      split; [reflexivity|].
      split; [rewrite app_assoc; reflexivity|].
      split.
      { rewrite !escape_lines_app, !action_lines_app.
        change (escape_lines [LogTurn _ _ _; LogScreen _ _ _ _ _]) with 0%nat.
        change (action_lines [LogTurn _ _ _; LogScreen _ _ _ _ _]) with 0%nat.
        change (escape_lines [LogExecutedActions _ _ _]) with 0%nat.
        change (action_lines [LogExecutedActions _ _ _]) with 0%nat.
        lia. }
      rewrite (note_of_count t' Hany). reflexivity.
Qed.

(** The turn loop: only a success signal finishes the sub-goal, and it is
    the answer to the loop's last turn that holds it. *)
Lemma while_turns_spec idx fuel :
  forall st w,
  exists cs lines evs,
    snd (while_turns cfg fuel idx st w) = extend w cs lines evs
    /\ Forall (fun e => substep_of e = idx) evs
    /\ match fst (while_turns cfg fuel idx st w) with
       | Ok st' =>
           if signalled idx evs
           then finished (vars st') = true
                /\ explicit_success (vars st') = Some true
                /\ answers_with_signal (global_index st')
                /\ (global_index st < global_index st')%nat
           else finished (vars st') = finished (vars st)
                /\ explicit_success (vars st') = explicit_success (vars st)
       | Raise _ => True
       end.
Proof.
  assert (Hstay : forall (st : LoopState) w,
            exists cs lines evs,
              snd (ret st w) = extend w cs lines evs
              /\ Forall (fun e => substep_of e = idx) evs
              /\ match fst (ret st w) with
                 | Ok st' =>
                     if signalled idx evs
                     then finished (vars st') = true
                          /\ explicit_success (vars st') = Some true
                          /\ answers_with_signal (global_index st')
                          /\ (global_index st < global_index st')%nat
                     else finished (vars st') = finished (vars st)
                          /\ explicit_success (vars st')
                             = explicit_success (vars st)
                 | Raise _ => True
                 end).
  { intros st w. exists [], [], []. rewrite extend_nil. simpl.
    split; [reflexivity|]. split; [constructor|auto]. }
  induction fuel as [|fuel IH]; intros st w; cbn [while_turns];
    [apply Hstay|].
  destruct (may_continue cfg (vars st)); [|apply Hstay].
  unfold bind.
  destruct (agent_turn_spec idx st w) as (cs1 & lines1 & evs1 & Hw1 & Hs1 & Hr1).
  destruct (agent_turn cfg idx st w) as [[st1|e] w1] eqn:Et;
    cbn [fst snd] in *; subst w1.
  2: { exists cs1, lines1, evs1. auto. }
  apply agent_turn_returns in Et as (_ & Hg & _).
  destruct Hr1 as ((width & height & items & Hturn & Hsig & Hv) & _).
  destruct (finished (vars st1)) eqn:Hf1.
  - exists cs1, lines1, evs1. split; [reflexivity|]. split; [exact Hs1|].
    unfold ret. cbn [fst]. rewrite Hsig.
    destruct (has_signal items) eqn:Hi.
    + destruct Hv as [_ Hx]. split; [exact Hf1|]. split; [exact Hx|].
      split; [|lia]. rewrite Hg. exists (input_messages st), width, height, items.
      auto.
    + rewrite Hf1. exact Hv.
  - assert (Hi : has_signal items = false).
    { destruct (has_signal items); [|reflexivity].
      destruct Hv as [Hv _]. congruence. }
    rewrite Hi in Hv, Hsig. destruct Hv as [Hfv Hxv].
    destruct (IH st1 (extend w cs1 lines1 evs1))
      as (cs2 & lines2 & evs2 & Hw2 & Hs2 & Hr2).
    exists (cs1 ++ cs2), (lines1 ++ lines2), (evs1 ++ evs2).
    rewrite Hw2, extend_extend. split; [reflexivity|].
    split; [apply Forall_app; auto|].
    rewrite signalled_app, Hsig. cbn [orb].
    destruct (fst (while_turns cfg fuel idx st1 (extend w cs1 lines1 evs1)));
      [|exact I].
    destruct (signalled idx evs2).
    + destruct Hr2 as (Hf & Hx & Ha & Hlt). repeat split; auto. lia.
    + destruct Hr2 as (Hf & Hx). split; congruence.
Qed.

(** One sub-goal: the events it reports are its own, its result is success
    exactly when a success event was reported, and then the provider's
    answer to its last turn held the signal. *)
Lemma run_substep_signal hints idx sub g w :
  exists evs,
    web_events (snd (run_substep cfg hints idx sub g w)) = web_events w ++ evs
    /\ Forall (fun e => substep_of e = idx) evs
    /\ match fst (run_substep cfg hints idx sub g w) with
       | Ok (sub_ok, g') =>
           sub_ok = signalled idx evs
           /\ (sub_ok = true -> answers_with_signal g' /\ (g < g')%nat)
       | Raise _ => True
       end.
Proof.
  remember (run_substep cfg hints idx sub g w) as rw eqn:Erw.
  unfold run_substep in Erw. unfold bind at 1 in Erw. unfold checked at 1 in Erw.
  destruct (command_fails (calls w) (screenshot TempFile)).
  { exists []. subst rw. simpl. rewrite app_nil_r.
    split; [reflexivity|]. split; [constructor|exact I]. }
  unfold bind at 1 in Erw. unfold query at 1 in Erw.
  destruct (get_device_resolution (calls (record (screenshot TempFile) w)))
    as [phy_w phy_h].
  unfold bind at 1 in Erw. unfold query at 1 in Erw.
  set (w0 := record (screenshot TempFile) w) in *.
  set (st0 := mkLoopState fresh_sub_vars g (mkMessages (sub, hints) NoNote)) in *.
  unfold bind at 1 in Erw. unfold turn_loop in Erw.
  set (fuel := Z.to_nat (MAX_AGENT_STEPS cfg
                         - Z.of_nat (turns_this_sub (vars st0)))) in *.
  destruct (while_turns_spec idx fuel st0 w0) as (cs & lines & evs & Hw & Hs & Hr).
  exists evs.
  destruct (while_turns cfg fuel idx st0 w0) as [[st'|e] w'];
    cbn [fst snd] in *; subst w' rw.
  - split; [reflexivity|]. split; [exact Hs|]. cbn [fst].
    destruct (signalled idx evs).
    + destruct Hr as (_ & -> & Ha & Hlt). split; [reflexivity|].
      intros _. split; [exact Ha|exact Hlt].
    + destruct Hr as (_ & ->). split; [reflexivity|discriminate].
  - split; [reflexivity|]. split; [exact Hs|exact I].
Qed.

(** Without a success signal from the provider, the turn loop ends with
    the sub-goal unfinished. *)
Lemma turn_loop_silent idx g msgs w st' w' :
  silent g (g + Z.to_nat (MAX_AGENT_STEPS cfg)) ->
  turn_loop cfg idx (mkLoopState fresh_sub_vars g msgs) w = (Ok st', w') ->
  finished (vars st') = false /\ explicit_success (vars st') = None.
Proof.
  intros Hsilent Hloop. unfold turn_loop in Hloop.
  match type of Hloop with
  | while_turns cfg ?fuel idx ?st0 w = _ =>
      destruct (while_turns_spec idx fuel st0 w) as (cs & lines & evs & _ & _ & Hr);
      pose proof (while_turns_returns cfg idx fuel st0 w st' w' Hloop)
        as (_ & Hg & _ & Hb & _)
  end.
  rewrite Hloop in Hr. cbn [fst vars global_index turns_this_sub fresh_sub_vars] in *.
  destruct (signalled idx evs); [|exact Hr].
  destruct Hr as (_ & _ & (m & width & height & items & Hturn & Hi) & Hlt).
  assert (Hle : (global_index st' <= g + Z.to_nat (MAX_AGENT_STEPS cfg))%nat)
    by lia.
  rewrite (Hsilent _ _ _ _ _ (conj Hlt Hle) Hturn) in Hi.
  discriminate Hi.
Qed.

(** A sub-goal whose first screenshot is taken: the turn loop from fresh
    trackers, then the result. *)
Lemma run_substep_runs hints idx sub g w :
  command_fails (calls w) (screenshot TempFile) = false ->
  run_substep cfg hints idx sub g w
  = match turn_loop cfg idx
            (mkLoopState fresh_sub_vars g (mkMessages (sub, hints) NoNote))
            (record (screenshot TempFile) w) with
    | (Ok st', w') =>
        (Ok (sub_ok_of (vars st'), global_index st'),
         mkWorld (calls w') (step_logs w') (web_events w')
           (substep_results w'
            ++ [mkSubstepResult idx sub (sub_ok_of (vars st'))
                  (turns_this_sub (vars st'))]))
    | (Raise e, w') => (Raise e, w')
    end.
Proof.
  intros Hshot.
  unfold run_substep. unfold bind at 1. unfold checked at 1.
  rewrite Hshot. unfold bind at 1. unfold query at 1.
  destruct (get_device_resolution (calls (record (screenshot TempFile) w)))
    as [phy_w phy_h].
  unfold bind at 1. unfold query at 1. unfold bind at 1.
  destruct (turn_loop cfg idx _ _) as [[st'|e] w']; reflexivity.
Qed.

(** C6. The default budget is 250 turns.  Whatever happens, a sub-goal
    runs no more turns than the budget.  When the provider gives no
    [end_test] item with success true in the turns of the budget, the turn
    loop either raises, and the sub-goal raises the same exception, or it
    comes to its end with the sub-goal unfinished after exactly the budget
    of turns; the sub-goal then returns, without raising, and records its
    result as a failure together with that number of turns.  A sub-goal that
    returns reports success only when the provider's answer to its last turn
    held such an item, failure only when the budget is spent, and records
    its result with the number of turns it ran. *)
Theorem turn_budget (hints : list string) (idx : nat) (sub : SubGoal)
    (g : nat) (w : World) :
  MAX_AGENT_STEPS default_config = 250%Z
  /\ (exists k,
        (Z.of_nat k <= Z.max 0 (MAX_AGENT_STEPS cfg))%Z
        /\ turn_lines (step_logs (snd (run_substep cfg hints idx sub g w)))
           = turn_lines (step_logs w) ++ repeat idx k)
  /\ (let n := Z.to_nat (MAX_AGENT_STEPS cfg) in
      command_fails (calls w) (screenshot TempFile) = false ->
      silent g (g + n) ->
      match turn_loop cfg idx
              (mkLoopState fresh_sub_vars g (mkMessages (sub, hints) NoNote))
              (record (screenshot TempFile) w) with
      | (Ok st', w') =>
          finished (vars st') = false
          /\ turns_this_sub (vars st') = n
          /\ run_substep cfg hints idx sub g w
             = (Ok (false, (g + n)%nat),
                mkWorld (calls w') (step_logs w') (web_events w')
                  (substep_results w' ++ [mkSubstepResult idx sub false n]))
      | (Raise e, w') => run_substep cfg hints idx sub g w = (Raise e, w')
      end)
  /\ (forall sub_ok g' w',
        run_substep cfg hints idx sub g w = (Ok (sub_ok, g'), w') ->
        (sub_ok = true ->
         answers_with_signal g'
         /\ (g < g' <= g + Z.to_nat (MAX_AGENT_STEPS cfg))%nat)
        /\ (sub_ok = false -> g' = (g + Z.to_nat (MAX_AGENT_STEPS cfg))%nat)
        /\ substep_results w'
           = substep_results w ++ [mkSubstepResult idx sub sub_ok (g' - g)]).
Proof.
  split; [reflexivity|]. split; [|split].
  - destruct (run_substep_spec cfg hints idx sub g w) as (k & Hk & Hl & _).
    exists k. split; assumption.
  - intros n Hshot Hsilent.
    pose proof (run_substep_runs hints idx sub g w Hshot) as Hsub.
    destruct (turn_loop cfg idx _ _) as [[st'|e] w'] eqn:Hloop; [|exact Hsub].
    destruct (turn_loop_silent idx g _ _ st' w' Hsilent Hloop) as [Hf Hx].
    pose proof Hloop as Hret. unfold turn_loop in Hret.
    apply while_turns_returns in Hret as (_ & Hg & _ & Hb & He).
    simpl in Hg, Hb, He.
    specialize (He Hf (Nat.le_refl _)).
    assert (Hn : turns_this_sub (vars st') = n) by (subst n; lia).
    split; [exact Hf|]. split; [exact Hn|].
    rewrite Hsub. unfold sub_ok_of. rewrite Hx, Hn.
    replace (global_index st') with (g + n)%nat by lia. reflexivity.
  - intros sub_ok g' w' Hrun.
    destruct (run_substep_spec cfg hints idx sub g w) as (k & Hk & _ & Hr).
    destruct (run_substep_signal hints idx sub g w) as (evs & _ & _ & Hs).
    rewrite Hrun in Hr, Hs. cbn [fst snd] in Hr, Hs.
    destruct Hr as (Hres & -> & Hout). destruct Hs as [_ Hs].
    split; [|split].
    + intros Hok. destruct (Hs Hok) as [Ha Hlt].
      split; [exact Ha|]. lia.
    + intros Hok. specialize (Hout Hok). lia.
    + rewrite Hres. replace (g + k - g)%nat with k by lia. reflexivity.
Qed.

(** The sub-goal loop: the events reported and the results recorded. *)
Lemma run_substeps_signal hints :
  forall steps idx g w,
  exists new evs,
    substep_results (snd (run_substeps cfg hints idx steps g w))
      = substep_results w ++ new
    /\ web_events (snd (run_substeps cfg hints idx steps g w))
       = web_events w ++ evs
    /\ Forall (fun e => idx <= substep_of e)%nat evs
    /\ Forall (fun r => idx <= index r)%nat new
    /\ (forall r, In r new -> ok r = signalled (index r) evs)
    /\ (forall r, In r new -> ok r = false ->
        turns r = Z.to_nat (MAX_AGENT_STEPS cfg))
    /\ (forall pre r post,
          new = pre ++ r :: post -> ok r = true ->
          answers_with_signal (g + list_sum (map turns pre) + turns r)).
Proof.
  induction steps as [|sub rest IH]; intros idx g w.
  - exists [], []. simpl. rewrite !app_nil_r.
    split; [reflexivity|]. split; [reflexivity|].
    split; [constructor|]. split; [constructor|].
    split; [intros r []|]. split; [intros r []|].
    intros [|? ?] r post; discriminate.
  - remember (run_substeps cfg hints idx (sub :: rest) g w) as rw eqn:Erw.
    simpl in Erw. unfold bind at 1 in Erw.
    destruct (run_substep_spec cfg hints idx sub g w) as (k & _ & _ & Hr).
    destruct (run_substep_signal hints idx sub g w) as (evs1 & He1 & Hs1 & Hsig).
    destruct (run_substep cfg hints idx sub g w) as [[[sub_ok g']|e] w1];
      cbn [fst snd] in Hr, He1, Hsig.
    + destruct Hr as (Hr & -> & Hout). destruct Hsig as [Hok Hans].
      assert (Hfar : forall j, (idx < j)%nat -> signalled j evs1 = false).
      { intros j Hj. apply signalled_elsewhere.
        eapply Forall_impl; [|exact Hs1]. simpl. intros e ->. lia. }
      destruct sub_ok; simpl in Erw.
      * destruct (IH (S idx) (g + k)%nat w1)
          as (new & evs & Hr' & He' & Hse & Hsn & Hoks & Hturns & Hlast).
        rewrite <- Erw in *.
        exists (mkSubstepResult idx sub true k :: new), (evs1 ++ evs).
        rewrite Hr', He', Hr, He1, <- !app_assoc.
        split; [reflexivity|]. split; [reflexivity|].
        split.
        { apply Forall_app. split.
          - eapply Forall_impl; [|exact Hs1]. simpl. intros e ->. lia.
          - eapply Forall_impl; [|exact Hse]. simpl. intros; lia. }
        split.
        { constructor; [simpl; lia|].
          eapply Forall_impl; [|exact Hsn]. simpl. intros; lia. }
        split.
        { intros r [<- | Hin]; rewrite signalled_app.
          - simpl. rewrite <- Hok. reflexivity.
          - rewrite Hfar, (Hoks r Hin); [reflexivity|].
            rewrite Forall_forall in Hsn. apply Hsn in Hin. lia. }
        split.
        { intros r [<- | Hin]; [discriminate|]. apply Hturns, Hin. }
        intros [|r1 pre] r post Heq Hrok.
        -- injection Heq as <- _. simpl. rewrite Nat.add_0_r.
           apply Hans. reflexivity.
        -- injection Heq as <- Heq. simpl.
           replace (g + (k + list_sum (map turns pre)) + turns r)%nat
             with (g + k + list_sum (map turns pre) + turns r)%nat by lia.
           eapply Hlast; eassumption.
      * subst rw. unfold bind, log, ret. cbn [fst snd web_events substep_results].
        exists [mkSubstepResult idx sub false k], evs1.
        split; [exact Hr|]. split; [exact He1|].
        split; [eapply Forall_impl; [|exact Hs1]; simpl; intros e ->; lia|].
        split; [repeat constructor|].
        split; [intros r [<- | []]; exact Hok|].
        split.
        { intros r [<- | []] _. simpl. specialize (Hout eq_refl). lia. }
        intros [|r1 [|r2 pre]] r post Heq Hrok; try discriminate.
        injection Heq as <- _. discriminate Hrok.
    + subst rw. cbn [fst snd]. exists [], evs1.
      rewrite app_nil_r. split; [exact Hr|]. split; [exact He1|].
      split; [eapply Forall_impl; [|exact Hs1]; simpl; intros e' ->; lia|].
      split; [constructor|].
      split; [intros r []|]. split; [intros r []|].
      intros [|? ?] r post; discriminate.
Qed.

(** A run: what its results say about the signals received. *)
Lemma sequencing_signals (hints : list string) (steps_spec : list SubGoal)
    (history : list Call) summary w :
  run_agent_loop cfg hints steps_spec (initial_world history) = (Ok summary, w) ->
  (forall r, In r (substep_results w) ->
             ok r = signalled (index r) (web_events w))
  /\ (forall pre r post,
        substep_results w = pre ++ r :: post -> ok r = true ->
        answers_with_signal (list_sum (map turns pre) + turns r))
  /\ (forall r, In r (substep_results w) -> ok r = false ->
                turns r = Z.to_nat (MAX_AGENT_STEPS cfg)).
Proof.
  unfold run_agent_loop, try_except. unfold bind at 1.
  set (w0 := snd (log LogRecordingStarted (initial_world history))).
  change (log LogRecordingStarted (initial_world history)) with (Ok tt, w0).
  cbv iota. unfold bind at 1.
  destruct (run_substeps_signal hints steps_spec 1 0 w0)
    as (new & evs & Hr & He & _ & _ & Hoks & Hturns & Hlast).
  simpl in Hr, He.
  assert (Hgoal : forall w1,
            substep_results w1 = new -> web_events w1 = evs ->
            (forall r, In r (substep_results w1) ->
                       ok r = signalled (index r) (web_events w1))
            /\ (forall pre r post,
                  substep_results w1 = pre ++ r :: post -> ok r = true ->
                  answers_with_signal (list_sum (map turns pre) + turns r))
            /\ (forall r, In r (substep_results w1) -> ok r = false ->
                          turns r = Z.to_nat (MAX_AGENT_STEPS cfg))).
  { intros w1 -> ->. split; [exact Hoks|]. split; [|exact Hturns].
    intros pre r post Heq Hrok. apply (Hlast pre r post Heq Hrok). }
  destruct (run_substeps cfg hints 1 steps_spec 0 w0) as [[g|e] w1];
    cbn [snd] in Hr, He.
  - intros [= _ <-]. apply Hgoal; assumption.
  - unfold bind, log, ret. intros [= _ <-]. apply Hgoal; assumption.
Qed.

(** A run in which the provider gives no success signal during the first
    sub-goal's budget: the first sub-goal fails by exhaustion and is the
    only one that runs. *)
Lemma sequencing_silent (hints : list string) (first : SubGoal)
    (rest : list SubGoal) (history : list Call) summary w :
  let budget := Z.to_nat (MAX_AGENT_STEPS cfg) in
  run_agent_loop cfg hints (first :: rest) (initial_world history)
    = (Ok summary, w) ->
  silent 0 budget ->
  summary_ok summary = false
  /\ Forall (eq 1%nat) (turn_lines (step_logs w))
  /\ match errors summary with
     | [] => substep_results w = [mkSubstepResult 1 first false budget]
             /\ turn_lines (step_logs w) = repeat 1%nat budget
     | _ :: _ => substep_results w = []
     end.
Proof.
  intros budget. unfold run_agent_loop, try_except. unfold bind at 1.
  set (w0 := snd (log LogRecordingStarted (initial_world history))).
  change (log LogRecordingStarted (initial_world history)) with (Ok tt, w0).
  cbv iota. unfold bind at 1. cbn [run_substeps]. unfold bind at 1.
  destruct (run_substep_spec cfg hints 1 first 0 w0) as (k & Hk & Hl & Hr).
  destruct (run_substep_signal hints 1 first 0 w0) as (evs & _ & _ & Hsig).
  assert (Hall : Forall (eq 1%nat) (repeat 1%nat k)).
  { apply Forall_forall. intros i Hi. apply repeat_spec in Hi. auto. }
  destruct (run_substep cfg hints 1 first 0 w0) as [[[sub_ok g']|e] w1];
    cbn [fst snd] in Hl, Hr, Hsig.
  - destruct Hr as (Hr & -> & Hout). destruct Hsig as [_ Hans].
    intros Hrun Hsilent.
    assert (Hok : sub_ok = false).
    { destruct sub_ok; [|reflexivity].
      destruct (Hans eq_refl) as [(m & width & height & items & Hturn & Hi) Hlt].
      assert (Hle : (0 + k <= budget)%nat) by (subst budget; lia).
      rewrite (Hsilent _ _ _ _ _ (conj Hlt Hle) Hturn) in Hi.
      discriminate Hi. }
    subst sub_ok. specialize (Hout eq_refl).
    assert (Hkb : k = budget) by (subst budget; lia). subst k.
    cbn [negb] in Hrun. unfold bind, log, ret in Hrun.
    cbn [fst snd substep_results step_logs] in Hrun.
    injection Hrun as <- <-.
    cbn [summary_ok errors substep_results step_logs].
    rewrite Hr, turn_lines_app, Hl. simpl. rewrite app_nil_r.
    split; [reflexivity|]. split; [exact Hall|]. split; reflexivity.
  - unfold bind, log, ret. intros [= <- <-] _.
    cbn [summary_ok errors substep_results step_logs].
    rewrite Hr, turn_lines_app, Hl. simpl. rewrite app_nil_r.
    split; [reflexivity|]. split; [exact Hall|reflexivity].
Qed.

(** C2. A run of the agent loop ends with a summary, whatever happens
    inside.  The results recorded are those of a prefix of the sub-goal
    sequence, in order, numbered from 1.  The summary's success flag is set
    exactly when every sub-goal of the sequence has its result recorded and
    every result reports success.  Once a sub-goal has ended without
    success, no later sub-goal runs a turn: every turn of the run belongs to
    that sub-goal or to an earlier one.  A result reports success exactly
    when the report holds a successful [end_test] event of its sub-goal, and
    then the provider's answer to the last turn of that sub-goal held an
    [end_test] item with success true; a result reports failure only when
    the sub-goal has spent its turn budget.  In particular, when the provider
    gives no such item during the first sub-goal's budget, the run fails,
    every turn of the run is a turn of sub-goal 1 and, unless an exception
    ended the run, the one result recorded is the failure of sub-goal 1 after
    the whole budget. *)
Theorem sub_goal_sequencing (hints : list string)
    (steps_array : option (list SubGoal)) (top : SubGoal)
    (history : list Call) :
  let steps_spec := steps_spec_of steps_array top in
  let budget := Z.to_nat (MAX_AGENT_STEPS cfg) in
  exists summary w results,
    run_agent_loop cfg hints steps_spec (initial_world history) = (Ok summary, w)
    /\ substep_results w = results
    /\ map index results = seq 1 (List.length results)
    /\ map texts results = firstn (List.length results) steps_spec
    /\ (summary_ok summary = true <->
        List.length results = List.length steps_spec
        /\ Forall (fun r => ok r = true) results)
    /\ (forall r i,
          In r results -> ok r = false ->
          In i (turn_lines (step_logs w)) -> (i <= index r)%nat)
    /\ (forall r, In r results -> ok r = signalled (index r) (web_events w))
    /\ (forall pre r post,
          results = pre ++ r :: post -> ok r = true ->
          answers_with_signal (list_sum (map turns pre) + turns r))
    /\ (forall r, In r results -> ok r = false -> turns r = budget)
    /\ (forall first rest,
          steps_spec = first :: rest -> silent 0 budget ->
          summary_ok summary = false
          /\ Forall (eq 1%nat) (turn_lines (step_logs w))
          /\ match errors summary with
             | [] => results = [mkSubstepResult 1 first false budget]
                     /\ turn_lines (step_logs w) = repeat 1%nat budget
             | _ :: _ => results = []
             end).
Proof.
  intros steps_spec budget.
  destruct (sequencing_of_nonempty cfg hints steps_spec history)
    as (summary & w & results & Hrun & Hres & Hidx & Htexts & Hok & Hlater).
  { subst steps_spec. destruct steps_array as [[|first rest]|]; discriminate. }
  destruct (sequencing_signals hints steps_spec history summary w Hrun)
    as (Hsig & Hans & Hturns).
  exists summary, w, results. rewrite Hres in Hsig, Hans, Hturns.
  repeat (split; [assumption|]).
  intros first rest Hsteps Hsilent. rewrite Hsteps in Hrun.
  rewrite <- Hres.
  exact (sequencing_silent hints first rest history summary w Hrun Hsilent).
Qed.

End Signals.

(** *** Completion signals *)

Section EndTest.
Context `{Builtins} `{Emulator} `{Backend}.
Variable cfg : Config.

(** C3. An [end_test] item whose success is false (or missing) is logged
    and skipped: the items after it are processed from the same state, the
    log line apart, so the sub-goal goes on.  An [end_test] item with
    success true ends the processing of the turn at once, whatever items
    follow it, with the sub-goal marked finished and successful; the final
    screenshot is attempted and its failure does not raise.  The turn loop's
    guard then fails and the sub-goal's result is success. *)
Theorem end_test_items (ctx : TurnCtx) (rest : list LLMOutputItem)
    (v : SubVars) (t : TurnVars) (w : World) (txt : option string)
    (act : option value) :
  process_items cfg ctx (mkItem END_TEST txt act (Some false) :: rest) v t w
    = process_items cfg ctx rest v t (logged LogIgnoredEndTest w)
  /\ process_items cfg ctx (mkItem END_TEST txt act None :: rest) v t w
     = process_items cfg ctx rest v t (logged LogIgnoredEndTest w)
  /\ process_items cfg ctx (mkItem END_TEST txt act (Some true) :: rest) v t w
     = (Ok (set_finished v, t),
        end_test_world ctx (reason_text t "Model invoked end_test") w)
  /\ finished (set_finished v) = true
  /\ sub_ok_of (set_finished v) = true
  /\ may_continue cfg (set_finished v) = false.
Proof.
  split; [reflexivity|]. split; [reflexivity|].
  split; [|split; [reflexivity|split; [reflexivity|]]].
  - simpl. unfold process_item, bind, try_except, checked, end_test_world.
    simpl.
    destruct (command_fails (calls w)
                (screenshot (EndTestShot (global_turn_index ctx))));
      reflexivity.
  - unfold may_continue. simpl. apply andb_false_r.
Qed.

End EndTest.

(** *** The repetition guard *)

Section Repetition.
Context `{Builtins} `{Emulator} `{Backend}.
Variable cfg : Config.

Hypothesis device_ok : forall history c, command_fails history c = false.
Hypothesis wait_ok : sleep_check (WAIT_BETWEEN_ACTIONS cfg) = Ok tt.













End Repetition.

(** *** At concrete inputs *)



(** The first of two sub-goals runs out of its three turns: the second
    never runs a turn and the run fails. *)
Example first_sub_goal_times_out :
  let run := @run_agent_loop builtins steady_device idle_provider
               (mkConfig 3 (FFin (3 # 2))) []
               [sub_goal "open settings"; sub_goal "enable wifi"]
               (initial_world []) in
  fst run = Ok (mkSummary false [] 3
                  (Some [mkSubstepResult 1 (sub_goal "open settings") false 3]))
  /\ substep_results (snd run)
     = [mkSubstepResult 1 (sub_goal "open settings") false 3]
  /\ turn_lines (step_logs (snd run)) = [1; 1; 1]%nat.
Proof. vm_compute. repeat split. Qed.

(** Success on turns 2 and 3: the first sub-goal takes two turns, the
    second one, and the run succeeds. *)
Example both_sub_goals_succeed :
  let run := @run_agent_loop builtins steady_device (scripted_provider [2; 3]%nat)
               (mkConfig 3 (FFin (3 # 2))) []
               [sub_goal "open settings"; sub_goal "enable wifi"]
               (initial_world []) in
  fst run = Ok (mkSummary true [] 3
                  (Some [mkSubstepResult 1 (sub_goal "open settings") true 2;
                         mkSubstepResult 2 (sub_goal "enable wifi") true 1]))
  /\ turn_lines (step_logs (snd run)) = [1; 1; 2]%nat.
Proof. vm_compute. repeat split. Qed.

(** A rejected tap raises out of the first turn: the run ends as failed
    with the error recorded and no sub-goal result. *)
Example device_error_fails_the_run :
  let run := @run_agent_loop builtins tap_failing_device stuck_provider
               default_config [] [sub_goal "open settings"] (initial_world []) in
  fst run = Ok (mkSummary false [RuntimeError] 0 None)
  /\ substep_results (snd run) = []
  /\ turn_lines (step_logs (snd run)) = [1]%nat.
Proof. vm_compute. repeat split. Qed.

(** C5, as the specification states it, fails: for an action of an
    unrecognized type the executor returns [None], not an error result. *)
Lemma unrecognized_action_reports_no_error :
  in_strs (get hover "type") recognized_kinds = false
  /\ map_computer_action hover empty_world = (Ok None, empty_world)
  /\ ~ (exists status,
          fst (map_computer_action hover empty_world) = Ok (Some status)).
Proof.
  split; [reflexivity|]. split; [reflexivity|].
  intros [status Hs]. discriminate Hs.
Qed.

(** At a concrete input: a turn in which the provider asks for the unknown
    action. *)
Lemma unrecognized_action_is_skipped_witness :
  map_computer_action hover first_world = (Ok None, first_world)
  /\ @process_item builtins steady_device default_config ctx0
       (computer_action hover) fresh_sub_vars fresh_turn_vars first_world
     = (Ok (track (json_dumps_sorted (VDict hover)) fresh_sub_vars,
            count_action fresh_turn_vars, Next),
        mkWorld (calls first_world ++ [wait (WAIT_BETWEEN_ACTIONS default_config)])
                (step_logs first_world ++ [LogAction (VDict hover)])
                (web_events first_world) (substep_results first_world))
  /\ turns_this_sub (vars hover_final)
     = S (turns_this_sub (vars (first_state (sub_goal "open settings")))).
Proof.
  destruct (@unrecognized_action_is_skipped builtins steady_device
              hover_provider default_config hover first_world ctx0
              fresh_sub_vars fresh_turn_vars 1%nat
              (first_state (sub_goal "open settings")))
    as (Hnone & Hitem & Hturn); [reflexivity|].
  split; [exact Hnone|]. split.
  - apply Hitem; [vm_compute; lia|reflexivity].
  - apply (Hturn first_world hover_final (snd hover_turn)).
    vm_compute. reflexivity.
Defined.

(** At a concrete input: a sub-goal under the idle provider and the default
    budget of 250 turns. *)
Lemma turn_budget_witness :
  MAX_AGENT_STEPS default_config = 250%Z
  /\ (exists k,
        (Z.of_nat k <= Z.max 0 (MAX_AGENT_STEPS default_config))%Z
        /\ turn_lines
             (step_logs
                (snd (@run_substep builtins steady_device idle_provider
                        default_config [] 1 (sub_goal "open settings") 0
                        empty_world)))
           = turn_lines (step_logs empty_world) ++ repeat 1%nat k)
  /\ finished (vars idle_final) = false
  /\ turns_this_sub (vars idle_final) = 250%nat
  /\ @run_substep builtins steady_device idle_provider default_config []
       1 (sub_goal "open settings") 0 empty_world
     = (Ok (false, 250%nat),
        mkWorld (calls (snd idle_loop)) (step_logs (snd idle_loop))
          (web_events (snd idle_loop))
          (substep_results (snd idle_loop)
           ++ [mkSubstepResult 1 (sub_goal "open settings") false 250]))
  /\ (false = false -> 250%nat = (0 + 250)%nat).
Proof.
  pose proof (@turn_budget builtins steady_device idle_provider default_config
                [] 1%nat (sub_goal "open settings") 0%nat empty_world)
    as (Hdefault & Hbound & Hspent & Hreturned).
  split; [exact Hdefault|]. split; [exact Hbound|].
  cbv zeta in Hspent.
  assert (Hsilent : @silent idle_provider 0
                      (0 + Z.to_nat (MAX_AGENT_STEPS default_config))).
  { intros n msgs width height items _ [= <-]. reflexivity. }
  specialize (Hspent eq_refl Hsilent).
  assert (Hloop : @turn_loop builtins steady_device idle_provider
                    default_config 1
                    (mkLoopState fresh_sub_vars 0
                       (mkMessages (sub_goal "open settings", []) NoNote))
                    (record (screenshot TempFile) empty_world)
                  = (Ok idle_final, snd idle_loop))
    by (vm_compute; reflexivity).
  rewrite Hloop in Hspent. destruct Hspent as (Hf & Hn & Hrun).
  split; [exact Hf|]. split; [exact Hn|]. split; [exact Hrun|].
  destruct (Hreturned _ _ _ Hrun) as (_ & Hfailed & _). exact Hfailed.
Defined.

(** At a concrete input: two sub-goals, a budget of three turns and a
    provider that never signals success. *)
Lemma sub_goal_sequencing_witness :
  let run := @run_agent_loop builtins steady_device idle_provider
               (mkConfig 3 (FFin (3 # 2))) []
               [sub_goal "open settings"; sub_goal "enable wifi"]
               (initial_world []) in
  exists summary,
    fst run = Ok summary
    /\ summary_ok summary = false
    /\ Forall (eq 1%nat) (turn_lines (step_logs (snd run)))
    /\ substep_results (snd run)
       = [mkSubstepResult 1 (sub_goal "open settings") false 3]
    /\ turn_lines (step_logs (snd run)) = repeat 1%nat 3.
Proof.
  intros run.
  pose proof (@sub_goal_sequencing builtins steady_device idle_provider
                (mkConfig 3 (FFin (3 # 2))) []
                (Some [sub_goal "open settings"; sub_goal "enable wifi"])
                (sub_goal "") []) as Hseq.
  cbv zeta in Hseq.
  destruct Hseq as (summary & w & results & Hrun & Hres
                    & _ & _ & _ & _ & _ & _ & _ & Hsilent).
  destruct (Hsilent (sub_goal "open settings") [sub_goal "enable wifi"] eq_refl)
    as (Hok & Hall & Herr).
  { intros n msgs width height items _ [= <-]. reflexivity. }
  assert (Hw : run = (Ok summary, w)) by exact Hrun.
  assert (Herrors : errors summary = []).
  { assert (Hfst : fst run = Ok summary) by (rewrite Hw; reflexivity).
    vm_compute in Hfst. injection Hfst as <-. reflexivity. }
  rewrite Herrors in Herr. destruct Herr as [Hr Ht].
  exists summary. rewrite Hw. cbn [fst snd]. rewrite Hres.
  split; [reflexivity|]. split; [exact Hok|]. split; [exact Hall|].
  split; [exact Hr|exact Ht].
Defined.

End AgentFacts.


Module ActionsMore.
Import Py Device Trace Actions Shape.
Local Open Scope string_scope.
Local Open Scope list_scope.

Lemma single_ret {A} (a : A) : single_call (ret a).
Proof.
  intros w. simpl. repeat split; auto.
  exists []. rewrite app_nil_r. split; [reflexivity|simpl; lia].
Qed.

Lemma single_raise {A} e : single_call (@raise A e).
Proof.
  intros w. simpl. repeat split; auto.
  exists []. rewrite app_nil_r. split; [reflexivity|simpl; lia].
Qed.

Lemma single_lift_bind {A B} (r : result A) (k : A -> M B) :
  (forall a, single_call (k a)) -> single_call (bind (lift r) k).
Proof.
  intros Hk w. unfold bind, lift. destruct r as [a|e].
  - apply Hk.
  - simpl. repeat split; auto.
    exists []. rewrite app_nil_r. split; [reflexivity|simpl; lia].
Qed.

Lemma single_checked `{Emulator} c : single_call (checked c).
Proof.
  intros w. unfold checked.
  destruct (command_fails (calls w) c); simpl; repeat split; auto;
    try (exists [c]; split; [reflexivity|simpl; lia]).
  - intros e [= <-] He. contradiction.
  - intros e He. discriminate.
Qed.

Lemma single_device_wait f : single_call (device_wait f).
Proof.
  intros w. unfold device_wait, bind, lift, quiet.
  destruct (sleep_check f) as [[]|e]; simpl; repeat split; auto;
    try (intros; discriminate).
  - exists [wait f]. split; [reflexivity|simpl; lia].
  - exists []. rewrite app_nil_r. split; [reflexivity|simpl; lia].
Qed.

Section Dispatch.
Context `{Builtins} `{Emulator}.

Lemma single_int_at_bind {B} step k (f : Z -> M B) :
  (forall a, single_call (f a)) -> single_call (bind (int_at step k) f).
Proof.
  intros Hf. unfold int_at.
  intros w. unfold bind at 1 2. unfold lift at 1.
  destruct (subscript step k) as [v|e]; simpl.
  - apply (single_lift_bind (py_int v) f Hf w).
  - repeat split; auto.
    exists []. rewrite app_nil_r. split; [reflexivity|simpl; lia].
Qed.

Ltac single_steps :=
  repeat first
    [ apply single_ret | apply single_raise | apply single_checked
    | apply single_device_wait
    | apply single_lift_bind; intro
    | apply single_int_at_bind; intro ].

(** X1. Whatever the command dictionary holds and however the device
    answers, [execute_command] makes at most one device call and changes
    nothing else; and when it raises anything but the device's own
    [RuntimeError] (a missing key, a value of the wrong type, an unknown
    command), the device has not been touched. *)
Theorem execute_command_single_call (step : dict) (package : string)
    (w : World) :
  let run := execute_command step package w in
  (exists cs,
     calls (snd run) = calls w ++ cs /\ (List.length cs <= 1)%nat)
  /\ step_logs (snd run) = step_logs w
  /\ web_events (snd run) = web_events w
  /\ substep_results (snd run) = substep_results w
  /\ (forall e, fst run = Raise e -> e <> RuntimeError -> snd run = w).
Proof.
  assert (Hs : single_call (execute_command step package)).
  { unfold execute_command.
    repeat match goal with
           | |- single_call (if ?b then _ else _) => destruct b
           end; single_steps. }
  exact (Hs w).
Qed.

(** X2. A tap, swipe, input_text or screenshot command that lacks one of
    the keys it needs raises, and nothing is sent to the device. *)
Theorem execute_command_missing_key (step : dict) (package : string)
    (w : World) (cmd key : string) :
  get step "cmd" = VStr cmd ->
  In key (Tables.required_keys cmd) ->
  lookup step key = None ->
  exists e, execute_command step package w = (Raise e, w).
Proof.
  intros Hcmd Hin Hkey. unfold execute_command. rewrite Hcmd.
  unfold Tables.required_keys in Hin. unfold eq_str. simpl truthy.
  destruct (String.eqb_spec cmd "") as [->|_]; [contradiction|].
  simpl negb. cbv iota.
  destruct (String.eqb_spec cmd "wait") as [->|_]; [contradiction|].
  destruct (String.eqb_spec cmd "tap") as [->|_].
  { unfold int_at, bind, lift, subscript.
    destruct Hin as [<- | [<- | []]].
    - rewrite Hkey. simpl. eauto.
    - destruct (lookup step "x") as [v|]; [|simpl; eauto].
      destruct (py_int v); [|simpl; eauto]. rewrite Hkey. simpl. eauto. }
  destruct (String.eqb_spec cmd "swipe") as [->|_].
  { unfold int_at, bind, lift, subscript.
    destruct (lookup step "x1") as [v1|] eqn:E1; [|simpl; eauto].
    destruct (py_int v1); [|simpl; eauto].
    destruct (lookup step "y1") as [v2|] eqn:E2; [|simpl; eauto].
    destruct (py_int v2); [|simpl; eauto].
    destruct (lookup step "x2") as [v3|] eqn:E3; [|simpl; eauto].
    destruct (py_int v3); [|simpl; eauto].
    destruct (lookup step "y2") as [v4|] eqn:E4; [|simpl; eauto].
    exfalso. simpl in Hin.
    destruct Hin as [<- | [<- | [<- | [<- | []]]]]; congruence. }
  destruct (String.eqb_spec cmd "input_text") as [->|_].
  { destruct Hin as [<- | []].
    unfold bind, lift, subscript. rewrite Hkey. simpl. eauto. }
  destruct (String.eqb_spec cmd "keyevent") as [->|_]; [contradiction|].
  destruct (String.eqb_spec cmd "back") as [->|_]; [contradiction|].
  destruct (String.eqb_spec cmd "home") as [->|_]; [contradiction|].
  destruct (String.eqb_spec cmd "screenshot") as [->|_].
  { destruct Hin as [<- | []].
    unfold bind, lift, subscript. rewrite Hkey. simpl. eauto. }
  simpl in Hin. contradiction.
Qed.

Lemma succeeds_ret : succeeds (ret (Some "success")).
Proof. intros w o w' [= <- _]. reflexivity. Qed.

Lemma succeeds_bind {A} (m : M A) k :
  (forall a, succeeds (k a)) -> succeeds (bind m k).
Proof.
  intros Hk w o w'. unfold bind.
  destruct (m w) as [[a|e] w1]; [apply Hk|discriminate].
Qed.

Lemma reports_succeeds m : succeeds m -> reports m.
Proof. intros Hs w o w' Hr. left. eapply Hs, Hr. Qed.

Lemma reports_error status :
  is_error status = true -> reports (ret (Some status)).
Proof.
  intros He w o w' [= <- <-]. right. split; [reflexivity|]. right. eauto.
Qed.

Lemma reports_none : reports (ret None).
Proof. intros w o w' [= <- <-]. right. auto. Qed.

Lemma reports_lift_bind {A} (r : result A) k :
  (forall a, reports (k a)) -> reports (bind (lift r) k).
Proof.
  intros Hk w o w'. unfold bind, lift.
  destruct r as [a|e]; [apply Hk|discriminate].
Qed.

Ltac succeeds_steps :=
  repeat first [ apply succeeds_ret | apply succeeds_bind; intro ].

Lemma map_computer_action_reports action :
  reports (map_computer_action action).
Proof.
  unfold map_computer_action.
  repeat match goal with
         | |- reports (if ?b then _ else _) => destruct b
         | |- reports (bind (lift _) _) => apply reports_lift_bind; intro
         | |- reports (let '(_, _) := ?x in _) => destruct x
         | |- reports (ret None) => apply reports_none
         | |- reports (ret (Some _)) =>
             first [ apply reports_error; reflexivity
                   | apply reports_succeeds, succeeds_ret ]
         | |- reports (bind _ _) => apply reports_succeeds; succeeds_steps
         end.
Qed.

(** X3. [map_computer_action] returns the status "success", an error
    status, or no status; with an error status or none, it has done nothing:
    no device call was made before the status was decided. *)
Theorem map_computer_action_status (action : dict) (w : World) :
  forall o w',
    map_computer_action action w = (Ok o, w') ->
    o = Some "success"
    \/ (w' = w
        /\ (o = None
            \/ exists status, o = Some status /\ is_error status = true)).
Proof. exact (map_computer_action_reports action w). Qed.

Lemma has_status_ret s : has_status (ret (Some s)).
Proof. intros w o w' [= <- _]. discriminate. Qed.

Lemma has_status_bind {A} (m : M A) k :
  (forall a, has_status (k a)) -> has_status (bind m k).
Proof.
  intros Hk w o w'. unfold bind.
  destruct (m w) as [[a|e] w1]; [apply Hk|discriminate].
Qed.

Ltac has_status_steps :=
  repeat first
    [ apply has_status_ret
    | apply has_status_bind; intro
    | match goal with
      | |- has_status (if ?b then _ else _) => destruct b
      | |- has_status (let '(_, _) := ?x in _) => destruct x
      end ].

(** X4. [map_computer_action] returns no status exactly for the actions
    whose type is none of the eight recognized kinds: every recognized
    action gets "success" or an error string, or raises. *)
Theorem map_computer_action_none_iff (action : dict) (w : World) :
  (exists w', map_computer_action action w = (Ok None, w'))
  <-> in_strs (get action "type") recognized_kinds = false.
Proof.
  split.
  - intros [w' Hrun]. revert Hrun. unfold map_computer_action.
    unfold in_strs, recognized_kinds. cbn [existsb].
    repeat match goal with
           | |- context [if eq_str (get action "type") ?s then _ else _] =>
               destruct (eq_str (get action "type") s) eqn:?
           end;
      try match goal with
          | |- ?m w = _ -> _ =>
              let Hr := fresh "Hr" in
              let K := fresh "K" in
              intros Hr; exfalso;
              assert (K : has_status m) by has_status_steps;
              exact (K _ _ _ Hr eq_refl)
          end.
    intros _. reflexivity.
  - intros Hn. exists w.
    apply ActionsFacts.map_computer_action_unrecognized, Hn.
Qed.

(** X5. A drag given by a path alone, as the OpenAI backend sends it: with
    no [x2]/[y2] and a path whose first and last points carry integer
    coordinates, the device swipes from the first point of the path to the
    last, over the default 300 ms. *)
Theorem drag_along_path (action start end_ : dict) (middle : list value)
    (sx sy ex ey : Z) (w : World) :
  eq_str (get action "type") "drag" = true ->
  lookup action "x2" = None ->
  lookup action "duration_ms" = None ->
  get action "path" = VList (VDict start :: middle ++ [VDict end_]) ->
  get start "x" = VInt sx -> get start "y" = VInt sy ->
  get end_ "x" = VInt ex -> get end_ "y" = VInt ey ->
  command_fails (calls w) (swipe sx sy ex ey 300) = false ->
  map_computer_action action w
    = (Ok (Some "success"), record (swipe sx sy ex ey 300) w).
Proof.
  intros Ht Hx2 Hd Hp Hsx Hsy Hex Hey Hok.
  unfold map_computer_action.
  assert (Hclick : eq_str (get action "type") "click" = false)
    by (destruct (get action "type"); try discriminate;
        apply String.eqb_eq in Ht; subst; reflexivity).
  assert (Hdouble : eq_str (get action "type") "double_click" = false)
    by (destruct (get action "type"); try discriminate;
        apply String.eqb_eq in Ht; subst; reflexivity).
  rewrite Hclick, Hdouble, Ht.
  assert (Hg2 : get action "x2" = VNone)
    by (unfold get, get_default; rewrite Hx2; reflexivity).
  unfold get_default at 1. rewrite Hd. rewrite Hg2.
  unfold bind at 1. unfold lift at 1. simpl py_int. cbv iota.
  simpl orb. cbv iota.
  unfold drag_from_path. rewrite Hp.
  assert (Hlast : last (VDict start :: middle ++ [VDict end_]) VNone
                  = VDict end_).
  { change (VDict start :: middle ++ [VDict end_])
      with ((VDict start :: middle) ++ [VDict end_]).
    apply last_last. }
  simpl orb. cbv iota.
  destruct (middle ++ [VDict end_]) as [|second rest] eqn:Etail.
  { destruct middle; discriminate. }
  rewrite Hlast. unfold get_default.
  unfold get, get_default in Hsx, Hsy.
  destruct (lookup start "x") as [vx|]; [|discriminate]. subst vx.
  destruct (lookup start "y") as [vy|]; [|discriminate]. subst vy.
  rewrite Hex, Hey. simpl.
  unfold bind, lift, checked. simpl. rewrite Hok. reflexivity.
Qed.

End Dispatch.

(** At concrete inputs. *)

Lemma execute_command_missing_key_witness :
  exists e,
    @execute_command Demo.builtins Demo.steady_device
      [("cmd", VStr "tap"); ("x", VInt 540)] "com.example.app" empty_world
    = (Raise e, empty_world).
Proof.
  apply (execute_command_missing_key
           [("cmd", VStr "tap"); ("x", VInt 540)] "com.example.app"
           empty_world "tap" "y").
  - reflexivity.
  - simpl. tauto.
  - reflexivity.
Defined.

Lemma map_computer_action_status_witness :
  Some "error: missing coordinates" = Some "success"
  \/ (empty_world = empty_world
      /\ (Some "error: missing coordinates" = None
          \/ exists status,
               Some "error: missing coordinates" = Some status
               /\ is_error status = true)).
Proof.
  apply (@map_computer_action_status Demo.builtins Demo.steady_device
           [("type", VStr "click"); ("x", VInt 5)] empty_world).
  reflexivity.
Defined.

Lemma drag_along_path_witness :
  @map_computer_action Demo.builtins Demo.steady_device
    [("type", VStr "drag");
     ("path", VList [VDict [("x", VInt 10); ("y", VInt 20)];
                     VDict [("x", VInt 15); ("y", VInt 60)];
                     VDict [("x", VInt 30); ("y", VInt 90)]])]
    empty_world
  = (Ok (Some "success"), record (swipe 10 20 30 90 300) empty_world).
Proof.
  apply (drag_along_path _ [("x", VInt 10); ("y", VInt 20)]
           [("x", VInt 30); ("y", VInt 90)]
           [VDict [("x", VInt 15); ("y", VInt 60)]]);
    reflexivity.
Defined.

End ActionsMore.

Module ClaudeMore.
Import Py Device Trace Actions Claude.
Local Open Scope string_scope.
Local Open Scope list_scope.

Section Normalize.
Context `{Builtins} `{Emulator}.

(** Case analysis on the action name of a payload. *)
Ltac by_action inp :=
  unfold _normalize_action;
  repeat match goal with
         | |- context [if ?b then _ else _] =>
             lazymatch b with
             | in_strs (get_default inp "action" _) _ => destruct b eqn:?
             | eq_str (get_default inp "action" _) _ => destruct b eqn:?
             end
         end.

(** X6. Every action the Claude normalizer produces is of a kind the
    executor recognizes: run on it, [map_computer_action] never comes back
    without a status. *)
Theorem normalized_kind_is_recognized (inp out : dict) :
  _normalize_action inp = Ok out ->
  in_strs (get out "type") recognized_kinds = true.
Proof.
  by_action inp;
    repeat (cbn [and_then];
            match goal with
            | |- context [unpack2 ?v] => destruct (unpack2 v) as [[? ?]|?]
            | |- context [py_int ?v] => destruct (py_int v)
            | |- context [if ?b then _ else _] => destruct b
            end);
    cbn [and_then]; try discriminate; intros [= <-]; reflexivity.
Qed.

(** X7. A normalized scroll moves along one axis only, by 100 pixels per
    unit of the amount, which is 3 when the payload names none; a direction
    other than down, up, right or left gives no movement at all. *)
Theorem normalized_scroll_delta (inp out : dict) :
  eq_str (get_default inp "action" (VStr "")) "scroll" = true ->
  _normalize_action inp = Ok out ->
  exists amount dx dy,
    py_int (get_default inp "scroll_amount" (VInt 3)) = Ok amount
    /\ get out "scroll_x" = VInt dx /\ get out "scroll_y" = VInt dy
    /\ (dx = 0 \/ dy = 0)%Z
    /\ (match get_default inp "scroll_direction" (VStr "down") with
        | VStr direction => (dx, dy) = Tables.scroll_vector direction amount
        | _ => (dx, dy) = (0, 0)%Z
        end).
Proof.
  intros Ha. unfold _normalize_action.
  assert (Hnot : forall s, s <> "scroll" ->
                 eq_str (get_default inp "action" (VStr "")) s = false).
  { intros s Hs. destruct (get_default inp "action" (VStr ""));
      try reflexivity. simpl in *. apply String.eqb_eq in Ha. subst.
    apply String.eqb_neq. congruence. }
  unfold in_strs. cbn [existsb].
  rewrite !Hnot by discriminate. rewrite Ha. simpl orb. cbv iota.
  destruct (unpack2 _) as [[x y]|e]; simpl; [|discriminate].
  destruct (py_int (get_default inp "scroll_amount" (VInt 3)))
    as [amount|e]; simpl; [|discriminate].
  unfold Tables.scroll_vector, _SCROLL_STEP.
  destruct (get_default inp "scroll_direction" (VStr "down"))
    as [ | | | |direction| | ]; simpl;
    try (intros [= <-]; exists amount, 0%Z, 0%Z; simpl; auto 6).
  destruct (direction =? "down"); [|destruct (direction =? "up");
    [|destruct (direction =? "right"); [|destruct (direction =? "left")]]];
    intros [= <-]; simpl;
    eexists amount, _, _;
    (split; [reflexivity|split; [reflexivity|split; [reflexivity|]]]);
    (split; [auto|reflexivity]).
Qed.

Lemma unpack_pair_or_origin v :
  Tables.pair_or_nothing v = true -> exists a b, unpack2 (or_else v origin) = Ok (a, b).
Proof.
  unfold or_else. destruct v as [ |b|z|f|s|l|d]; simpl; intros Hp;
    try (eexists _, _; reflexivity).
  - destruct b; [discriminate|eexists _, _; reflexivity].
  - destruct (z =? 0)%Z; [eexists _, _; reflexivity|discriminate].
  - destruct (float_is_zero f); [eexists _, _; reflexivity|discriminate].
  - destruct (s =? ""); [eexists _, _; reflexivity|discriminate].
  - destruct l as [|a [|b [|c l]]]; try discriminate;
      eexists _, _; reflexivity.
  - destruct d; [eexists _, _; reflexivity|discriminate].
Qed.

Lemma unpack_pair_or v a0 b0 :
  Tables.pair_or_nothing v = true ->
  exists a b, unpack2 (or_else v (VList [a0; b0])) = Ok (a, b).
Proof.
  unfold or_else. destruct v as [ |b|z|f|s|l|d]; simpl; intros Hp;
    try (eexists _, _; reflexivity).
  - destruct b; [discriminate|eexists _, _; reflexivity].
  - destruct (z =? 0)%Z; [eexists _, _; reflexivity|discriminate].
  - destruct (float_is_zero f); [eexists _, _; reflexivity|discriminate].
  - destruct (s =? ""); [eexists _, _; reflexivity|discriminate].
  - destruct l as [|a [|b [|c l]]]; try discriminate;
      eexists _, _; reflexivity.
  - destruct d; [eexists _, _; reflexivity|discriminate].
Qed.

Lemma pair_or_nothing_or_else v v' :
  Tables.pair_or_nothing v = true -> Tables.pair_or_nothing v' = true ->
  Tables.pair_or_nothing (or_else v v') = true.
Proof. unfold or_else. intros Hv Hv'. destruct (truthy v); assumption. Qed.

(** X8. The normalizer raises only on a malformed payload: when the
    coordinate and the start coordinate are each a pair or nothing, and the
    scroll amount is absent or converts to an integer, every payload is
    normalized, whatever its action name. *)
Theorem normalize_well_formed (inp : dict) (amount : Z) :
  Tables.pair_or_nothing (get inp "coordinate") = true ->
  Tables.pair_or_nothing (get inp "start_coordinate") = true ->
  py_int (get_default inp "scroll_amount" (VInt 3)) = Ok amount ->
  exists out, _normalize_action inp = Ok out.
Proof.
  intros Hc Hs Ha.
  destruct (unpack_pair_or_origin _ Hc) as (x & y & Hxy).
  destruct (unpack_pair_or_origin _ (pair_or_nothing_or_else _ _ Hs Hc))
    as (sx & sy & Hsxy).
  destruct (unpack_pair_or _ x y Hc) as (ex & ey & Hexy).
  by_action inp;
    repeat (rewrite ?Hxy, ?Hsxy, ?Ha; cbn [and_then]);
    repeat match goal with
           | |- context [if ?b then _ else _] => destruct b
           end;
    repeat (rewrite ?Hexy; cbn [and_then]); eauto.
Qed.

(** *** From a Claude payload to the device *)

Lemma action_is (inp : dict) name :
  eq_str (get_default inp "action" (VStr "")) name = true ->
  get_default inp "action" (VStr "") = VStr name.
Proof.
  destruct (get_default inp "action" (VStr "")); try discriminate.
  simpl. intros Hs. apply String.eqb_eq in Hs. congruence.
Qed.

(** X9. A Claude click with a pair of integers as its coordinate ends as
    one tap at that point, whichever button it names: left, right and middle
    clicks are all taps. *)
Theorem claude_click_taps (inp : dict) (x y : Z) (w : World) :
  in_strs (get_default inp "action" (VStr ""))
          ["left_click"; "right_click"; "middle_click"] = true ->
  get inp "coordinate" = VList [VInt x; VInt y] ->
  command_fails (calls w) (tap x y) = false ->
  exists out,
    _normalize_action inp = Ok out
    /\ map_computer_action out w = (Ok (Some "success"), record (tap x y) w).
Proof.
  intros Ha Hc Hok. unfold _normalize_action. rewrite Ha, Hc.
  eexists. split; [reflexivity|].
  unfold map_computer_action, bind, lift, checked. simpl.
  rewrite Hok. reflexivity.
Qed.

(** X10. A Claude scroll at a pair of integers ends as one swipe that
    starts at that point and moves by 100 pixels per unit along the axis of
    its direction, over 300 ms. *)
Theorem claude_scroll_swipes (inp : dict) (x y amount : Z)
    (direction : string) (w : World) :
  eq_str (get_default inp "action" (VStr "")) "scroll" = true ->
  get inp "coordinate" = VList [VInt x; VInt y] ->
  py_int (get_default inp "scroll_amount" (VInt 3)) = Ok amount ->
  get_default inp "scroll_direction" (VStr "down") = VStr direction ->
  let '(dx, dy) := Tables.scroll_vector direction amount in
  command_fails (calls w) (swipe x y (x + dx) (y + dy) 300) = false ->
  exists out,
    _normalize_action inp = Ok out
    /\ map_computer_action out w
       = (Ok (Some "success"), record (swipe x y (x + dx) (y + dy) 300) w).
Proof.
  intros Ha Hc Hn Hd. unfold _normalize_action.
  rewrite (action_is _ _ Ha), Hc, Hn, Hd. simpl in_strs. cbv iota.
  simpl eq_str at 1 2 3 4. cbv iota. simpl and_then.
  unfold Tables.scroll_vector, _SCROLL_STEP. simpl eq_str.
  destruct (direction =? "down"); [|destruct (direction =? "up");
    [|destruct (direction =? "right"); [|destruct (direction =? "left")]]];
    intros Hok; (eexists; split; [reflexivity|]);
    unfold map_computer_action, bind, lift, checked; simpl;
    rewrite Hok; reflexivity.
Qed.

(** X11. A Claude drag from one pair of integers to another ends as one
    swipe between the two points; without a start coordinate the swipe
    starts and ends at the one point given. *)
Theorem claude_drag_swipes (inp : dict) (sx sy ex ey : Z) (w : World) :
  eq_str (get_default inp "action" (VStr "")) "left_click_drag" = true ->
  get inp "coordinate" = VList [VInt ex; VInt ey] ->
  (get inp "start_coordinate" = VList [VInt sx; VInt sy]
   \/ (truthy (get inp "start_coordinate") = false /\ sx = ex /\ sy = ey)) ->
  command_fails (calls w) (swipe sx sy ex ey 300) = false ->
  exists out,
    _normalize_action inp = Ok out
    /\ map_computer_action out w
       = (Ok (Some "success"), record (swipe sx sy ex ey 300) w).
Proof.
  intros Ha Hc Hs Hok. unfold _normalize_action.
  rewrite (action_is _ _ Ha), Hc. simpl in_strs. cbv iota.
  simpl eq_str. cbv iota. unfold or_else.
  destruct Hs as [Hs | (Hs & -> & ->)]; rewrite Hs; simpl;
    (eexists; split; [reflexivity|]);
    unfold map_computer_action, bind, lift, checked; simpl;
    rewrite Hok; reflexivity.
Qed.

(** X12. Claude's keyboard actions: the text of a [type] action is typed
    as it is; the text of a [key] action is sent as the key event, and a key
    action without text ends as the missing-key error with the device
    untouched. *)
Theorem claude_keyboard (inp : dict) (text : string) (w : World) :
  lookup inp "text" = Some (VStr text) ->
  (eq_str (get_default inp "action" (VStr "")) "type" = true ->
   command_fails (calls w) (input_text text) = false ->
   exists out,
     _normalize_action inp = Ok out
     /\ map_computer_action out w
        = (Ok (Some "success"), record (input_text text) w))
  /\ (eq_str (get_default inp "action" (VStr "")) "key" = true ->
      exists out,
        _normalize_action inp = Ok out
        /\ map_computer_action out w
           = if String.eqb text ""
             then (Ok (Some "error: missing key"), w)
             else if command_fails (calls w) (keyevent text)
                  then (Raise RuntimeError, record (keyevent text) w)
                  else (Ok (Some "success"), record (keyevent text) w)).
Proof.
  intros Ht. split.
  - intros Ha Hok. unfold _normalize_action.
    rewrite (action_is _ _ Ha). simpl in_strs. cbv iota. simpl eq_str.
    cbv iota. unfold get_default. rewrite Ht.
    eexists. split; [reflexivity|].
    unfold map_computer_action, bind, checked. simpl.
    rewrite Hok. reflexivity.
  - intros Ha. unfold _normalize_action.
    rewrite (action_is _ _ Ha). simpl in_strs. cbv iota. simpl eq_str.
    cbv iota. unfold get_default. rewrite Ht.
    eexists. split; [reflexivity|].
    unfold map_computer_action, or_else, get, get_default, py_str. simpl.
    destruct (text =? "") eqn:Et; cbn; rewrite ?Et; [reflexivity|].
    unfold bind, checked; cbn; rewrite ?Et; cbn.
    destruct (command_fails (calls w) (keyevent text)); reflexivity.
Qed.

(** X13. A Claude wait ends as a pause of one second, whatever else the
    payload says: the normalized action carries no duration and the executor
    falls back to its default. *)
Theorem claude_wait_is_one_second (inp : dict) (w : World) :
  eq_str (get_default inp "action" (VStr "")) "wait" = true ->
  _normalize_action inp = Ok [("type", VStr "wait")]
  /\ map_computer_action [("type", VStr "wait")] w
     = (Ok (Some "success"), record (wait (FFin (inject_Z 1))) w).
Proof.
  intros Ha. unfold _normalize_action.
  rewrite (action_is _ _ Ha). split; reflexivity.
Qed.

End Normalize.

(** At concrete inputs. *)

Lemma normalized_kind_is_recognized_witness :
  in_strs (get [("type", VStr "screenshot")] "type") recognized_kinds = true.
Proof.
  apply (@normalized_kind_is_recognized Demo.builtins
           [("action", VStr "mouse_move"); ("coordinate", VList [VInt 1; VInt 2])]).
  reflexivity.
Defined.

Lemma normalized_scroll_delta_witness :
  exists amount dx dy,
    @py_int Demo.builtins (VInt 2) = Ok amount
    /\ VInt 0 = VInt dx /\ VInt (-200) = VInt dy
    /\ (dx = 0 \/ dy = 0)%Z
    /\ (dx, dy) = Tables.scroll_vector "up" amount.
Proof.
  apply (@normalized_scroll_delta Demo.builtins
           [("action", VStr "scroll"); ("coordinate", VList [VInt 7; VInt 9]);
            ("scroll_direction", VStr "up"); ("scroll_amount", VInt 2)]
           [("type", VStr "scroll"); ("x", VInt 7); ("y", VInt 9);
            ("scroll_x", VInt 0); ("scroll_y", VInt (-200))]);
    reflexivity.
Defined.

Lemma normalize_well_formed_witness :
  exists out,
    @_normalize_action Demo.builtins
      [("action", VStr "left_click_drag");
       ("start_coordinate", VList [VInt 1; VInt 2])] = Ok out.
Proof.
  apply (@normalize_well_formed Demo.builtins _ 3%Z); reflexivity.
Defined.

Lemma claude_click_taps_witness :
  exists out,
    @_normalize_action Demo.builtins
      [("action", VStr "right_click"); ("coordinate", VList [VInt 7; VInt 9])]
    = Ok out
    /\ @map_computer_action Demo.builtins Demo.steady_device out empty_world
       = (Ok (Some "success"), record (tap 7 9) empty_world).
Proof.
  apply (@claude_click_taps Demo.builtins Demo.steady_device); reflexivity.
Defined.

Lemma claude_scroll_swipes_witness :
  exists out,
    @_normalize_action Demo.builtins
      [("action", VStr "scroll"); ("coordinate", VList [VInt 500; VInt 900]);
       ("scroll_direction", VStr "up"); ("scroll_amount", VInt 2)]
    = Ok out
    /\ @map_computer_action Demo.builtins Demo.steady_device out empty_world
       = (Ok (Some "success"),
          record (swipe 500 900 (500 + 0) (900 + - (2 * 100)) 300) empty_world).
Proof.
  apply (@claude_scroll_swipes Demo.builtins Demo.steady_device
           [("action", VStr "scroll"); ("coordinate", VList [VInt 500; VInt 900]);
            ("scroll_direction", VStr "up"); ("scroll_amount", VInt 2)]
           500 900 2 "up" empty_world); reflexivity.
Defined.

Lemma claude_drag_swipes_witness :
  exists out,
    @_normalize_action Demo.builtins Demo.drag_50_50 = Ok out
    /\ @map_computer_action Demo.builtins Demo.steady_device out empty_world
       = (Ok (Some "success"), record (swipe 50 50 50 50 300) empty_world).
Proof.
  apply (@claude_drag_swipes Demo.builtins Demo.steady_device);
    try reflexivity.
  right. repeat split.
Defined.

Lemma claude_keyboard_witness :
  (exists out,
     @_normalize_action Demo.builtins
       [("action", VStr "type"); ("text", VStr "hello")] = Ok out
     /\ @map_computer_action Demo.builtins Demo.steady_device out empty_world
        = (Ok (Some "success"), record (input_text "hello") empty_world))
  /\ exists out,
       @_normalize_action Demo.builtins
         [("action", VStr "key"); ("text", VStr "Return")] = Ok out
       /\ @map_computer_action Demo.builtins Demo.steady_device out empty_world
          = (Ok (Some "success"), record (keyevent "Return") empty_world).
Proof.
  split.
  - apply (@claude_keyboard Demo.builtins Demo.steady_device
             [("action", VStr "type"); ("text", VStr "hello")] "hello");
      reflexivity.
  - apply (@claude_keyboard Demo.builtins Demo.steady_device
             [("action", VStr "key"); ("text", VStr "Return")] "Return"
             empty_world); reflexivity.
Defined.

Lemma claude_wait_is_one_second_witness :
  @_normalize_action Demo.builtins [("action", VStr "wait"); ("duration", VInt 5)]
    = Ok [("type", VStr "wait")]
  /\ @map_computer_action Demo.builtins Demo.steady_device
       [("type", VStr "wait")] empty_world
     = (Ok (Some "success"), record (wait (FFin (inject_Z 1))) empty_world).
Proof.
  apply (@claude_wait_is_one_second Demo.builtins Demo.steady_device).
  reflexivity.
Defined.

End ClaudeMore.

Module SanitizeMore.
Import Sanitize.

(** X14. Sanitizing is idempotent: a sanitized text holds allow-list
    characters only, so sanitizing it again changes nothing.  (The escape
    token itself is made of allow-list characters.) *)
Theorem sanitize_idempotent (text : pystr) :
  _sanitize_text_for_adb_input (_sanitize_text_for_adb_input text)
    = _sanitize_text_for_adb_input text.
Proof.
  apply SanitizeFacts.sanitize_safe_text, SanitizeFacts.sanitize_all_safe.
Qed.

(** X15. Sanitizing works piece by piece and only ever lengthens: the
    sanitized form of a concatenation is the concatenation of the sanitized
    forms, and the result is longer than the text by one character per
    space. *)
Theorem sanitize_pieces_and_length (a b : pystr) :
  _sanitize_text_for_adb_input (a ++ b)
    = _sanitize_text_for_adb_input a ++ _sanitize_text_for_adb_input b
  /\ List.length (_sanitize_text_for_adb_input a)
     = (List.length a + count_occ N.eq_dec a (cp " "))%nat.
Proof.
  rewrite !SanitizeFacts.sanitize_per_char. split.
  - apply flat_map_app.
  - induction a as [|c rest IH]; [reflexivity|].
    cbn [flat_map]. rewrite length_app, IH. cbn [count_occ List.length].
    unfold encode_char.
    destruct (N.eq_dec c (cp " ")) as [->|Hc].
    + simpl. lia.
    + destruct (N.eqb_spec c (cp " ")); [contradiction|].
      destruct (in_safe_class c); simpl; lia.
Qed.

End SanitizeMore.

Module AgentMore.
Import Py Device Trace Actions Agent Shape.
Local Open Scope string_scope.
Local Open Scope list_scope.

Lemma ends_bind {A B} (P : B -> World -> Prop) (m : M A) k :
  (forall a, ends P (k a)) -> ends P (bind m k).
Proof.
  intros Hk w b w'. unfold bind.
  destruct (m w) as [[a|e] w1]; [apply Hk|discriminate].
Qed.

Lemma ends_ret {A} (P : A -> World -> Prop) a :
  (forall w, P a w) -> ends P (ret a).
Proof. intros Hp w a' w' [= <- <-]. apply Hp. Qed.

Section Loop.
Context `{Builtins} `{Emulator} `{Backend}.
Variable cfg : Config.

(** *** The repetition counter *)

Lemma track_or_reset sig v :
  (repeat_count
     (if (10 <=? repeat_count (track sig v))%nat
      then set_repeat (track sig v) 0 else track sig v) <= 9)%nat.
Proof.
  destruct (10 <=? repeat_count (track sig v))%nat eqn:E; simpl.
  - lia.
  - apply Nat.leb_gt in E. lia.
Qed.

Lemma process_item_counter ctx item v t :
  (repeat_count v <= 9)%nat ->
  returns (fun '(v', _, _) => (repeat_count v' <= 9)%nat)
          (process_item cfg ctx item v t).
Proof.
  intros Hv. unfold process_item.
  destruct (type item).
  - eapply AgentFacts.returns_bind; [apply AgentFacts.returns_any|].
    intros ? _. apply AgentFacts.returns_ret. exact Hv.
  - eapply AgentFacts.returns_bind; [apply AgentFacts.returns_any|].
    intros ? _.
    match goal with
    | |- context [json_dumps_sorted ?a] =>
        pose proof (track_or_reset (json_dumps_sorted a) v) as Hk;
        unfold track in Hk
    end.
    destruct (10 <=? _)%nat.
    + repeat (eapply AgentFacts.returns_bind;
              [apply AgentFacts.returns_any|intros ? _]).
      apply AgentFacts.returns_ret. simpl. lia.
    + repeat (eapply AgentFacts.returns_bind;
              [apply AgentFacts.returns_any|intros ? _]).
      apply AgentFacts.returns_ret. exact Hk.
  - destruct (negb _).
    + eapply AgentFacts.returns_bind; [apply AgentFacts.returns_any|].
      intros ? _. apply AgentFacts.returns_ret. exact Hv.
    + repeat (eapply AgentFacts.returns_bind;
              [apply AgentFacts.returns_any|intros ? _]).
      apply AgentFacts.returns_ret. exact Hv.
Qed.

Lemma process_items_counter ctx items :
  forall v t,
    (repeat_count v <= 9)%nat ->
    returns (fun '(v', _) => (repeat_count v' <= 9)%nat)
            (process_items cfg ctx items v t).
Proof.
  induction items as [|item rest IH]; intros v t Hv; simpl.
  - apply AgentFacts.returns_ret. exact Hv.
  - eapply AgentFacts.returns_bind; [apply process_item_counter, Hv|].
    intros [[v1 t1] flow] Hk. destruct flow.
    + apply IH, Hk.
    + apply AgentFacts.returns_ret, Hk.
Qed.

Lemma agent_turn_counter idx st :
  (repeat_count (vars st) <= 9)%nat ->
  returns (fun st' => (repeat_count (vars st') <= 9)%nat)
          (agent_turn cfg idx st).
Proof.
  intros Hv. unfold agent_turn.
  repeat first
    [ eapply AgentFacts.returns_bind;
      [apply (process_items_counter _ _ (next_turn (vars st)) _ Hv)|]
    | eapply AgentFacts.returns_bind;
      [apply AgentFacts.returns_any|intros ? _]
    | match goal with
      | |- returns _ (let '(_, _) := ?x in _) => destruct x
      end ].
  intros [v' t'] Hk.
  repeat first
    [ apply AgentFacts.returns_ret
    | eapply AgentFacts.returns_bind;
      [apply AgentFacts.returns_any|intros ? _]
    | match goal with
      | |- returns _ (if ?b then _ else _) => destruct b
      | |- returns _ (match ?x with _ => _ end) => destruct x
      end ]; exact Hk.
Qed.

Lemma turn_loop_counter idx st st' w w' :
  (repeat_count (vars st) <= 9)%nat ->
  turn_loop cfg idx st w = (Ok st', w') ->
  (repeat_count (vars st') <= 9)%nat.
Proof.
  unfold turn_loop.
  generalize (Z.to_nat (MAX_AGENT_STEPS cfg
                        - Z.of_nat (turns_this_sub (vars st)))).
  intros fuel. revert st w. induction fuel as [|fuel IH]; intros st w Hv.
  - intros [= <- _]. exact Hv.
  - cbn [while_turns]. destruct (may_continue cfg (vars st)).
    + unfold bind.
      destruct (agent_turn cfg idx st w) as [[st1|e] w1] eqn:Et;
        [|discriminate].
      apply (agent_turn_counter idx st Hv) in Et.
      destruct (finished (vars st1)).
      * intros [= <- _]. exact Et.
      * apply IH, Et.
    + intros [= <- _]. exact Hv.
Qed.

(** X16. The repeat counter never rests at the threshold: when it is below
    10 before the items of a turn are processed, it is below 10 after them,
    whatever the items; and a sub-goal's turn loop, which starts at 0, ends
    with the counter below 10. *)
Theorem repeat_counter_stays_below_threshold :
  (forall ctx items v t w v' t' w',
     (repeat_count v <= 9)%nat ->
     process_items cfg ctx items v t w = (Ok (v', t'), w') ->
     (repeat_count v' <= 9)%nat)
  /\ (forall idx g msgs w st' w',
        turn_loop cfg idx (mkLoopState fresh_sub_vars g msgs) w = (Ok st', w') ->
        (repeat_count (vars st') <= 9)%nat).
Proof.
  split.
  - intros ctx items v t w v' t' w' Hv Hrun.
    exact (process_items_counter ctx items v t Hv w (v', t') w' Hrun).
  - intros idx g msgs w st' w' Hrun.
    eapply turn_loop_counter; [|exact Hrun]. simpl. lia.
Qed.

(** *** Counting turns *)

Lemma run_substeps_count hints :
  forall steps idx g w g' w',
    run_substeps cfg hints idx steps g w = (Ok g', w') ->
    exists new,
      substep_results w' = substep_results w ++ new
      /\ g' = (g + list_sum (map turns new))%nat
      /\ List.length (turn_lines (step_logs w'))
         = (List.length (turn_lines (step_logs w))
            + list_sum (map turns new))%nat.
Proof.
  induction steps as [|sub rest IH]; intros idx g w g' w'.
  - intros [= <- <-]. exists []. simpl. rewrite app_nil_r. auto.
  - simpl. unfold bind at 1.
    destruct (AgentFacts.run_substep_spec cfg hints idx sub g w)
      as (k & _ & Hl & Hr).
    destruct (run_substep cfg hints idx sub g w) as [[[sub_ok g1]|e] w1];
      simpl in Hl, Hr; [|discriminate].
    destruct Hr as (Hr & -> & _).
    destruct sub_ok; simpl.
    + intros Hrun. apply IH in Hrun as (new & Hr' & -> & Hl').
      exists (mkSubstepResult idx sub true k :: new).
      rewrite Hr', Hr, <- app_assoc. simpl.
      split; [reflexivity|]. split; [lia|].
      rewrite Hl', Hl, length_app, repeat_length. lia.
    + unfold bind, log, ret. simpl. intros [= <- <-].
      exists [mkSubstepResult idx sub false k].
      simpl. rewrite Hr, AgentFacts.turn_lines_app, Hl. simpl.
      rewrite app_nil_r, length_app, repeat_length.
      split; [reflexivity|]. split; lia.
Qed.

(** X17. The summary's count of executed turns.  When the loop ends
    without an exception, [executed] is the number of turns the run logged,
    which is the sum of the turn counts of the recorded sub-goal results.
    When an exception ends the loop, [executed] stays 0 whatever number of
    turns ran, the single error is recorded and the results are not put in
    the summary. *)
Theorem executed_counts_turns (hints : list string) (steps_spec : list SubGoal)
    (history : list Call) :
  exists summary w,
    run_agent_loop cfg hints steps_spec (initial_world history) = (Ok summary, w)
    /\ match substeps summary with
       | Some results =>
           results = substep_results w
           /\ errors summary = []
           /\ executed summary = list_sum (map turns results)
           /\ executed summary = List.length (turn_lines (step_logs w))
       | None =>
           executed summary = 0%nat /\ summary_ok summary = false
           /\ exists e, errors summary = [e]
       end.
Proof.
  unfold run_agent_loop, try_except. unfold bind at 1.
  set (w0 := snd (log LogRecordingStarted (initial_world history))).
  change (log LogRecordingStarted (initial_world history)) with (Ok tt, w0).
  cbv iota. unfold bind at 1.
  destruct (run_substeps cfg hints 1 steps_spec 0 w0) as [[g|e] w1] eqn:Erun.
  - apply run_substeps_count in Erun as (new & Hr & -> & Hl).
    simpl. eexists _, w1. split; [reflexivity|]. simpl.
    simpl in Hr, Hl. rewrite Hr.
    split; [reflexivity|]. split; [reflexivity|]. split; lia.
  - unfold bind, log, ret. simpl. eexists _, _. split; [reflexivity|].
    simpl. eauto.
Qed.

(** *** A fresh image for every further turn *)

(** X18. The model is never asked for a further turn without a fresh
    image.  A turn that completes adds device calls and log lines to those
    that were there.  When it has not finished the sub-goal, the last call
    it added is a new screenshot and its last log line gives the number of
    actions the turn executed, which is the number of actions the turn
    announced less the number it replaced by the escape; the next user
    message keeps the sub-goal's context and tells the model what the turn
    did: that the state was updated when that number is positive, that no
    actions were produced when it is zero.  A turn that finishes the
    sub-goal leaves the messages as they were. *)
Theorem unfinished_turn_ends_with_screenshot (idx : nat) (st st' : LoopState)
    (w w' : World) :
  agent_turn cfg idx st w = (Ok st', w') ->
  exists cs lines,
    calls w' = calls w ++ cs
    /\ step_logs w' = step_logs w ++ lines
    /\ if finished (vars st')
       then input_messages st' = input_messages st
       else exists before earlier n,
              cs = before ++ [screenshot TempFile]
              /\ lines
                 = earlier
                   ++ [LogExecutedActions idx (turns_this_sub (vars st')) n]
              /\ (n + escape_lines lines = action_lines lines)%nat
              /\ base_user_context (input_messages st')
                 = base_user_context (input_messages st)
              /\ note (input_messages st') = note_after n.
Proof.
  intros Hrun.
  destruct (AgentFacts.agent_turn_spec cfg idx st w)
    as (cs & lines & evs & Hw & _ & Hr).
  rewrite Hrun in Hw, Hr. cbn [fst snd] in Hw, Hr. subst w'.
  exists cs, lines. split; [reflexivity|]. split; [reflexivity|].
  destruct Hr as [_ Hr]. destruct (finished (vars st')); [exact Hr|].
  destruct Hr as (before & earlier & n & Hc & Hl & Hn & Hm).
  exists before, earlier, n. rewrite Hm. auto.
Qed.

Lemma bind_log {A} l (k : unit -> M A) w :
  bind (log l) k w = k tt (logged l w).
Proof. reflexivity. Qed.

Lemma bind_query {A B} (q : list Call -> A) (k : A -> M B) w :
  bind (query q) k w = k (q (calls w)) w.
Proof. reflexivity. Qed.

Lemma reasoning_items ctx items :
  Forall (fun item => type item = REASONING) items ->
  forall v t w, exists t' w',
    process_items cfg ctx items v t w = (Ok (v, t'), w')
    /\ calls w' = calls w /\ web_events w' = web_events w
    /\ executed_any t' = executed_any t
    /\ actions_this_turn t' = actions_this_turn t.
Proof.
  induction 1 as [|item rest Hitem _ IH]; intros v t w.
  - exists t, w. simpl. auto.
  - simpl. unfold bind at 1. unfold process_item. rewrite Hitem.
    set (txt := match text item with Some s => s | None => "" end).
    assert (Hlog : exists w1,
               (if txt =? "" then ret tt else log (LogReasoning txt)) w
               = (Ok tt, w1)
               /\ calls w1 = calls w /\ web_events w1 = web_events w).
    { destruct (txt =? ""); eexists; split; try reflexivity; auto. }
    destruct Hlog as (w1 & Hlog & Hc1 & He1).
    unfold bind at 1. rewrite Hlog. simpl.
    destruct (IH v (add_text t txt) w1) as (t' & w' & Hrun & Hc & He & Hx & Ha).
    exists t', w'. rewrite Hrun.
    split; [reflexivity|]. split; [congruence|]. split; [congruence|].
    split; [rewrite Hx; reflexivity|rewrite Ha; reflexivity].
Qed.

(** X19. A turn in which the model only reasons: when the provider
    returns reasoning items and nothing else, the turn touches the device
    only to take the fresh screenshot, and the next user message tells the
    model that no action was produced. *)
Theorem reasoning_only_turn (idx : nat) (st : LoopState) (w : World)
    (items : list LLMOutputItem) :
  (forall width height,
     create_turn (S (global_index st)) (input_messages st) width height
     = Ok items) ->
  Forall (fun item => type item = REASONING) items ->
  finished (vars st) = false ->
  command_fails (calls w) (screenshot TempFile) = false ->
  exists st' w',
    agent_turn cfg idx st w = (Ok st', w')
    /\ vars st' = next_turn (vars st)
    /\ calls w' = calls w ++ [screenshot TempFile]
    /\ web_events w' = web_events w
    /\ note (input_messages st') = NoActionsProduced.
Proof.
  intros Hturn Hitems Hf Hok. unfold agent_turn.
  rewrite bind_log, bind_query.
  destruct (get_device_resolution _) as [phy_w phy_h].
  rewrite bind_query.
  destruct (Screen.canvas_dims _ _ _) as [dev_w dev_h].
  rewrite bind_log, bind_query.
  unfold bind at 1. unfold lift at 1. rewrite Hturn. cbv iota.
  unfold bind at 1.
  match goal with
  | |- context [process_items cfg ?ctx items ?v ?t ?w0] =>
      destruct (reasoning_items ctx items Hitems v t w0)
        as (t' & w1 & Hrun & Hc & He & Hx & Ha)
  end.
  rewrite Hrun. cbv iota.
  change (finished (next_turn (vars st))) with (finished (vars st)).
  rewrite Hf.
  simpl in Hc, He, Hx. unfold bind, checked, log, ret.
  rewrite Hc, Hok, Hx. simpl.
  eexists _, _. split; [reflexivity|]. simpl.
  rewrite Hc, He. auto.
Qed.

End Loop.

(** At concrete inputs. *)

Lemma unfinished_turn_ends_with_screenshot_witness :
  exists cs lines,
    calls (snd Demo.hover_turn) = calls Demo.first_world ++ cs
    /\ step_logs (snd Demo.hover_turn) = step_logs Demo.first_world ++ lines
    /\ exists before earlier n,
         cs = before ++ [screenshot TempFile]
         /\ lines
            = earlier
              ++ [LogExecutedActions 1
                    (turns_this_sub (vars Demo.hover_final)) n]
         /\ (n + escape_lines lines = action_lines lines)%nat
         /\ base_user_context (input_messages Demo.hover_final)
            = base_user_context
                (input_messages
                   (Demo.first_state (Demo.sub_goal "open settings")))
         /\ note (input_messages Demo.hover_final) = note_after n.
Proof.
  apply (@unfinished_turn_ends_with_screenshot Demo.builtins
           Demo.steady_device Demo.hover_provider default_config 1%nat
           (Demo.first_state (Demo.sub_goal "open settings"))
           Demo.hover_final Demo.first_world (snd Demo.hover_turn)).
  vm_compute. reflexivity.
Defined.

Lemma reasoning_only_turn_witness :
  exists st' w',
    @agent_turn Demo.builtins Demo.steady_device Demo.idle_provider
      default_config 1
      (Demo.first_state (Demo.sub_goal "open settings")) Demo.first_world
    = (Ok st', w')
    /\ vars st'
       = next_turn (vars (Demo.first_state (Demo.sub_goal "open settings")))
    /\ calls w' = calls Demo.first_world ++ [screenshot TempFile]
    /\ web_events w' = web_events Demo.first_world
    /\ note (input_messages st') = NoActionsProduced.
Proof.
  apply (@reasoning_only_turn Demo.builtins Demo.steady_device
           Demo.idle_provider default_config 1%nat _ _
           [Demo.reasoning "still looking"]).
  - intros width height. reflexivity.
  - repeat constructor.
  - reflexivity.
  - reflexivity.
Defined.

End AgentMore.


(** ** The Claude provider *)

Module ClaudeProviderFacts.
Import Py Claude Agent ClaudeProvider.
Local Open Scope string_scope.
Local Open Scope list_scope.

Lemma first_image_text_parts (parts : list string) (rest : list value) :
  first_image (map text_part parts ++ rest) = first_image rest.
Proof.
  induction parts as [|t parts IH]; [reflexivity|].
  cbn [map app first_image text_part]. exact IH.
Qed.

Lemma first_text_parts (parts : list string) (rest : list value) :
  first_text (map text_part parts ++ rest)
  = match parts with t :: _ => VStr t | [] => first_text rest end.
Proof. destruct parts; reflexivity. Qed.

(** X20. What [format_user_message] packs, the provider's two readers get
    back: from the message built for a list of texts and the data URL of a
    screenshot, [_extract_screenshot_b64] returns the base64 data of the
    URL, and the scan for the user text returns the first of the texts;
    from a message built without a screenshot it returns no image. *)
Theorem user_message_round_trip (text_parts : list string) (b64 : string) :
  (exists msg,
     format_user_message text_parts
       (Some ("data:image/png;base64," ++ b64)%string)
     = Returned msg
     /\ _extract_screenshot_b64 msg = Returned (VStr b64)
     /\ user_text_of msg
        = match text_parts with t :: _ => VStr t | [] => VNone end)
  /\ (forall url, url = None \/ url = Some "" ->
      exists msg,
        format_user_message text_parts url = Returned msg
        /\ _extract_screenshot_b64 msg = Returned VNone
        /\ user_text_of msg
           = match text_parts with t :: _ => VStr t | [] => VNone end).
Proof.
  split.
  - eexists. split; [reflexivity|].
    unfold _extract_screenshot_b64, user_text_of. cbn [get get_default lookup String.eqb Ascii.eqb Bool.eqb].
    rewrite first_image_text_parts, first_text_parts. split; reflexivity.
  - intros url [-> | ->]; (eexists; split; [reflexivity|]);
      unfold _extract_screenshot_b64, user_text_of;
      cbn [get get_default lookup String.eqb Ascii.eqb Bool.eqb];
      rewrite <- (app_nil_r (map text_part text_parts));
      rewrite first_image_text_parts, first_text_parts; split; reflexivity.
Qed.

Section Turn.
Context `{Builtins} `{Runtime}.

Lemma answered_ids_tool_results (pending : list ToolUse) (shot : value) :
  answered_ids (tool_results pending shot)
  = map (fun tu => VStr (tool_id tu)) pending.
Proof.
  unfold tool_results, answered_ids. cbn [get get_default lookup String.eqb Ascii.eqb Bool.eqb].
  rewrite map_map. reflexivity.
Qed.

Lemma answered_next (history : list value) (pending : list ToolUse)
    (user_msg : dict) (shot : value) (content : list Block) :
  answered history pending ->
  answered
    ((history ++ [match pending with
                  | [] => VDict user_msg
                  | _ :: _ => tool_results pending shot
                  end]) ++ [assistant_message content])
    (_extract_tool_use_blocks content).
Proof.
  intros Hh. rewrite <- app_assoc. cbn [app].
  apply (answered_turn history pending _ content Hh).
  intros Hne. destruct pending as [|tu pending]; [congruence|].
  apply answered_ids_tool_results.
Qed.

(** X21. The conversation stays answered.  If every reply in the history
    that used tools is followed by a message with one tool result per tool
    use, in order and under the same ids, and the pending tool uses are
    those of the last reply, then the same holds after [create_turn],
    unless the remote call itself raised: whether the context was reset or
    not, and also when parsing the reply raised. *)
Theorem create_turn_keeps_answered (client : Request -> option (list Block))
    (p p' : Provider) (system_msg user_msg : dict) (width height : Z)
    (r : outcome (list LLMOutputItem)) :
  answered (_history p) (_pending_tool_uses p) ->
  create_turn client p system_msg user_msg width height = (r, p') ->
  r <> Failed APIError ->
  answered (_history p') (_pending_tool_uses p').
Proof.
  intros Hp Hrun Hr. unfold create_turn in Hrun.
  destruct (subscript system_msg "content") as [system_text|e];
    [|inversion Hrun; subst; exact Hp].
  destruct (_extract_screenshot_b64 user_msg) as [shot|f];
    [|inversion Hrun; subst; exact Hp].
  cbv zeta in Hrun.
  destruct (resets p system_text (user_text_of user_msg));
    cbn [_history _pending_tool_uses _model _system _tool_version _beta_flag
         _last_user_text] in Hrun;
    match type of Hrun with
    | context [client ?q] => destruct (client q) as [content|]
    end;
    inversion Hrun; subst; try congruence;
    cbn [_history _pending_tool_uses].
  - apply (answered_next [] [] user_msg shot content). constructor.
  - apply answered_next. exact Hp.
Qed.

Lemma tools_of_app (a b : list LLMOutputItem) :
  tools_of (a ++ b) = tools_of a ++ tools_of b.
Proof. unfold tools_of. apply flat_map_app. Qed.

(** X22. The items of a turn follow the reply's tool uses: when
    [_parse_response] returns, the items that are actions or end-of-test
    calls are, in order, the tool uses of the reply that name the computer
    or the end_test tool (so each of them has its pending tool use, which
    the next turn answers), and every reasoning item carries a text that is
    not empty. *)
Theorem parsed_items_follow_tool_uses (content : list Block)
    (items : list LLMOutputItem) :
  _parse_response content = Returned items ->
  tools_of items
  = filter is_known_tool (map tool_name (_extract_tool_use_blocks content))
  /\ Forall (fun item =>
               Agent.type item = REASONING ->
               exists t, Agent.text item = Some t /\ t <> "") items.
Proof.
  revert items. induction content as [|block rest IH]; intros items Hparse.
  - inversion Hparse. split; [reflexivity|constructor].
  - cbn [_parse_response] in Hparse.
    destruct (items_of_block block) as [first|f] eqn:Eb; [|discriminate].
    destruct (_parse_response rest) as [others|f] eqn:Er; [|discriminate].
    inversion Hparse; subst items. destruct (IH others eq_refl) as [IHt IHr].
    rewrite tools_of_app, IHt. unfold _extract_tool_use_blocks.
    cbn [flat_map]. rewrite map_app, filter_app. fold (_extract_tool_use_blocks rest).
    assert (Hfirst :
      tools_of first
      = filter is_known_tool
          (map tool_name
             match block with
             | tool_use_block id name _ => [mkToolUse id name]
             | _ => []
             end)
      /\ Forall (fun item =>
                   Agent.type item = REASONING ->
                   exists t, Agent.text item = Some t /\ t <> "") first).
    { destruct block as [text|text sig|id name inp|ty]; cbn [items_of_block] in Eb.
      - inversion Eb. split.
        + destruct (String.eqb text ""); reflexivity.
        + destruct (String.eqb_spec text ""); repeat constructor.
          intros _. exists text. split; [reflexivity|assumption].
      - inversion Eb. split.
        + destruct (String.eqb text ""); reflexivity.
        + destruct (String.eqb_spec text ""); repeat constructor.
          intros _. exists text. split; [reflexivity|assumption].
      - cbn [map filter tool_name]. unfold is_known_tool.
        destruct (String.eqb_spec name "computer") as [->|_].
        + destruct (_normalize_action inp); inversion Eb. split; [reflexivity|].
          repeat constructor. cbn. discriminate.
        + destruct (String.eqb_spec name "end_test") as [->|_]; inversion Eb;
            (split; [reflexivity|]); repeat constructor. cbn. discriminate.
      - inversion Eb. split; [reflexivity|constructor]. }
    destruct Hfirst as [Ht Hr]. rewrite Ht. split; [reflexivity|].
    apply Forall_app. split; assumption.
Qed.

End Turn.

(** At a concrete conversation. *)

Lemma create_turn_keeps_answered_witness :
  @answered Conversation.runtime
    (_history (snd Conversation.second_turn))
    (_pending_tool_uses (snd Conversation.second_turn)).
Proof.
  apply (@create_turn_keeps_answered Demo.builtins Conversation.runtime
           Conversation.clicking_client (snd Conversation.first_turn)
           (snd Conversation.second_turn) Conversation.system_msg
           (Conversation.user_msg "d29ybGQ=") 1080 2400
           (fst Conversation.second_turn)).
  - change (snd Conversation.first_turn)
      with (mkProvider "claude-opus-4-6" "computer_20251124"
              "computer-use-2025-11-24" (VStr "You control a screen.")
              ([] ++ [VDict (Conversation.user_msg "aGVsbG8=");
                      @assistant_message Conversation.runtime
                        Conversation.click_reply])
              (_extract_tool_use_blocks Conversation.click_reply)
              (VStr "Goal: open settings")).
    cbn [_history _pending_tool_uses].
    apply (@answered_turn Conversation.runtime [] [] _ Conversation.click_reply).
    + constructor.
    + intros Hne. congruence.
  - reflexivity.
  - vm_compute. discriminate.
Defined.

Lemma parsed_items_follow_tool_uses_witness :
  tools_of [Demo.reasoning "The settings icon is at the top.";
            Demo.computer_action [("type", VStr "click"); ("x", VInt 7); ("y", VInt 9)]]
  = filter is_known_tool
      (map tool_name (_extract_tool_use_blocks Conversation.click_reply))
  /\ Forall (fun item =>
               Agent.type item = REASONING ->
               exists t, Agent.text item = Some t /\ t <> "")
            [Demo.reasoning "The settings icon is at the top.";
             Demo.computer_action [("type", VStr "click"); ("x", VInt 7); ("y", VInt 9)]].
Proof.
  apply (@parsed_items_follow_tool_uses Demo.builtins Conversation.click_reply).
  reflexivity.
Defined.

End ClaudeProviderFacts.

(** ** The pre-steps of an agent run *)

Module PreStepsFacts.
Import Py Device Trace Actions Files Effects EffectsFacts PreSteps.
Local Open Scope string_scope.
Local Open Scope list_scope.

Section Run.
Context `{Builtins} `{Emulator}.
Variable pre_dir : string.
Variable package : string.

Lemma pre_step_returns (i : nat) (st : value) (w : World) :
  fst (pre_step pre_dir package i st w) = Ok tt.
Proof.
  unfold pre_step. destruct st; try reflexivity.
  unfold try_except.
  match goal with |- fst (match ?m with _ => _ end) = _ => destruct m as [[[]|e] w1] end;
    reflexivity.
Qed.

Lemma pre_steps_returns (i : nat) (pre_steps : list value) (w : World) :
  fst (pre_steps_from pre_dir package i pre_steps w) = Ok tt.
Proof.
  revert i w. induction pre_steps as [|st rest IH]; intros i w; [reflexivity|].
  cbn [pre_steps_from]. unfold bind.
  pose proof (pre_step_returns i st w) as Hst.
  destruct (pre_step pre_dir package i st w) as [[[]|e] w1]; [|discriminate].
  apply IH.
Qed.

(** X23. A pre-step that fails does not stop the pre-steps: whatever the
    commands are and however the device answers, the loop never raises, and
    running a list of pre-steps followed by another is running the first
    list and then, from where that leaves the device and with the numbering
    continued, the second. *)
Theorem pre_steps_never_stop (i : nat) (first second : list value) (w : World) :
  exists w1 w2,
    pre_steps_from pre_dir package i first w = (Ok tt, w1)
    /\ pre_steps_from pre_dir package (i + List.length first) second w1
       = (Ok tt, w2)
    /\ pre_steps_from pre_dir package i (first ++ second) w = (Ok tt, w2).
Proof.
  revert i w. induction first as [|st rest IH]; intros i w.
  - cbn [app List.length pre_steps_from]. rewrite Nat.add_0_r.
    exists w, (snd (pre_steps_from pre_dir package i second w)).
    assert (Hs : pre_steps_from pre_dir package i second w
                 = (Ok tt, snd (pre_steps_from pre_dir package i second w))).
    { rewrite <- (pre_steps_returns i second w). apply surjective_pairing. }
    split; [reflexivity|]. split; exact Hs.
  - cbn [app List.length pre_steps_from]. unfold bind.
    pose proof (pre_step_returns i st w) as Hst.
    destruct (pre_step pre_dir package i st w) as [[[]|e] w0]; [|discriminate].
    destruct (IH (S i) w0) as [w1 [w2 [H1 [H2 H3]]]].
    exists w1, w2. rewrite <- Nat.add_succ_comm. repeat split; assumption.
Qed.

Lemma added_with_calls {A} (m : M A) (w : World) (cs : list Call) :
  snd (m w) = with_calls cs w -> added m w = cs.
Proof. intros Hw. unfold added. rewrite Hw. apply skipn_with_calls. Qed.

Lemma added_unmarked {A} (m : M A) (w : World) (c : Call) :
  adds_calls (fun c => is_marked c = false) m ->
  In c (added m w) -> is_marked c = false.
Proof.
  intros Hm Hin. destruct (Hm w) as [cs [Hw Hcs]].
  rewrite (added_with_calls m w cs Hw) in Hin.
  rewrite Forall_forall in Hcs. apply Hcs. exact Hin.
Qed.

(** What a tap pre-step does to the device, case by case. *)
Lemma pre_step_tap (i : nat) (st : dict) (w : World) :
  eq_str (get st "cmd") "tap" = true ->
  added (pre_step pre_dir package i (VDict st)) w
  = match lookup st "x" with
    | None => []
    | Some vx =>
        match py_int vx with
        | Raise _ => []
        | Ok x =>
            match lookup st "y" with
            | None => []
            | Some vy =>
                match py_int vy with
                | Raise _ => []
                | Ok y =>
                    if command_fails (calls w) (tap x y) then [tap x y]
                    else [tap x y;
                          screenshot_with_marker (pre_file pre_dir i "tap") x y]
                end
            end
        end
    end.
Proof.
  intros Etap. apply added_with_calls. unfold pre_step. cbv zeta.
  assert (Hcmd : eq_str (get_default st "cmd" (VStr "")) "tap" = true).
  { unfold get, get_default in *. destruct (lookup st "cmd"); [exact Etap|discriminate]. }
  rewrite Hcmd, (execute_command_tap st package Etap).
  unfold try_except, bind, contains. rewrite (int_at_runs st "x" w).
  destruct (lookup st "x") as [vx|] eqn:Ex; [|symmetry; apply with_calls_nil].
  destruct (py_int vx) as [x0|e] eqn:Epx; [|symmetry; apply with_calls_nil].
  rewrite (int_at_runs st "y" w).
  destruct (lookup st "y") as [vy|] eqn:Ey; [|symmetry; apply with_calls_nil].
  destruct (py_int vy) as [y0|e] eqn:Epy; [|symmetry; apply with_calls_nil].
  unfold checked.
  destruct (command_fails (calls w) (tap x0 y0)); [reflexivity|].
  cbn [andb]. rewrite !int_at_runs, Ex, Epx.
  rewrite !int_at_runs, Ey, Epy. unfold quiet. cbn [snd].
  rewrite !record_with_calls, with_calls_app. reflexivity.
Qed.

(** X24. The marker of a pre-step screenshot is where the tap went.  If a
    pre-step takes a marked screenshot, then what it did to the device is
    exactly a tap, which the device accepted, followed by that screenshot,
    marked at the point of the tap and stored under the tap file of the
    step; no other pre-step, and no tap that failed, leaves a marked
    image. *)
Theorem marked_pre_step_is_a_tap (i : nat) (st : value) (w : World)
    (out_path : Path) (x y : Z) :
  In (screenshot_with_marker out_path x y)
     (added (pre_step pre_dir package i st) w) ->
  added (pre_step pre_dir package i st) w
  = [tap x y; screenshot_with_marker (pre_file pre_dir i "tap") x y]
  /\ out_path = pre_file pre_dir i "tap"
  /\ command_fails (calls w) (tap x y) = false.
Proof.
  intros Hin.
  assert (Hnone : added (@ret unit tt) w = []).
  { apply added_with_calls. symmetry. apply with_calls_nil. }
  destruct st as [|b|z|f|s|items|st];
    try (exfalso; change (In (screenshot_with_marker out_path x y)
                            (added (@ret unit tt) w)) in Hin;
         rewrite Hnone in Hin; exact Hin).
  destruct (eq_str (get st "cmd") "tap") eqn:Etap.
  - revert Hin. rewrite (pre_step_tap i st w Etap).
    destruct (lookup st "x") as [vx|]; [|intros []].
    destruct (py_int vx) as [x0|e]; [|intros []].
    destruct (lookup st "y") as [vy|]; [|intros []].
    destruct (py_int vy) as [y0|e]; [|intros []].
    destruct (command_fails (calls w) (tap x0 y0)) eqn:Ef.
    + intros [Hc|[]]. discriminate.
    + intros [Hc|[Hc|[]]]; [discriminate|].
      inversion Hc; subst. repeat split. exact Ef.
  - exfalso.
    assert (Hm : is_marked (screenshot_with_marker out_path x y) = false);
      [|discriminate].
    eapply added_unmarked; [|exact Hin].
    unfold pre_step. cbv zeta.
    assert (Hcmd : eq_str (get_default st "cmd" (VStr "")) "tap" = false).
    { unfold get, get_default in *. destruct (lookup st "cmd"); [exact Etap|reflexivity]. }
    rewrite Hcmd. cbn [andb].
    apply adds_try_except; [|intros; apply adds_ret].
    apply adds_bind; [apply execute_command_unmarked|].
    intros _. apply adds_checked. reflexivity.
Qed.

End Run.

(** On a tap that the device accepts. *)

Lemma marked_pre_step_is_a_tap_witness :
  added (@pre_step Demo.builtins Demo.steady_device "reports/pre_steps"
           "com.example.app" 1 Samples.tap_step) empty_world
  = [tap 540 960;
     screenshot_with_marker (pre_file "reports/pre_steps" 1 "tap") 540 960]
  /\ pre_file "reports/pre_steps" 1 "tap" = pre_file "reports/pre_steps" 1 "tap"
  /\ @command_fails Demo.steady_device (calls empty_world) (tap 540 960) = false.
Proof.
  apply (@marked_pre_step_is_a_tap Demo.builtins Demo.steady_device
           "reports/pre_steps" "com.example.app" 1 Samples.tap_step
           empty_world (pre_file "reports/pre_steps" 1 "tap") 540 960).
  vm_compute. right. left. reflexivity.
Defined.

End PreStepsFacts.

(** ** Installing and launching the app *)

Module LifecycleFacts.
Import Py Device Lifecycle.
Local Open Scope string_scope.
Local Open Scope list_scope.

Section Phone.
Context `{Builtins} `{Phone}.

Lemma partition_size_in_range (part_env : option string) :
  10 <= partition_size_mb part_env <= 2047.
Proof.
  unfold partition_size_mb. cbv zeta.
  match goal with
  | |- context [if (?s <? 10)%Z then _ else _] => generalize s
  end.
  intros size. destruct (Z.ltb_spec size 10).
  - cbn. lia.
  - destruct (Z.gtb_spec size 2047); lia.
Qed.

(** [install_apk] returns only after an attempt that succeeded. *)
Lemma install_apk_returns (apk : option string) (ops ops' : list Op) :
  install_apk apk ops = (Done tt, ops') ->
  exists before,
    ops' = before ++ [adb_install apk] /\ install_answer before apk = Installed.
Proof.
  unfold install_apk. destruct (install_answer ops apk) eqn:E1.
  - intros [= <-]. exists ops. split; [reflexivity|exact E1].
  - cbv zeta.
    destruct (start_fault _ _) as [f|]; [discriminate|].
    match goal with
    | |- context [install_answer ?h apk] =>
        destruct (install_answer h apk) eqn:E2; try discriminate;
        intros [= <-]; exists h; split; [reflexivity|exact E2]
    end.
  - discriminate.
Qed.

(** X25. [install_apk] tries the installation once, and a second time
    only when the first attempt failed for lack of space and the emulator
    came back from a restart with wiped data; the partition size it asks
    for then is always between 10 and 2047 MB, whatever the environment
    says.  It returns only when its last attempt succeeded; everything it
    does is appended to the history. *)
Theorem install_apk_retries_once (apk : option string) (ops ops' : list Op)
    (r : outcome unit) :
  install_apk apk ops = (r, ops') ->
  let attempt := adb_install apk in
  (exists added,
     ops' = ops ++ added
     /\ (added = [attempt]
         \/ exists size,
              10 <= size <= 2047
              /\ install_answer ops apk = LowSpace
              /\ (added = [attempt; restart_emulator true (Some size)]
                  \/ added = [attempt; restart_emulator true (Some size);
                              attempt])))
  /\ (r = Done tt ->
      exists before,
        ops' = before ++ [attempt] /\ install_answer before apk = Installed).
Proof.
  intros Hrun attempt. unfold install_apk in Hrun.
  destruct (install_answer ops apk) eqn:E1.
  - inversion Hrun; subst. split.
    + exists [attempt]. split; [reflexivity|left; reflexivity].
    + intros _. exists ops. split; [reflexivity|exact E1].
  - cbv zeta in Hrun.
    pose proof (partition_size_in_range partition_env) as Hsize.
    set (size := partition_size_mb partition_env) in *.
    destruct (start_fault (ops ++ [adb_install apk])
                (restart_emulator true (Some size))) as [f|].
    + inversion Hrun; subst. split; [|discriminate].
      exists [attempt; restart_emulator true (Some size)].
      rewrite <- app_assoc. split; [reflexivity|].
      right. exists size. repeat split; try lia. left. reflexivity.
    + destruct (install_answer
                  ((ops ++ [adb_install apk])
                   ++ [restart_emulator true (Some size)]) apk) eqn:E2;
        inversion Hrun; subst; (split; [|try discriminate]);
        try (exists [attempt; restart_emulator true (Some size); attempt];
             rewrite <- !app_assoc; split; [reflexivity|];
             right; exists size; repeat split; try lia; right; reflexivity).
      intros _. eexists. split; [reflexivity|exact E2].
  - inversion Hrun; subst. split; [|discriminate].
    exists [attempt]. split; [reflexivity|left; reflexivity].
Qed.

(** X26. When [prepare_app] returns for a named package, the app has just
    been launched: the last two things done to the phone are the force-stop
    and the launch, and the launch was accepted, whether or not the
    force-stop was.  With [skip_install] the package manager was only asked
    for the package, which it listed; without it, the last attempt to
    install the APK succeeded. *)
Theorem prepared_app_is_launched (package : string) (apk : option string)
    (activity : value) (config : InstallConfig) (ops ops' : list Op) :
  prepare_app package apk activity config ops = (Done tt, ops') ->
  package <> "" ->
  exists before,
    ops' = before ++ [device (stop_app package);
                      device (launch_app package activity)]
    /\ call_fails (before ++ [device (stop_app package)])
         (launch_app package activity) = false
    /\ if skip_install config
       then before = ops ++ [pm_list_packages package]
            /\ lists_package ops package = true
       else exists earlier,
              before = earlier ++ [adb_install apk]
              /\ install_answer earlier apk = Installed.
Proof.
  intros Hrun Hpkg. unfold prepare_app, is_package_installed, call in Hrun.
  cbv zeta in Hrun.
  assert (Hnamed : truthy activity || negb (String.eqb package "") = true).
  { destruct (String.eqb_spec package ""); [contradiction|].
    apply orb_true_r. }
  destruct (skip_install config).
  - destruct (lists_package ops package) eqn:El; [|discriminate].
    rewrite Hnamed in Hrun.
    match type of Hrun with
    | context [call_fails ?h ?c] => destruct (call_fails h c) eqn:Ef
    end; inversion Hrun; subst.
    exists (ops ++ [pm_list_packages package]).
    split; [rewrite <- !app_assoc; reflexivity|].
    split; [exact Ef|]. split; reflexivity.
  - destruct (install_apk apk
                (if lists_package ops package
                 then uninstall package (ops ++ [pm_list_packages package])
                 else ops ++ [pm_list_packages package]))
      as [[[]|f] ops1] eqn:Ei; [|discriminate].
    rewrite Hnamed in Hrun.
    match type of Hrun with
    | context [call_fails ?h ?c] => destruct (call_fails h c) eqn:Ef
    end; inversion Hrun; subst.
    destruct (install_apk_returns _ _ _ Ei) as [earlier [-> Hans]].
    exists (earlier ++ [adb_install apk]).
    split; [rewrite <- !app_assoc; reflexivity|].
    split; [exact Ef|].
    exists earlier. split; [reflexivity|exact Hans].
Qed.

(** With [skip_install], [prepare_app] neither installs nor removes. *)
Lemma prepare_app_skips (package : string) (apk : option string)
    (activity : value) (config : InstallConfig) (ops : list Op) :
  skip_install config = true ->
  exists added,
    snd (prepare_app package apk activity config ops) = ops ++ added
    /\ Forall (fun op => is_install op = false /\ is_uninstall op = false
                         /\ is_restart op = false) added.
Proof.
  intros Hskip. unfold prepare_app, is_package_installed, call. cbv zeta.
  rewrite Hskip.
  destruct (lists_package ops package).
  - destruct (truthy activity || negb (String.eqb package "")).
    + exists [pm_list_packages package; device (stop_app package);
              device (launch_app package activity)].
      cbn [snd]. rewrite <- !app_assoc. split; [reflexivity|].
      repeat constructor.
    + exists [pm_list_packages package; device (stop_app package)].
      cbn [snd]. rewrite <- !app_assoc. split; [reflexivity|].
      repeat constructor.
  - exists [pm_list_packages package]. split; [reflexivity|].
    repeat constructor.
Qed.

(** What [parse_install_config] makes of a truthy [skip_stall]. *)
Lemma skip_stall_config (spec : dict) :
  truthy (get spec "skip_stall") = true ->
  parse_install_config spec = mkInstallConfig true false.
Proof.
  intros Hs. unfold parse_install_config, get, get_default, or_else in *.
  destruct (lookup spec "skip_stall") as [v|]; [|discriminate].
  rewrite Hs. destruct (truthy match lookup spec "skip_install" with
                               | Some v0 => v0 | None => VBool false end) eqn:Ei.
  - rewrite Ei. reflexivity.
  - rewrite Hs. reflexivity.
Qed.

End Phone.

(** On a phone that is short of space. *)

Lemma install_apk_retries_once_witness :
  let attempt := adb_install (Some "apk/app-debug.apk") in
  (exists added,
     [adb_install (Some "apk/app-debug.apk");
      restart_emulator true (Some 2047);
      adb_install (Some "apk/app-debug.apk")] = [] ++ added
     /\ (added = [attempt]
         \/ exists size,
              10 <= size <= 2047
              /\ @install_answer Samples.full_phone [] (Some "apk/app-debug.apk")
                 = LowSpace
              /\ (added = [attempt; restart_emulator true (Some size)]
                  \/ added = [attempt; restart_emulator true (Some size);
                              attempt])))
  /\ (Done tt = Done tt ->
      exists before,
        [adb_install (Some "apk/app-debug.apk");
         restart_emulator true (Some 2047);
         adb_install (Some "apk/app-debug.apk")] = before ++ [attempt]
        /\ @install_answer Samples.full_phone before (Some "apk/app-debug.apk")
           = Installed).
Proof.
  apply (@install_apk_retries_once Demo.builtins Samples.full_phone
           (Some "apk/app-debug.apk") []).
  reflexivity.
Defined.

Lemma prepared_app_is_launched_witness :
  exists before,
    [pm_list_packages "com.example.app";
     adb_install (Some "apk/app-debug.apk");
     device (stop_app "com.example.app");
     device (launch_app "com.example.app" (VStr ".MainActivity"))]
    = before ++ [device (stop_app "com.example.app");
                 device (launch_app "com.example.app" (VStr ".MainActivity"))]
    /\ @call_fails Samples.fresh_phone
         (before ++ [device (stop_app "com.example.app")])
         (launch_app "com.example.app" (VStr ".MainActivity")) = false
    /\ exists earlier,
         before = earlier ++ [adb_install (Some "apk/app-debug.apk")]
         /\ @install_answer Samples.fresh_phone earlier
              (Some "apk/app-debug.apk") = Installed.
Proof.
  apply (@prepared_app_is_launched Demo.builtins Samples.fresh_phone
           "com.example.app" (Some "apk/app-debug.apk") (VStr ".MainActivity")
           (mkInstallConfig false true) []).
  - reflexivity.
  - discriminate.
Defined.

End LifecycleFacts.

(** ** The deterministic test runner *)

Module RunnerFacts.
Import Py Device Trace Actions Files Lifecycle Runner.
Local Open Scope string_scope.
Local Open Scope list_scope.

Section Steps.
Context `{Builtins} `{Emulator}.
Variable screenshots_dir : string.
Variable package : string.

Lemma auto_screenshot_event (i : nat) (step : dict) (w : World) :
  fst (auto_screenshot screenshots_dir i step w) = []
  \/ exists evt,
       fst (auto_screenshot screenshots_dir i step w) = [evt]
       /\ event_index evt = step_index i.
Proof.
  unfold auto_screenshot. cbv zeta.
  destruct (eq_str (get_default step "cmd" (VStr "step")) "tap").
  - unfold Trace.bind. rewrite (EffectsFacts.int_at_runs step "x" w).
    destruct (lookup step "x") as [vx|]; [|left; reflexivity].
    destruct (py_int vx) as [x|e]; [|left; reflexivity].
    rewrite (EffectsFacts.int_at_runs step "y" w).
    destruct (lookup step "y") as [vy|]; [|left; reflexivity].
    destruct (py_int vy) as [y|e]; [|left; reflexivity].
    right. eexists. split; reflexivity.
  - unfold Trace.bind, checked.
    destruct (command_fails (calls w) _); [left; reflexivity|].
    right. eexists. split; reflexivity.
Qed.

Lemma filter_seq_head (keep : nat -> bool) (i n : nat) :
  filter keep (seq i (S n))
  = (if keep i then [i] else []) ++ filter keep (seq (S i) n).
Proof. cbn [seq filter]. destruct (keep i); reflexivity. Qed.

Lemma filter_seq_above (keep keep' : nat -> bool) (i n : nat) :
  (forall k, (i <= k)%nat -> keep k = keep' k) ->
  filter keep (seq i n) = filter keep' (seq i n).
Proof.
  intros Hk. apply filter_ext_in. intros k Hin. apply in_seq in Hin.
  apply Hk. lia.
Qed.

(** What the loop leaves: [n] steps completed, and an event for some of
    them. *)
Lemma run_steps_spec (i : nat) (test_steps : list value) (s s' : Summary)
    (w w' : World) (cause : option Cause) :
  run_steps screenshots_dir package i test_steps s w = (cause, s', w') ->
  ok s' = ok s /\ errors s' = errors s
  /\ (forall f, cause <> Some (Setup f))
  /\ exists n keep,
       (n <= List.length test_steps)%nat
       /\ (cause = None <-> n = List.length test_steps)
       /\ executed s' = match n with O => executed s | S m => (i + m)%nat end
       /\ map event_index (steps s')
          = map event_index (steps s) ++ map step_index (filter keep (seq i n)).
Proof.
  revert i s w. induction test_steps as [|step rest IH]; intros i s w Hrun.
  - inversion Hrun; subst. repeat split; try discriminate.
    exists 0%nat, (fun _ => true). repeat split; try reflexivity; try lia.
    cbn. rewrite app_nil_r. reflexivity.
  - cbn [run_steps] in Hrun.
    assert (Hstop : forall c w0, (forall f, c <> Setup f) ->
              (Some c, s, w0) = (cause, s', w') ->
              ok s' = ok s /\ errors s' = errors s
              /\ (forall f, cause <> Some (Setup f))
              /\ exists n keep,
                   (n <= List.length (step :: rest))%nat
                   /\ (cause = None <-> n = List.length (step :: rest))
                   /\ executed s'
                      = match n with O => executed s | S m => (i + m)%nat end
                   /\ map event_index (steps s')
                      = map event_index (steps s)
                        ++ map step_index (filter keep (seq i n))).
    { intros c w0 Hc Heq. inversion Heq; subst. repeat split.
      - intros f [= Hf]. exact (Hc f Hf).
      - exists 0%nat, (fun _ => true). cbn [List.length seq filter map].
        rewrite app_nil_r. repeat split; try lia; discriminate. }
    destruct step as [|b|z|f|t|items|step];
      try (apply (Hstop NotADict w); [intros; discriminate|exact Hrun]).
    destruct (execute_command step package w) as [[[]|e] w1].
    2:{ apply (Hstop (Command e) w1); [intros; discriminate|exact Hrun]. }
    pose proof (auto_screenshot_event i step w1) as Hevt.
    destruct (auto_screenshot screenshots_dir i step w1) as [evt w2].
    cbn [fst] in Hevt.
    destruct (IH _ _ _ Hrun) as [Hok [Herr [Hsetup [n [keep [Hn [Hnone [Hex Hev]]]]]]]].
    cbn [ok errors executed steps] in *.
    repeat split; try assumption.
    set (keep' := fun k => if Nat.eqb k i
                           then match evt with [] => false | _ => true end
                           else keep k).
    exists (S n), keep'.
    cbn [List.length]. repeat split.
    + lia.
    + intros Hc. apply Hnone in Hc. lia.
    + intros Hc. apply Hnone. lia.
    + rewrite Hex. destruct n; lia.
    + rewrite Hev, filter_seq_head, !map_app, <- app_assoc.
      f_equal.
      rewrite (filter_seq_above keep' keep (S i) n).
      2:{ intros k Hk. unfold keep'.
          destruct (Nat.eqb_spec k i); [lia|reflexivity]. }
      f_equal. unfold keep'. rewrite Nat.eqb_refl.
      destruct Hevt as [->|[e [-> He]]]; [reflexivity|].
      cbn [map]. rewrite He. reflexivity.
Qed.

(** X27. The runner stops at the first step that raises.  When the loop
    ends with an exception, the steps before the failing one were all
    completed, the summary is as they left it, the failing step added at
    most its own command to the device calls, and nothing after it was
    looked at: whatever steps follow, the loop ends the same way. *)
Theorem run_stops_at_first_failure (i : nat) (test_steps : list value)
    (s s' : Summary) (w w' : World) (cause : Cause) :
  run_steps screenshots_dir package i test_steps s w = (Some cause, s', w') ->
  exists completed failing rest w0,
    test_steps = completed ++ failing :: rest
    /\ run_steps screenshots_dir package i completed s w = (None, s', w0)
    /\ run_steps screenshots_dir package (i + List.length completed)
         [failing] s' w0 = (Some cause, s', w')
    /\ forall others,
         run_steps screenshots_dir package i (completed ++ failing :: others) s w
         = (Some cause, s', w').
Proof.
  revert i s w. induction test_steps as [|step rest IH]; intros i s w Hrun;
    [discriminate|].
  assert (Hhere :
    (forall others,
       run_steps screenshots_dir package i (step :: others) s w
       = (Some cause, s', w')) ->
    s' = s ->
    exists completed failing rest0 w0,
      step :: rest = completed ++ failing :: rest0
      /\ run_steps screenshots_dir package i completed s w = (None, s', w0)
      /\ run_steps screenshots_dir package (i + List.length completed)
           [failing] s' w0 = (Some cause, s', w')
      /\ forall others,
           run_steps screenshots_dir package i
             (completed ++ failing :: others) s w
           = (Some cause, s', w')).
  { intros Hall ->. exists [], step, rest, w. cbn [app List.length].
    rewrite Nat.add_0_r. repeat split; [apply Hall|exact Hall]. }
  cbn [run_steps] in Hrun.
  destruct step as [|b|z|f|t|items|step];
    try (inversion Hrun; subst; apply Hhere; [intros; reflexivity|reflexivity]).
  destruct (execute_command step package w) as [[[]|e] w1] eqn:Ecmd.
  2:{ inversion Hrun; subst. apply Hhere; [|reflexivity].
      intros others. cbn [run_steps]. rewrite Ecmd. reflexivity. }
  destruct (auto_screenshot screenshots_dir i step w1) as [evt w2] eqn:Eshot.
  destruct (IH _ _ _ Hrun) as [completed [failing [rest0 [w0 [-> [Hc [Hf Hall]]]]]]].
  exists (VDict step :: completed), failing, rest0, w0.
  cbn [app List.length run_steps]. rewrite Ecmd, Eshot.
  rewrite <- Nat.add_succ_comm. repeat split; assumption.
Qed.

(** X28. The events follow the steps.  The events a run appends carry, in
    increasing order, the numbers of some of the steps it completed: at most
    one event per completed step (none when the automatic screenshot
    failed), and none for the step that raised or for a later one. *)
Theorem events_follow_steps (test_steps : list value) (w w' : World)
    (cause : option Cause) (s' : Summary) :
  run_steps screenshots_dir package 1 test_steps new_summary w
  = (cause, s', w') ->
  (executed s' <= List.length test_steps)%nat
  /\ exists keep : nat -> bool,
       map event_index (steps s')
       = map step_index (filter keep (seq 1 (executed s'))).
Proof.
  intros Hrun.
  destruct (run_steps_spec _ _ _ _ _ _ _ Hrun)
    as [_ [_ [_ [n [keep [Hn [_ [Hex Hev]]]]]]]].
  cbn [new_summary executed steps map app] in *.
  assert (He : executed s' = n) by (destruct n; lia).
  split; [lia|]. exists keep. rewrite He. exact Hev.
Qed.

End Steps.

Section Main.
Context `{Builtins} `{Phone}.
Variable screenshots_dir : string.

Lemma try_block_spec (package : string) (apk : option string)
    (activity : value) (config : InstallConfig) (test_steps : list value) :
  let summary :=
    fst (try_block screenshots_dir package apk activity config test_steps) in
  (executed summary <= List.length test_steps)%nat
  /\ if ok summary
     then errors summary = []
          /\ executed summary = List.length test_steps
     else exists cause,
            errors summary = [cause]
            /\ ((exists f, cause = Setup f /\ executed summary = 0%nat)
                \/ (executed summary < List.length test_steps)%nat).
Proof.
  unfold try_block. cbv zeta.
  destruct (start_fault [] ensure_emulator_ready) as [f|].
  { cbn. split; [lia|]. exists (Setup f). split; [reflexivity|].
    left. exists f. split; reflexivity. }
  destruct (prepare_app package apk activity config [ensure_emulator_ready])
    as [[[]|f] ops].
  2:{ cbn. split; [lia|]. exists (Setup f). split; [reflexivity|].
      left. exists f. split; reflexivity. }
  destruct (@run_steps _ (emulator_after ops) screenshots_dir package 1
              test_steps new_summary empty_world) as [[cause s'] w'] eqn:Erun.
  destruct (@run_steps_spec _ (emulator_after ops) _ _ _ _ _ _ _ _ _ Erun)
    as [_ [Herr [_ [n [keep [Hn [Hnone [Hex _]]]]]]]].
  cbn [new_summary executed errors] in *.
  assert (He : executed s' = n) by (destruct n; lia).
  destruct cause as [cause|]; cbn [fst ok errors executed].
  - split; [lia|]. exists cause. rewrite Herr. split; [reflexivity|].
    right. assert (n <> List.length test_steps).
    { intros Hc. apply Hnone in Hc. discriminate. }
    lia.
  - assert (n = List.length test_steps) by (apply Hnone; reflexivity).
    repeat split; try lia. exact Herr.
Qed.

(** X29. The exit code of [main] tells what the steps did.  When [main]
    returns with a summary, the code is 0 exactly when [ok] is set, and
    then no error was recorded and every step of the test was executed;
    otherwise the code is 1, exactly one error was recorded, and either the
    preparation failed and no step was executed, or fewer steps were
    executed than the test has. *)
Theorem exit_code_tells_the_steps (spec : dict) (code : Z) (summary : Summary)
    (ops : list Op) (test_steps : list value) :
  main screenshots_dir spec = Exited code (Some summary) ops ->
  py_list (get_default spec "steps" (VList [])) = Ok test_steps ->
  (executed summary <= List.length test_steps)%nat
  /\ if ok summary
     then code = 0
          /\ errors summary = []
          /\ executed summary = List.length test_steps
     else code = 1
          /\ exists cause,
               errors summary = [cause]
               /\ ((exists f, cause = Setup f /\ executed summary = 0%nat)
                   \/ (executed summary < List.length test_steps)%nat).
Proof.
  intros Hmain Hsteps. unfold main in Hmain.
  destruct (subscript spec "package") as [package|]; [|discriminate].
  rewrite Hsteps in Hmain. cbv zeta in Hmain.
  destruct (negb (skip_install (parse_install_config spec))
            && negb (truthy (get spec "apk"))); [discriminate|].
  destruct (if truthy (get spec "apk")
            then match get spec "apk" with
                 | VStr p => Ok (Some p)
                 | _ => Raise TypeError
                 end
            else Ok None) as [apk_path|]; [|discriminate].
  destruct (negb connects); [discriminate|].
  pose proof (try_block_spec (py_str package) apk_path (get spec "activity")
                (parse_install_config spec) test_steps) as Hspec.
  destruct (try_block screenshots_dir (py_str package) apk_path
              (get spec "activity") (parse_install_config spec) test_steps)
    as [summary0 ops0].
  cbn [fst] in Hspec. cbv zeta in Hspec.
  inversion Hmain; subst. destruct Hspec as [Hle Hok]. split; [exact Hle|].
  destruct (ok summary).
  - destruct Hok as [He Hx]. repeat split; assumption.
  - split; [reflexivity|exact Hok].
Qed.

(** X30. With a truthy [skip_stall] in the test, [main] never touches the
    installation: however the run goes, and even when the test asks for
    [uninstall_after], nothing it does to the phone is an install, an
    uninstall or a restart of the emulator. *)
Theorem skip_stall_never_installs (spec : dict) (code : Z)
    (summary : option Summary) (ops : list Op) :
  truthy (get spec "skip_stall") = true ->
  main screenshots_dir spec = Exited code summary ops ->
  Forall (fun op => is_install op = false /\ is_uninstall op = false
                    /\ is_restart op = false) ops.
Proof.
  intros Hskip Hmain. unfold main in Hmain.
  destruct (subscript spec "package") as [package|]; [|discriminate].
  destruct (py_list (get_default spec "steps" (VList []))) as [test_steps|];
    [|discriminate].
  cbv zeta in Hmain.
  rewrite (LifecycleFacts.skip_stall_config spec Hskip) in Hmain.
  cbn [skip_install uninstall_after negb andb] in Hmain.
  destruct (if truthy (get spec "apk")
            then match get spec "apk" with
                 | VStr p => Ok (Some p)
                 | _ => Raise TypeError
                 end
            else Ok None) as [apk_path|]; [|discriminate].
  destruct (negb connects); [discriminate|].
  unfold try_block, teardown_app in Hmain.
  assert (Hcalls : forall cs : list Call,
            Forall (fun op => is_install op = false /\ is_uninstall op = false
                              /\ is_restart op = false) (map device cs)).
  { intros cs. apply Forall_forall. intros op Hin. apply in_map_iff in Hin.
    destruct Hin as [c [<- _]]. repeat split. }
  destruct (start_fault [] ensure_emulator_ready) as [f|].
  { inversion Hmain; subst. repeat constructor. }
  destruct (LifecycleFacts.prepare_app_skips (py_str package) apk_path
              (get spec "activity") (mkInstallConfig true false)
              [ensure_emulator_ready] eq_refl) as [added [Hops Hadded]].
  destruct (prepare_app (py_str package) apk_path (get spec "activity")
              (mkInstallConfig true false) [ensure_emulator_ready])
    as [[[]|f] ops0]; cbn [snd] in Hops; subst ops0.
  - destruct (@run_steps _ (emulator_after ([ensure_emulator_ready] ++ added))
                screenshots_dir (py_str package) 1 test_steps new_summary
                empty_world) as [[cause s'] w'].
    destruct cause; inversion Hmain; subst;
      repeat first [ apply Hcalls | assumption
                   | apply Forall_app; split
                   | apply Forall_cons; [repeat split|]
                   | apply Forall_nil ].
  - inversion Hmain; subst.
    repeat first [ apply Hcalls | assumption
                 | apply Forall_app; split
                 | apply Forall_cons; [repeat split|]
                 | apply Forall_nil ].
Qed.

End Main.

(** On the sample test. *)

Lemma run_stops_at_first_failure_witness :
  exists completed failing rest w0,
    [Samples.wait_step; Samples.tap_step; Samples.type_step]
    = completed ++ failing :: rest
    /\ @run_steps Demo.builtins Demo.tap_failing_device Samples.screenshots_dir
         "com.example.app" 1 completed new_summary empty_world
       = (None, snd (fst Samples.numb_steps), w0)
    /\ @run_steps Demo.builtins Demo.tap_failing_device Samples.screenshots_dir
         "com.example.app" (1 + List.length completed) [failing]
         (snd (fst Samples.numb_steps)) w0
       = (Some (Command RuntimeError), snd (fst Samples.numb_steps),
          snd Samples.numb_steps)
    /\ forall others,
         @run_steps Demo.builtins Demo.tap_failing_device
           Samples.screenshots_dir "com.example.app" 1
           (completed ++ failing :: others) new_summary empty_world
         = (Some (Command RuntimeError), snd (fst Samples.numb_steps),
            snd Samples.numb_steps).
Proof.
  apply (@run_stops_at_first_failure Demo.builtins Demo.tap_failing_device
           Samples.screenshots_dir "com.example.app" 1
           [Samples.wait_step; Samples.tap_step; Samples.type_step]
           new_summary).
  vm_compute. reflexivity.
Defined.

Lemma events_follow_steps_witness :
  (executed (snd (fst Samples.smooth_steps))
   <= List.length [Samples.wait_step; Samples.tap_step; Samples.type_step])%nat
  /\ exists keep : nat -> bool,
       map event_index (steps (snd (fst Samples.smooth_steps)))
       = map step_index
           (filter keep (seq 1 (executed (snd (fst Samples.smooth_steps))))).
Proof.
  apply (@events_follow_steps Demo.builtins Demo.steady_device
           Samples.screenshots_dir "com.example.app"
           [Samples.wait_step; Samples.tap_step; Samples.type_step]
           empty_world (snd Samples.smooth_steps)
           (fst (fst Samples.smooth_steps))).
  vm_compute. reflexivity.
Defined.

Lemma exit_code_tells_the_steps_witness :
  (executed Samples.fresh_summary
   <= List.length [Samples.wait_step; Samples.tap_step; Samples.type_step])%nat
  /\ if ok Samples.fresh_summary
     then exit_code Samples.fresh_run = 0
          /\ errors Samples.fresh_summary = []
          /\ executed Samples.fresh_summary
             = List.length [Samples.wait_step; Samples.tap_step;
                            Samples.type_step]
     else exit_code Samples.fresh_run = 1
          /\ exists cause,
               errors Samples.fresh_summary = [cause]
               /\ ((exists f, cause = Setup f
                              /\ executed Samples.fresh_summary = 0%nat)
                   \/ (executed Samples.fresh_summary
                       < List.length [Samples.wait_step; Samples.tap_step;
                                      Samples.type_step])%nat).
Proof.
  apply (@exit_code_tells_the_steps Demo.builtins Samples.fresh_phone
           Samples.screenshots_dir Samples.test_spec
           (exit_code Samples.fresh_run) Samples.fresh_summary
           (history_of Samples.fresh_run)).
  - vm_compute. reflexivity.
  - reflexivity.
Defined.

Lemma skip_stall_never_installs_witness :
  Forall (fun op => is_install op = false /\ is_uninstall op = false
                    /\ is_restart op = false)
         (history_of Samples.numb_run).
Proof.
  apply (@skip_stall_never_installs Demo.builtins Samples.numb_phone
           Samples.screenshots_dir Samples.installed_spec
           (exit_code Samples.numb_run) (summary_of Samples.numb_run)).
  - reflexivity.
  - vm_compute. reflexivity.
Defined.

End RunnerFacts.
